(** * hanzoai/browser-extension: the ZAP client and the CDP bridge server

    A shallow embedding of [src/zap-client.ts] (frame codec, endpoint
    session, event handlers, session manager) and
    [src/cdp-bridge-server.ts] (command router), with the properties the
    specification states about them and further properties of the code.

    Conventions of the embedding.
    - JavaScript values are the inductive [Js.value]; numbers are the
      integers [Z] (the type tags, ids, counters and delays of this code
      are integers; non-integral doubles are outside the model).
    - A JavaScript string is a Rocq [string]; a [Uint8Array]/[ArrayBuffer]
      is a [list Z] of bytes.
    - The platform functions the codec calls ([JSON.stringify],
      [JSON.parse], [TextEncoder], [TextDecoder]) are Section variables;
      the laws assumed of them are Section hypotheses.  What the router
      takes from Node and from the language ([Buffer.from], the
      refusals of [fs.writeFileSync], the conversion of a string or an
      object to a number) are the fields of [Router.Platform].
      [RefPlatform] gives a concrete instance of them.
    - Promises, timers and sockets live in explicit stores; a handler of
      the event loop is a function from world to world.  A continuation
      that JavaScript runs as a microtask runs at the end of the handler
      that settles the promise it waits for.
    - The handlers registered with [on] are the caller's: in a session
      and in the manager [emit] is kept as a log of its calls, and a
      handler is taken not to call back into the object that emits.
      [Emitter] is the registry of handlers itself. *)

From stdpp Require Import gmap strings list fin_maps.
From Stdlib Require Import ZArith Lia Ascii.
From Stdlib Require DecimalString DecimalN DecimalFacts.

#[local] Set Warnings "-register-all".
#[local] Open Scope string_scope.
#[local] Open Scope list_scope.
#[local] Open Scope Z_scope.

(* ===================================================================== *)
(** ** JavaScript values *)
(* ===================================================================== *)

Module Js.

Inductive value : Type :=
| VUndefined
| VNull
| VBool (b : bool)
| VNum (n : Z)
| VStr (s : string)
| VArr (items : list value)
| VObj (props : list (string * value)).

(** Errors thrown by the platform or the code. *)
Record JsError : Type := mkError {
  err_name : string;
  err_message : string;
  err_code : value
}.

(** Computations that may throw. *)
Inductive result (A : Type) : Type :=
| Ok (a : A)
| Throw (e : JsError).
Arguments Ok {A} a.
Arguments Throw {A} e.

Definition bind {A B} (r : result A) (k : A -> result B) : result B :=
  match r with
  | Ok a => k a
  | Throw e => Throw e
  end.

(** [new Error(msg)], [TypeError], [SyntaxError], [RangeError]: no [code]. *)
Definition Error_new (msg : string) : JsError := mkError "Error" msg VUndefined.
Definition TypeError (msg : string) : JsError := mkError "TypeError" msg VUndefined.
Definition SyntaxError (msg : string) : JsError := mkError "SyntaxError" msg VUndefined.
Definition RangeError (msg : string) : JsError := mkError "RangeError" msg VUndefined.

(** ToBoolean. *)
Definition truthy (v : value) : bool :=
  match v with
  | VUndefined | VNull => false
  | VBool b => b
  | VNum n => negb (n =? 0)
  | VStr s => negb (String.eqb s "")
  | VArr _ | VObj _ => true
  end.

(** [a || b]. *)
Definition or (a b : value) : value := if truthy a then a else b.

(** Own property lookup in a property list. *)
Fixpoint lookup_prop (k : string) (props : list (string * value)) : option value :=
  match props with
  | [] => None
  | (k', v) :: rest => if String.eqb k k' then Some v else lookup_prop k rest
  end.

(** [o.k] for an object literal's property list: absent is [undefined]. *)
Definition field (props : list (string * value)) (k : string) : value :=
  match lookup_prop k props with
  | Some v => v
  | None => VUndefined
  end.

(** [v.k]: reading a property of [undefined] or [null] throws a
    [TypeError]; a primitive or an array has none of the data properties
    this code reads ([t], [d], [data]), so the read gives [undefined]. *)
Definition get (v : value) (k : string) : result value :=
  match v with
  | VUndefined | VNull => Throw (TypeError "Cannot read properties of null or undefined")
  | VObj props => Ok (field props k)
  | _ => Ok VUndefined
  end.

(** The rest of an object pattern [{ k, ...rest }]. *)
Fixpoint without (k : string) (props : list (string * value)) : list (string * value) :=
  match props with
  | [] => []
  | (k', v) :: rest =>
      if String.eqb k k' then without k rest else (k', v) :: without k rest
  end.

(** A promise of the runtime; [resolve] and [reject] of a settled
    promise do nothing. *)
Inductive PromiseState : Type :=
| Pending
| Fulfilled (v : value)
| Rejected (e : JsError).

(** The values JSON represents: no [undefined] anywhere, and the keys of
    an object pairwise distinct. *)
Fixpoint json_value (v : value) : Prop :=
  match v with
  | VUndefined => False
  | VNull | VBool _ | VNum _ | VStr _ => True
  | VArr items => (fix all (l : list value) : Prop :=
                     match l with
                     | [] => True
                     | x :: l' => json_value x /\ all l'
                     end) items
  | VObj props => NoDup (map fst props) /\
                  (fix all (l : list (string * value)) : Prop :=
                     match l with
                     | [] => True
                     | (_, x) :: l' => json_value x /\ all l'
                     end) props
  end.

End Js.

(* ===================================================================== *)
(** ** Frame codec: [class Protocol] *)
(* ===================================================================== *)

Module Codec.
Import Js.

(** [const ZAP_MAGIC = new Uint8Array([0x5a, 0x41, 0x50, 0x01])]. *)
Definition ZAP_MAGIC : list Z := [0x5a; 0x41; 0x50; 0x01].

(** [enum MessageType]. *)
Inductive MessageType : Type :=
| Handshake | HandshakeResponse | Request | Response | Stream | Ping | Pong.

Definition MessageType_code (t : MessageType) : Z :=
  match t with
  | Handshake => 1
  | HandshakeResponse => 2
  | Request => 3
  | Response => 4
  | Stream => 5
  | Ping => 6
  | Pong => 7
  end.

(** [ArrayBuffer | string]. *)
Inductive wire : Type :=
| Text (s : string)
| Binary (bytes : list Z).

(** [{ type, payload }] as [decode] returns it: the type is whatever the
    frame carries, the cast [as MessageType] checks nothing. *)
Record Frame : Type := mkFrame {
  type : value;
  payload : value
}.

(** [arr.set(src, offset)] on a typed array. *)
Fixpoint arr_set (src : list Z) (offset : nat) (arr : list Z) : list Z :=
  match src with
  | [] => arr
  | b :: src' => arr_set src' (S offset) (<[offset := b]> arr)
  end.

(** [view.setUint8(offset, n)]: the value is stored modulo 256. *)
Definition setUint8 (offset : nat) (n : Z) (arr : list Z) : list Z :=
  <[offset := n mod 256]> arr.

(** [view.getUint8(offset)]: out of bounds is a [RangeError]. *)
Definition getUint8 (offset : nat) (arr : list Z) : result Z :=
  match arr !! offset with
  | Some b => Ok b
  | None => Throw (RangeError "Offset is outside the bounds of the DataView")
  end.

(** The magic check of [decode]: [arr[i] !== ZAP_MAGIC[i]] for
    [i = 0..3]; a missing byte is [undefined] and differs. *)
Fixpoint magic_ok (i : nat) (n : nat) (arr : list Z) : bool :=
  match n with
  | O => true
  | S n' =>
      match arr !! i, ZAP_MAGIC !! i with
      | Some a, Some m => if a =? m then magic_ok (S i) n' arr else false
      | _, _ => false
      end
  end.

Section Platform.

(** [JSON.stringify(v)]: [None] is the result [undefined]. *)
Variable JSON_stringify : value -> option string.
(** [JSON.parse(s)]: [None] is a thrown [SyntaxError]. *)
Variable JSON_parse : string -> option value.
(** [new TextEncoder().encode(s)] and [new TextDecoder().decode(bytes)]. *)
Variable TextEncoder_encode : string -> list Z.
Variable TextDecoder_decode : list Z -> string.

Definition parse_json (s : string) : result value :=
  match JSON_parse s with
  | Some v => Ok v
  | None => Throw (SyntaxError "Unexpected token in JSON")
  end.

(** [Protocol.encode(type, data)] for a protocol constructed with
    [binary]. *)
Definition encode (binary : bool) (type : MessageType) (data : value) : wire :=
  if negb binary then
    (* an object literal always stringifies to a string *)
    Text (default "" (JSON_stringify
            (VObj [("t", VNum (MessageType_code type)); ("d", data)])))
  else
    (* [encode(undefined)] is the empty byte sequence *)
    let jsonBytes :=
      match JSON_stringify data with
      | Some json => TextEncoder_encode json
      | None => []
      end in
    let buffer := replicate (5 + length jsonBytes)%nat 0 in
    let arr := arr_set ZAP_MAGIC 0 buffer in
    let arr := setUint8 4 (MessageType_code type) arr in
    let arr := arr_set jsonBytes 5 arr in
    Binary arr.

(** [Protocol.decode(data)]; it does not read the [binary] flag. *)
Definition decode (data : wire) : result Frame :=
  match data with
  | Text s =>
      bind (parse_json s) (fun parsed =>
      bind (get parsed "t") (fun t =>
      bind (get parsed "d") (fun d =>
      Ok (mkFrame t d))))
  | Binary arr =>
      if negb (magic_ok 0 4 arr) then Throw (Error_new "Invalid ZAP message")
      else
        bind (getUint8 4 arr) (fun type =>
        let jsonBytes := drop 5 arr in
        let json := TextDecoder_decode jsonBytes in
        bind (parse_json json) (fun payload =>
        Ok (mkFrame (VNum type) payload)))
  end.

End Platform.

(** The specification's error taxonomy names a malformed frame a
    [ProtocolError]; the code has no class of that name and throws
    [Error('Invalid ZAP message')] for a magic mismatch and lets
    [JSON.parse]'s [SyntaxError] through for malformed text.  These two
    are the errors of that kind. *)
Definition is_protocol_error (e : JsError) : bool :=
  (String.eqb (err_name e) "Error" && String.eqb (err_message e) "Invalid ZAP message")
  || String.eqb (err_name e) "SyntaxError".

End Codec.

(* ===================================================================== *)
(** ** Endpoint session: [class ZapClient] *)
(* ===================================================================== *)

Module Session.
Import Js.

(** [type ConnectionState]. *)
Inductive ConnectionState : Type :=
| disconnected | connecting | connected | reconnecting.

Definition ConnectionState_eqb (a b : ConnectionState) : bool :=
  match a, b with
  | disconnected, disconnected | connecting, connecting
  | connected, connected | reconnecting, reconnecting => true
  | _, _ => false
  end.

(** [class ZapError]: the [code] parameter defaults to [-32603] when it
    is [undefined]; [ConnectionError] and [TimeoutError] fix the code. *)
Definition ZapError (message : string) (code : value) : JsError :=
  mkError "ZapError" message
          (match code with VUndefined => VNum (-32603) | _ => code end).
Definition ConnectionError (message : string) : JsError :=
  mkError "ConnectionError" message (VStr "CONNECTION_ERROR").
Definition TimeoutError (message : string) : JsError :=
  mkError "TimeoutError" message (VStr "TIMEOUT_ERROR").

(** [interface ZapResponse]: [result?] absent is [undefined]; [error?]
    absent is [None]. *)
Record ResponseError : Type := mkResponseError {
  code : value;
  message : string;
  data : option value
}.

Record ZapResponse : Type := mkResponse {
  id : string;
  result : value;
  error : option ResponseError
}.

(** [interface ZapRequest], [interface Handshake],
    [interface HandshakeResponse]. *)
Record ZapRequest : Type := mkRequest {
  req_id : string;
  req_method : string;
  req_params : value
}.

Record Handshake : Type := mkHandshake {
  hs_version : string;
  hs_clientType : Z;
  hs_clientId : string;
  hs_capabilities : list string
}.

Record HandshakeResponse : Type := mkHandshakeResponse {
  accepted : bool;
  hr_clientId : string;
  serverVersion : string;
  hr_capabilities : list string;
  hr_error : option string
}.

(** [interface ZapClientOptions] and [Required<ZapClientOptions>]; the
    constructor fills the absent fields ([??]). *)
Record ZapClientOptions : Type := mkClientOptions {
  opt_clientId : option string;
  opt_clientType : option Z;
  opt_capabilities : option (list string);
  opt_timeout : option Z;
  opt_autoReconnect : option bool;
  opt_reconnectInterval : option Z;
  opt_maxReconnectAttempts : option Z;
  opt_binary : option bool
}.

Record Options : Type := mkOptions {
  clientId : string;
  clientType : Z;
  capabilities : list string;
  timeout : Z;
  autoReconnect : bool;
  reconnectInterval : Z;
  maxReconnectAttempts : Z;
  binary : bool
}.

(** The body of the constructor; [generated] is [generateClientId()]. *)
Definition fill_options (generated : string) (o : ZapClientOptions) : Options :=
  mkOptions
    (default generated (opt_clientId o))
    (default 1 (opt_clientType o))
    (default ["tools"; "browser"; "mcp"] (opt_capabilities o))
    (default 30000 (opt_timeout o))
    (default true (opt_autoReconnect o))
    (default 1000 (opt_reconnectInterval o))
    (default 5 (opt_maxReconnectAttempts o))
    (default true (opt_binary o)).

Definition no_options : ZapClientOptions :=
  mkClientOptions None None None None None None None None.

(** An entry of [pendingRequests]: the two functions of the request's
    promise, each named by the promise it settles, and the timer. *)
Record PendingRequest : Type := mkPending {
  resolve : nat;
  reject : nat;
  pr_timeout : nat
}.

(** The frames a session sends, before [Protocol.encode]. *)
Inductive OutFrame : Type :=
| OutHandshake (h : Handshake)
| OutRequest (r : ZapRequest).

(** The frames a session receives, after [Protocol.decode] and the
    casts of [onmessage]; [MsgOther] is a frame of a type the handler
    has no branch for. *)
Inductive Incoming : Type :=
| MsgHandshakeResponse (r : HandshakeResponse)
| MsgResponse (r : ZapResponse)
| MsgStream (payload : value)
| MsgOther.

Inductive ReadyState : Type := CONNECTING | OPEN | CLOSING | CLOSED.

(** A [WebSocket] created by [connect]: its handlers close over the
    promise and the timer of that call. *)
Record WebSocket : Type := mkSocket {
  readyState : ReadyState;
  ws_url : string;
  sent : list OutFrame;
  ws_promise : nat;
  ws_timer : nat
}.

(** What a [setTimeout] callback of this class does when it fires. *)
Inductive TimerAction : Type :=
| ConnectTimeout (p : nat)
| RequestTimeout (id : string) (method : string) (p : nat)
| ReconnectTimer.

Record Timer : Type := mkTimer {
  deadline : Z;
  action : TimerAction
}.

(** The calls of [emit], in order. *)
Inductive Emitted : Type :=
| EvConnect (r : HandshakeResponse)
| EvDisconnect (wasConnected : bool)
| EvReconnect (attempts : Z)
| EvError (e : JsError)
| EvStream (payload : value).

(** The fields of the class, then the runtime around it: the sockets,
    promises and timers it created, the promises a reconnect timer body
    awaits, the events emitted, the clock, the next fresh handle. *)
Record ZapClient : Type := mkClient {
  ws : option nat;
  options : Options;
  state : ConnectionState;
  serverInfo : option HandshakeResponse;
  pendingRequests : gmap string PendingRequest;
  reconnectAttempts : Z;
  reconnectTimeout : option nat;
  url : option string;
  sockets : gmap nat WebSocket;
  promises : gmap nat PromiseState;
  timers : gmap nat Timer;
  reconnect_waiters : list nat;
  emitted : list Emitted;
  clock : Z;
  fresh : nat
}.

Definition set_ws (x : option nat) (c : ZapClient) : ZapClient :=
  mkClient x (options c) (state c) (serverInfo c) (pendingRequests c)
    (reconnectAttempts c) (reconnectTimeout c) (url c) (sockets c) (promises c)
    (timers c) (reconnect_waiters c) (emitted c) (clock c) (fresh c).
Definition set_state (x : ConnectionState) (c : ZapClient) : ZapClient :=
  mkClient (ws c) (options c) x (serverInfo c) (pendingRequests c)
    (reconnectAttempts c) (reconnectTimeout c) (url c) (sockets c) (promises c)
    (timers c) (reconnect_waiters c) (emitted c) (clock c) (fresh c).
Definition set_serverInfo (x : option HandshakeResponse) (c : ZapClient) : ZapClient :=
  mkClient (ws c) (options c) (state c) x (pendingRequests c)
    (reconnectAttempts c) (reconnectTimeout c) (url c) (sockets c) (promises c)
    (timers c) (reconnect_waiters c) (emitted c) (clock c) (fresh c).
Definition set_pendingRequests (x : gmap string PendingRequest) (c : ZapClient) : ZapClient :=
  mkClient (ws c) (options c) (state c) (serverInfo c) x (reconnectAttempts c)
    (reconnectTimeout c) (url c) (sockets c) (promises c) (timers c)
    (reconnect_waiters c) (emitted c) (clock c) (fresh c).
Definition set_reconnectAttempts (x : Z) (c : ZapClient) : ZapClient :=
  mkClient (ws c) (options c) (state c) (serverInfo c) (pendingRequests c) x
    (reconnectTimeout c) (url c) (sockets c) (promises c) (timers c)
    (reconnect_waiters c) (emitted c) (clock c) (fresh c).
Definition set_reconnectTimeout (x : option nat) (c : ZapClient) : ZapClient :=
  mkClient (ws c) (options c) (state c) (serverInfo c) (pendingRequests c)
    (reconnectAttempts c) x (url c) (sockets c) (promises c) (timers c)
    (reconnect_waiters c) (emitted c) (clock c) (fresh c).
Definition set_url (x : option string) (c : ZapClient) : ZapClient :=
  mkClient (ws c) (options c) (state c) (serverInfo c) (pendingRequests c)
    (reconnectAttempts c) (reconnectTimeout c) x (sockets c) (promises c)
    (timers c) (reconnect_waiters c) (emitted c) (clock c) (fresh c).
Definition set_sockets (x : gmap nat WebSocket) (c : ZapClient) : ZapClient :=
  mkClient (ws c) (options c) (state c) (serverInfo c) (pendingRequests c)
    (reconnectAttempts c) (reconnectTimeout c) (url c) x (promises c) (timers c)
    (reconnect_waiters c) (emitted c) (clock c) (fresh c).
Definition set_promises (x : gmap nat PromiseState) (c : ZapClient) : ZapClient :=
  mkClient (ws c) (options c) (state c) (serverInfo c) (pendingRequests c)
    (reconnectAttempts c) (reconnectTimeout c) (url c) (sockets c) x (timers c)
    (reconnect_waiters c) (emitted c) (clock c) (fresh c).
Definition set_timers (x : gmap nat Timer) (c : ZapClient) : ZapClient :=
  mkClient (ws c) (options c) (state c) (serverInfo c) (pendingRequests c)
    (reconnectAttempts c) (reconnectTimeout c) (url c) (sockets c) (promises c)
    x (reconnect_waiters c) (emitted c) (clock c) (fresh c).
Definition set_reconnect_waiters (x : list nat) (c : ZapClient) : ZapClient :=
  mkClient (ws c) (options c) (state c) (serverInfo c) (pendingRequests c)
    (reconnectAttempts c) (reconnectTimeout c) (url c) (sockets c) (promises c)
    (timers c) x (emitted c) (clock c) (fresh c).
Definition set_emitted (x : list Emitted) (c : ZapClient) : ZapClient :=
  mkClient (ws c) (options c) (state c) (serverInfo c) (pendingRequests c)
    (reconnectAttempts c) (reconnectTimeout c) (url c) (sockets c) (promises c)
    (timers c) (reconnect_waiters c) x (clock c) (fresh c).
Definition set_clock (x : Z) (c : ZapClient) : ZapClient :=
  mkClient (ws c) (options c) (state c) (serverInfo c) (pendingRequests c)
    (reconnectAttempts c) (reconnectTimeout c) (url c) (sockets c) (promises c)
    (timers c) (reconnect_waiters c) (emitted c) x (fresh c).
Definition set_fresh (x : nat) (c : ZapClient) : ZapClient :=
  mkClient (ws c) (options c) (state c) (serverInfo c) (pendingRequests c)
    (reconnectAttempts c) (reconnectTimeout c) (url c) (sockets c) (promises c)
    (timers c) (reconnect_waiters c) (emitted c) (clock c) x.

(** [new ZapClient(options)]. Handles start at 1: a timer id is truthy. *)
Definition new_client (generated : string) (o : ZapClientOptions) : ZapClient :=
  mkClient None (fill_options generated o) disconnected None ∅ 0 None None
           ∅ ∅ ∅ [] [] 0 1.

(** *** The runtime *)

Definition new_promise (c : ZapClient) : nat * ZapClient :=
  let p := fresh c in
  (p, set_fresh (S p) (set_promises (<[p := Pending]> (promises c)) c)).

Definition settle (p : nat) (o : PromiseState) (c : ZapClient) : ZapClient :=
  match promises c !! p with
  | Some Pending => set_promises (<[p := o]> (promises c)) c
  | _ => c
  end.

(** [setTimeout(f, delay)]: the callback runs no earlier than [delay]
    from now; a negative delay counts as zero. *)
Definition setTimeout (a : TimerAction) (delay : Z) (c : ZapClient) : nat * ZapClient :=
  let t := fresh c in
  (t, set_fresh (S t)
        (set_timers (<[t := mkTimer (clock c + Z.max 0 delay) a]> (timers c)) c)).

Definition clearTimeout (t : nat) (c : ZapClient) : ZapClient :=
  set_timers (delete t (timers c)) c.

(** [emit(event, data)]: the handlers are the caller's; the model keeps
    the call. *)
Definition emit (e : Emitted) (c : ZapClient) : ZapClient :=
  set_emitted (emitted c ++ [e]) c.

Definition set_readyState (r : ReadyState) (sock : WebSocket) : WebSocket :=
  mkSocket r (ws_url sock) (sent sock) (ws_promise sock) (ws_timer sock).

Definition is_open (r : ReadyState) : bool :=
  match r with OPEN => true | _ => false end.

(** *** The methods *)

(** [get isConnected]. *)
Definition isConnected (c : ZapClient) : bool :=
  ConnectionState_eqb (state c) connected &&
  match ws c with
  | Some s => match sockets c !! s with
              | Some sock => is_open (readyState sock)
              | None => false
              end
  | None => false
  end.

(** [private send(data)]. *)
Definition send (f : OutFrame) (c : ZapClient) : ZapClient :=
  match ws c with
  | Some s =>
      match sockets c !! s with
      | Some sock =>
          if is_open (readyState sock) then
            set_sockets (<[s := mkSocket (readyState sock) (ws_url sock)
                                  (sent sock ++ [f]) (ws_promise sock) (ws_timer sock)]>
                           (sockets c)) c
          else c
      | None => c
      end
  | None => c
  end.

(** [private handleResponse(response)]. *)
Definition handleResponse (response : ZapResponse) (c : ZapClient) : ZapClient :=
  match pendingRequests c !! id response with
  | None => c
  | Some pending =>
      let c := clearTimeout (pr_timeout pending) c in
      let c := set_pendingRequests (delete (id response) (pendingRequests c)) c in
      match error response with
      | Some e => settle (reject pending) (Rejected (ZapError (message e) (code e))) c
      | None => settle (resolve pending) (Fulfilled (result response)) c
      end
  end.

(** [private scheduleReconnect()]. *)
Definition scheduleReconnect (c : ZapClient) : ZapClient :=
  if maxReconnectAttempts (options c) <=? reconnectAttempts c then
    emit (EvError (ConnectionError "Max reconnect attempts reached")) c
  else
    let c := set_state reconnecting c in
    let c := set_reconnectAttempts (reconnectAttempts c + 1) c in
    let delay := reconnectInterval (options c) * 2 ^ (reconnectAttempts c - 1) in
    let (t, c) := setTimeout ReconnectTimer delay c in
    set_reconnectTimeout (Some t) c.

(** [async connect(url)].  [ctor] is the outcome of [new WebSocket(url)]:
    [None] when it returns, [Some e] when it throws [e].  The result is
    the promise the call returns. *)
Definition connect (u : string) (ctor : option string) (c : ZapClient) : nat * ZapClient :=
  let (p, c) := new_promise c in
  match state c with
  | connected | connecting =>
      (p, settle p (Rejected (ConnectionError "Already connected or connecting")) c)
  | _ =>
      let c := set_url (Some u) c in
      let c := set_state connecting c in
      let (t, c) := setTimeout (ConnectTimeout p) (timeout (options c)) c in
      match ctor with
      | None =>
          let s := fresh c in
          let c := set_fresh (S s) c in
          let c := set_sockets (<[s := mkSocket CONNECTING u [] p t]> (sockets c)) c in
          (p, set_ws (Some s) c)
      | Some e =>
          let c := clearTimeout t c in
          let c := set_state disconnected c in
          (p, settle p (Rejected (ConnectionError ("Failed to connect: " +:+ e))) c)
      end
  end.

(** [resolve()] of a [connect] promise, followed by the continuation of
    a reconnect timer body that awaits it:
    [this.emit('reconnect', { attempts: this.reconnectAttempts })]. *)
Definition resolve_connect (p : nat) (c : ZapClient) : ZapClient :=
  match promises c !! p with
  | Some Pending =>
      let c := set_promises (<[p := Fulfilled VUndefined]> (promises c)) c in
      if existsb (Nat.eqb p) (reconnect_waiters c)
      then emit (EvReconnect (reconnectAttempts c)) c
      else c
  | _ => c
  end.

(** [ws.onopen]. *)
Definition ws_onopen (c : ZapClient) : ZapClient :=
  send (OutHandshake (mkHandshake "1.0.0" (clientType (options c))
                        (clientId (options c)) (capabilities (options c)))) c.

(** [ws.onmessage] of the socket [sock], on a decoded frame. *)
Definition ws_onmessage (sock : WebSocket) (m : Incoming) (c : ZapClient) : ZapClient :=
  match m with
  | MsgHandshakeResponse response =>
      let c := clearTimeout (ws_timer sock) c in
      if accepted response then
        let c := set_serverInfo (Some response) c in
        let c := set_state connected c in
        let c := set_reconnectAttempts 0 c in
        let c := emit (EvConnect response) c in
        resolve_connect (ws_promise sock) c
      else
        let c := set_state disconnected c in
        settle (ws_promise sock)
               (Rejected (ConnectionError (default "Connection rejected" (hr_error response)))) c
  | MsgResponse r => handleResponse r c
  | MsgStream payload => emit (EvStream payload) c
  | MsgOther => c
  end.

(** [ws.onerror]. *)
Definition ws_onerror (sock : WebSocket) (c : ZapClient) : ZapClient :=
  let c := clearTimeout (ws_timer sock) c in
  let c := emit (EvError (ConnectionError "WebSocket error")) c in
  match state c with
  | connecting =>
      let c := set_state disconnected c in
      settle (ws_promise sock) (Rejected (ConnectionError "WebSocket error")) c
  | _ => c
  end.

(** [this.url] as a condition: a non-empty string. *)
Definition url_truthy (u : option string) : bool :=
  match u with
  | Some s => negb (String.eqb s "")
  | None => false
  end.

(** [ws.onclose]. *)
Definition ws_onclose (c : ZapClient) : ZapClient :=
  let wasConnected := ConnectionState_eqb (state c) connected in
  let c := set_state disconnected c in
  let c := emit (EvDisconnect wasConnected) c in
  if wasConnected && autoReconnect (options c) && url_truthy (url c)
  then scheduleReconnect c
  else c.

(** One turn of the loop of [close] over [pendingRequests]. *)
Definition reject_pending (e : JsError) (k : string) (pending : PendingRequest)
  (c : ZapClient) : ZapClient :=
  settle (reject pending) (Rejected e) (clearTimeout (pr_timeout pending) c).

(** [async close()]; [ws.close()] starts the closing handshake of a
    socket that is not closed yet. *)
Definition close (c : ZapClient) : ZapClient :=
  let c := match reconnectTimeout c with
           | Some t => set_reconnectTimeout None (clearTimeout t c)
           | None => c
           end in
  let c := match ws c with
           | Some s =>
               let c := match sockets c !! s with
                        | Some sock =>
                            match readyState sock with
                            | CLOSED => c
                            | _ => set_sockets (<[s := set_readyState CLOSING sock]> (sockets c)) c
                            end
                        | None => c
                        end in
               set_ws None c
           | None => c
           end in
  let c := map_fold (reject_pending (ConnectionError "Connection closed")) c
                    (pendingRequests c) in
  let c := set_pendingRequests ∅ c in
  set_state disconnected c.

(** [async request(method, params)]; [rid] is [generateId()].  The
    result is the promise the call returns. *)
Definition request (method : string) (params : value) (rid : string)
  (c : ZapClient) : nat * ZapClient :=
  let (p, c) := new_promise c in
  if negb (isConnected c) then
    (p, settle p (Rejected (ConnectionError "Not connected")) c)
  else
    let (t, c) := setTimeout (RequestTimeout rid method p) (timeout (options c)) c in
    let c := set_pendingRequests (<[rid := mkPending p p t]> (pendingRequests c)) c in
    (p, send (OutRequest (mkRequest rid method params)) c).

(** The callback of a timer. *)
Definition run_timer (a : TimerAction) (ctor : option string) (c : ZapClient) : ZapClient :=
  match a with
  | ConnectTimeout p =>
      let c := set_state disconnected c in
      settle p (Rejected (TimeoutError "Connection timeout")) c
  | RequestTimeout rid method p =>
      let c := set_pendingRequests (delete rid (pendingRequests c)) c in
      settle p (Rejected (TimeoutError ("Request timeout: " +:+ method))) c
  | ReconnectTimer =>
      match url c with
      | Some u =>
          if url_truthy (Some u) then
            let (p, c) := connect u ctor c in
            set_reconnect_waiters (p :: reconnect_waiters c) c
          else c
      | None => c
      end
  end.

(** *** The event loop *)

Inductive Event : Type :=
| CallConnect (u : string) (ctor : option string)
| CallRequest (method : string) (params : value) (rid : string)
| CallClose
| SockOpen (s : nat)
| SockMessage (s : nat) (m : Incoming)
| SockError (s : nat)
| SockClose (s : nat)
| TimerFires (t : nat) (ctor : option string)
| Tick (dt : Z).

(** One task of the event loop; [None] when the platform cannot deliver
    the event: a socket opens once, receives while open and closes once,
    a timer fires once and not before its deadline, time does not run
    backwards. *)
Definition step (e : Event) (c : ZapClient) : option ZapClient :=
  match e with
  | CallConnect u ctor => Some (snd (connect u ctor c))
  | CallRequest method params rid => Some (snd (request method params rid c))
  | CallClose => Some (close c)
  | SockOpen s =>
      match sockets c !! s with
      | Some sock =>
          match readyState sock with
          | CONNECTING =>
              Some (ws_onopen (set_sockets (<[s := set_readyState OPEN sock]> (sockets c)) c))
          | _ => None
          end
      | None => None
      end
  | SockMessage s m =>
      match sockets c !! s with
      | Some sock => if is_open (readyState sock) then Some (ws_onmessage sock m c) else None
      | None => None
      end
  | SockError s =>
      match sockets c !! s with
      | Some sock =>
          match readyState sock with
          | CLOSED => None
          | _ => Some (ws_onerror sock c)
          end
      | None => None
      end
  | SockClose s =>
      match sockets c !! s with
      | Some sock =>
          match readyState sock with
          | CLOSED => None
          | _ => Some (ws_onclose (set_sockets (<[s := set_readyState CLOSED sock]> (sockets c)) c))
          end
      | None => None
      end
  | TimerFires t ctor =>
      match timers c !! t with
      | Some tm =>
          if deadline tm <=? clock c
          then Some (run_timer (action tm) ctor (clearTimeout t c))
          else None
      | None => None
      end
  | Tick dt => if 0 <=? dt then Some (set_clock (clock c + dt) c) else None
  end.

Fixpoint run (es : list Event) (c : ZapClient) : option ZapClient :=
  match es with
  | [] => Some c
  | e :: es' => match step e c with
                | Some c' => run es' c'
                | None => None
                end
  end.

(** The states a session reaches from its construction. *)
Inductive reachable : ZapClient -> Prop :=
| reach_new generated o : reachable (new_client generated o)
| reach_step e c c' : reachable c -> step e c = Some c' -> reachable c'.

End Session.

(* ===================================================================== *)
(** ** Event handlers: [on], [off] and [emit] of both classes *)
(* ===================================================================== *)

Module Emitter.
Import Js.

(** [eventHandlers: Map<string, Set<ZapEventHandler>>].  A handler is a
    function object, named by a handle; a [Set] is the list of its
    members in insertion order, a [Map] the list of its entries in
    insertion order. *)
Definition Handlers : Type := list (string * list nat).

Fixpoint get (event : string) (m : Handlers) : option (list nat) :=
  match m with
  | [] => None
  | (k, s) :: m' => if String.eqb event k then Some s else get event m'
  end.

(** [Map.prototype.set]: an existing key keeps its place. *)
Fixpoint set (event : string) (s : list nat) (m : Handlers) : Handlers :=
  match m with
  | [] => [(event, s)]
  | (k, s') :: m' =>
      if String.eqb event k then (k, s) :: m' else (k, s') :: set event s m'
  end.

(** [Set.prototype.add] and [Set.prototype.delete]. *)
Definition set_add (handler : nat) (s : list nat) : list nat :=
  if existsb (Nat.eqb handler) s then s else s ++ [handler].

Fixpoint set_delete (handler : nat) (s : list nat) : list nat :=
  match s with
  | [] => []
  | h :: s' => if Nat.eqb handler h then s' else h :: set_delete handler s'
  end.

(** [on(event, handler)]. *)
Definition on (event : string) (handler : nat) (m : Handlers) : Handlers :=
  let m := match get event m with
           | None => set event [] m
           | Some _ => m
           end in
  match get event m with
  | Some s => set event (set_add handler s) m
  | None => m
  end.

(** [off(event, handler)]. *)
Definition off (event : string) (handler : nat) (m : Handlers) : Handlers :=
  match get event m with
  | Some s => set event (set_delete handler s) m
  | None => m
  end.

(** What [emit] does, in order: the calls of handlers, and the
    [console.error] of each call that threw. *)
Inductive Effect : Type :=
| Called (handler : nat) (data : value)
| ConsoleError (e : JsError).

Section Handlers.

(** What calling a handler on a datum does: [None] when it returns,
    [Some e] when it throws [e]. *)
Variable call : nat -> value -> option JsError.

Definition invoke (data : value) (handler : nat) : list Effect :=
  Called handler data ::
  match call handler data with
  | Some e => [ConsoleError e]
  | None => []
  end.

(** [private emit(event, data)]. *)
Definition emit (event : string) (data : value) (m : Handlers) : list Effect :=
  match get event m with
  | Some s => flat_map (invoke data) s
  | None => []
  end.

End Handlers.

(** The registries a program builds: from the empty map, by [on] and
    [off]. *)
Inductive built : Handlers -> Prop :=
| built_new : built []
| built_on event handler m : built m -> built (on event handler m)
| built_off event handler m : built m -> built (off event handler m).

End Emitter.

(* ===================================================================== *)
(** ** Session manager: [class ZapExtensionClient] *)
(* ===================================================================== *)

Module Manager.
Import Js.

(** [interface ToolInfo], [interface McpInfo]. *)
Record ToolInfo : Type := mkToolInfo {
  tool_name : string;
  tool_description : option string;
  inputSchema : option string
}.

Record McpInfo : Type := mkInfo {
  info_id : string;
  info_name : string;
  info_url : string;
  info_connected : bool;
  tools : list ToolInfo
}.

(** [interface McpConnection].  The [ZapClient] of a connection is named
    by its handle; the session behind it is the model of [Session], seen
    here through the outcome of [connect] and [listTools] and through
    its [disconnect] and [reconnect] events. *)
Record McpConnection : Type := mkConnection {
  client : nat;
  info : McpInfo;
  connected : bool
}.

(** Events the manager emits, with the handle of the record passed. *)
Inductive Emitted : Type :=
| mcp_connect (h : nat)
| mcp_disconnect (h : nat)
| mcp_reconnect (h : nat).

(** The manager.  A connection object (with its [info] object) is
    shared by the map, by the handlers registered on its client and by
    the callers the [info] was returned to, so it lives in the store
    [objects] under the handle of its client, and [mcpConnections] (a
    [Map] in insertion order) holds handles.  [suspended] are the calls
    of [connectMcp] waiting at [await client.connect(url)] or at
    [await client.listTools()], by client handle, with their url. *)
Record ZapExtensionClient : Type := mkManager {
  mcpConnections : list (string * nat);
  objects : gmap nat McpConnection;
  suspended : gmap nat string;
  emitted : list Emitted;
  fresh : nat
}.

Definition new_manager : ZapExtensionClient := mkManager [] ∅ ∅ [] 1.

(** [Map.prototype.set]: an existing key keeps its place. *)
Fixpoint map_set (k : string) (h : nat) (m : list (string * nat)) : list (string * nat) :=
  match m with
  | [] => [(k, h)]
  | (k', h') :: m' =>
      if String.eqb k k' then (k, h) :: m' else (k', h') :: map_set k h m'
  end.

Fixpoint map_get (k : string) (m : list (string * nat)) : option nat :=
  match m with
  | [] => None
  | (k', h) :: m' => if String.eqb k k' then Some h else map_get k m'
  end.

Fixpoint map_delete (k : string) (m : list (string * nat)) : list (string * nat) :=
  match m with
  | [] => []
  | (k', h) :: m' => if String.eqb k k' then m' else (k', h) :: map_delete k m'
  end.

(** The test of [connectMcp]'s [find]: [c.info.url === url && c.connected]. *)
Definition connected_to (u : string) (objs : gmap nat McpConnection) (h : nat) : bool :=
  match objs !! h with
  | Some c => String.eqb (info_url (info c)) u && connected c
  | None => false
  end.

(** [Array.from(this.mcpConnections.values()).find(...)]. *)
Definition find_connected (u : string) (m : ZapExtensionClient) : option nat :=
  List.find (connected_to u (objects m)) (map snd (mcpConnections m)).

(** [get connectionCount], restricted to one url: the connected
    sessions the manager holds for it. *)
Definition connected_sessions (u : string) (m : ZapExtensionClient) : list nat :=
  List.filter (connected_to u (objects m)) (map snd (mcpConnections m)).

(** What a call of [connectMcp] has done when it first returns control:
    returned the [info] of an existing record, or created a client and
    suspended. *)
Inductive Started : Type :=
| Existing (h : nat)
| NewClient (h : nat).

(** [connectMcp(url)] up to its first [await]. *)
Definition connectMcp_start (u : string) (m : ZapExtensionClient)
  : Started * ZapExtensionClient :=
  match find_connected u m with
  | Some h => (Existing h, m)
  | None =>
      let h := fresh m in
      (NewClient h,
       mkManager (mcpConnections m) (objects m) (<[h := u]> (suspended m))
                 (emitted m) (S h))
  end.

(** The rest of [connectMcp] for the suspended call with client [h],
    once [connect] and [listTools] have succeeded: [new_id] is
    [generateClientId()], [ts] the mapped tool list.  The call returns
    the [info] of the record it stores. *)
Definition connectMcp_resume (h : nat) (ts : list ToolInfo) (new_id : string)
  (m : ZapExtensionClient) : option (nat * ZapExtensionClient) :=
  match suspended m !! h with
  | None => None
  | Some u =>
      let i := mkInfo new_id ("MCP@" +:+ u) u true ts in
      let connection := mkConnection h i true in
      Some (h,
            mkManager (map_set new_id h (mcpConnections m))
                      (<[h := connection]> (objects m))
                      (delete h (suspended m))
                      (emitted m ++ [mcp_connect h])
                      (fresh m))
  end.

(** The [catch] of [connectMcp]: the call throws a [ConnectionError]
    naming the url and stores nothing. *)
Definition connectMcp_fail (h : nat) (e : string) (m : ZapExtensionClient)
  : option (JsError * ZapExtensionClient) :=
  match suspended m !! h with
  | None => None
  | Some u =>
      Some (Session.ConnectionError ("Failed to connect to MCP at " +:+ u +:+ ": " +:+ e),
            mkManager (mcpConnections m) (objects m) (delete h (suspended m))
                      (emitted m) (fresh m))
  end.

Definition set_connected (b : bool) (c : McpConnection) : McpConnection :=
  mkConnection (client c)
    (mkInfo (info_id (info c)) (info_name (info c)) (info_url (info c)) b (tools (info c)))
    b.

(** The handlers [connectMcp] registers on its client. *)
Definition on_disconnect (h : nat) (m : ZapExtensionClient) : ZapExtensionClient :=
  match objects m !! h with
  | Some c =>
      mkManager (mcpConnections m) (<[h := set_connected false c]> (objects m))
                (suspended m) (emitted m ++ [mcp_disconnect h]) (fresh m)
  | None => m
  end.

Definition on_reconnect (h : nat) (m : ZapExtensionClient) : ZapExtensionClient :=
  match objects m !! h with
  | Some c =>
      mkManager (mcpConnections m) (<[h := set_connected true c]> (objects m))
                (suspended m) (emitted m ++ [mcp_reconnect h]) (fresh m)
  | None => m
  end.

(** [disconnectMcp(mcpId)]; closing the client is the session's
    [close]. *)
Definition disconnectMcp (mcpId : string) (m : ZapExtensionClient) : ZapExtensionClient :=
  match map_get mcpId (mcpConnections m) with
  | None => m
  | Some h =>
      match objects m !! h with
      | Some c =>
          mkManager (map_delete mcpId (mcpConnections m))
                    (<[h := set_connected false c]> (objects m))
                    (suspended m) (emitted m ++ [mcp_disconnect h]) (fresh m)
      | None => m
      end
  end.

(** [Array.from(this.mcpConnections.values())]. *)
Definition values (m : ZapExtensionClient) : list McpConnection :=
  omap (fun kh => objects m !! snd kh) (mcpConnections m).

(** [get mcps] and [get connectionCount]. *)
Definition mcps (m : ZapExtensionClient) : list McpInfo :=
  map info (List.filter connected (values m)).

Definition connectionCount (m : ZapExtensionClient) : nat :=
  length (List.filter connected (values m)).

(** [connection.info.tools.some((t) => t.name === name)]. *)
Definition has_tool (name : string) (c : McpConnection) : bool :=
  existsb (fun t => String.eqb (tool_name t) name) (tools (info c)).

(** [mcpId] as a condition: given, and not the empty string. *)
Definition mcpId_truthy (mcpId : option string) : bool :=
  match mcpId with
  | Some i => negb (String.eqb i "")
  | None => false
  end.

(** [callTool(name, args, mcpId?)] up to the call it forwards: the
    client whose [callTool(name, args)] it returns, or the error it
    throws. *)
Definition callTool (name : string) (mcpId : option string) (m : ZapExtensionClient)
  : result nat :=
  if mcpId_truthy mcpId then
    let i := default "" mcpId in
    match map_get i (mcpConnections m) ≫= (fun h => objects m !! h) with
    | Some c =>
        if connected c then Ok (client c)
        else Throw (Session.ZapError ("MCP not connected: " +:+ i) VUndefined)
    | None => Throw (Session.ZapError ("MCP not connected: " +:+ i) VUndefined)
    end
  else
    match List.find (fun c => connected c && has_tool name c) (values m) with
    | Some c => Ok (client c)
    | None =>
        Throw (Session.ZapError ("Tool not found on any connected MCP: " +:+ name) VUndefined)
    end.

(** The loop body of [getTools] over the tools of one connection, on
    the [Map<string, ToolInfo>] it fills. *)
Fixpoint tools_add (ts : list ToolInfo) (acc : list (string * ToolInfo))
  : list (string * ToolInfo) :=
  match ts with
  | [] => acc
  | t :: ts' =>
      tools_add ts'
        (if existsb (fun e => String.eqb (fst e) (tool_name t)) acc then acc
         else acc ++ [(tool_name t, t)])
  end.

(** [getTools()]. *)
Definition getTools (m : ZapExtensionClient) : list ToolInfo :=
  map snd
    (fold_left (fun acc c => if connected c then tools_add (tools (info c)) acc else acc)
               (values m) []).

(** [disconnectMcp] after its [await connection.client.close()], for
    the connection [h] it looked up under [mcpId]. *)
Definition disconnectMcp_resume (mcpId : string) (h : nat) (m : ZapExtensionClient)
  : ZapExtensionClient :=
  match objects m !! h with
  | Some c =>
      mkManager (map_delete mcpId (mcpConnections m))
                (<[h := set_connected false c]> (objects m))
                (suspended m) (emitted m ++ [mcp_disconnect h]) (fresh m)
  | None => m
  end.

(** [disconnectAll()]: every call of [disconnectMcp] looks its
    connection up and closes its client before the first of them
    resumes. *)
Definition disconnectAll (m : ZapExtensionClient) : ZapExtensionClient :=
  let started :=
    omap (fun k => match map_get k (mcpConnections m) with
                   | Some h => Some (k, h)
                   | None => None
                   end)
         (map fst (mcpConnections m)) in
  fold_left (fun m kh => disconnectMcp_resume (fst kh) (snd kh) m) started m.

(** The tasks of the event loop that touch the manager, and what each
    call gave back to its caller. *)
Inductive Event : Type :=
| Call_connectMcp (u : string)
| Connected_and_listed (h : nat) (ts : list ToolInfo) (new_id : string)
| Connect_failed (h : nat) (e : string)
| Client_disconnect (h : nat)
| Client_reconnect (h : nat)
| Call_disconnectMcp (mcpId : string).

Inductive Observed : Type :=
| Returned (h : nat)
| Awaiting (h : nat)
| Thrown (e : JsError)
| Silent.

Definition step (e : Event) (m : ZapExtensionClient) : option (Observed * ZapExtensionClient) :=
  match e with
  | Call_connectMcp u =>
      match connectMcp_start u m with
      | (Existing h, m') => Some (Returned h, m')
      | (NewClient h, m') => Some (Awaiting h, m')
      end
  | Connected_and_listed h ts new_id =>
      match connectMcp_resume h ts new_id m with
      | Some (h', m') => Some (Returned h', m')
      | None => None
      end
  | Connect_failed h e =>
      match connectMcp_fail h e m with
      | Some (err, m') => Some (Thrown err, m')
      | None => None
      end
  | Client_disconnect h => Some (Silent, on_disconnect h m)
  | Client_reconnect h => Some (Silent, on_reconnect h m)
  | Call_disconnectMcp mcpId => Some (Silent, disconnectMcp mcpId m)
  end.

Fixpoint run (es : list Event) (m : ZapExtensionClient)
  : option (list Observed * ZapExtensionClient) :=
  match es with
  | [] => Some ([], m)
  | e :: es' =>
      match step e m with
      | Some (o, m') =>
          match run es' m' with
          | Some (os, m'') => Some (o :: os, m'')
          | None => None
          end
      | None => None
      end
  end.

End Manager.

(* ===================================================================== *)
(** ** Command router: [class CDPBridgeServer] *)
(* ===================================================================== *)

Module Router.
Import Js.

(** [interface CDPClient]; a [WebSocket] is named by its handle. *)
Record CDPClient : Type := mkCDPClient {
  cl_ws : nat;
  cl_capabilities : list string
}.

(** An entry of [pendingCommands]: the two functions of the command's
    promise, each named by the promise it settles. *)
Record PendingCommand : Type := mkPendingCommand {
  resolve : nat;
  reject : nat
}.

(** The object [{ id, method, params }] that [sendRaw] stringifies and
    sends. *)
Record Command : Type := mkCommand {
  cmd_id : Z;
  cmd_method : value;
  cmd_params : value
}.

(** The messages of an extension, after [JSON.parse]: a registration, a
    reply to a command (with [error.message] when it carries an error),
    an event, anything else. *)
Inductive Message : Type :=
| MsgRegister (capabilities : option (list string))
| MsgReply (id : Z) (error : option string) (result : value)
| MsgEvent (method : string)
| MsgOther.

(** What a [setTimeout] callback of this class does when it fires. *)
Inductive TimerAction : Type :=
| CommandTimeout (id : Z) (p : nat)
| WaitDone (q : nat) (waited : value).

Record Timer : Type := mkTimer {
  deadline : Z;
  action : TimerAction
}.

(** The [path] argument of [fs.writeFileSync], as [fs] takes it: the
    name of a file, or an open file descriptor. *)
Inductive Path : Type :=
| Named (f : string)
| Descriptor (fd : Z).

#[global] Instance Path_eq_dec : EqDecision Path.
Proof. solve_decision. Defined.

#[global] Instance Path_countable : Countable Path.
Proof.
  refine (inj_countable'
            (fun p => match p with Named f => inl f | Descriptor fd => inr fd end)
            (fun x => match x with inl f => Named f | inr fd => Descriptor fd end) _).
  by intros [].
Defined.

(** A call of [browser] suspended at [await this.sendRaw(...)] in the
    screenshot case: the rest of the command, and the promise the call
    returned. *)
Inductive Continuation : Type :=
| KScreenshot (rest : list (string * value)) (q : nat).

(** The fields of the class, then the runtime around it: the messages
    sent, the promises, the suspended calls by the promise they await,
    the timers, what has been written to the file system (the content
    of a named file, the bytes sent through a descriptor), the clock,
    the next fresh handle. *)
Record CDPBridgeServer : Type := mkServer {
  clients : list (nat * CDPClient);
  pendingCommands : gmap Z PendingCommand;
  commandId : Z;
  httpPort : Z;
  outbox : list (nat * Command);
  promises : gmap nat PromiseState;
  suspended : gmap nat Continuation;
  timers : gmap nat Timer;
  files : gmap Path (list Z);
  clock : Z;
  fresh : nat
}.

Definition set_clients (x : list (nat * CDPClient)) (s : CDPBridgeServer) : CDPBridgeServer :=
  mkServer x (pendingCommands s) (commandId s) (httpPort s) (outbox s)
    (promises s) (suspended s) (timers s) (files s) (clock s) (fresh s).
Definition set_pendingCommands (x : gmap Z PendingCommand) (s : CDPBridgeServer) : CDPBridgeServer :=
  mkServer (clients s) x (commandId s) (httpPort s) (outbox s) (promises s)
    (suspended s) (timers s) (files s) (clock s) (fresh s).
Definition set_commandId (x : Z) (s : CDPBridgeServer) : CDPBridgeServer :=
  mkServer (clients s) (pendingCommands s) x (httpPort s) (outbox s) (promises
    s) (suspended s) (timers s) (files s) (clock s) (fresh s).
Definition set_outbox (x : list (nat * Command)) (s : CDPBridgeServer) : CDPBridgeServer :=
  mkServer (clients s) (pendingCommands s) (commandId s) (httpPort s) x
    (promises s) (suspended s) (timers s) (files s) (clock s) (fresh s).
Definition set_promises (x : gmap nat PromiseState) (s : CDPBridgeServer) : CDPBridgeServer :=
  mkServer (clients s) (pendingCommands s) (commandId s) (httpPort s) (outbox
    s) x (suspended s) (timers s) (files s) (clock s) (fresh s).
Definition set_suspended (x : gmap nat Continuation) (s : CDPBridgeServer) : CDPBridgeServer :=
  mkServer (clients s) (pendingCommands s) (commandId s) (httpPort s) (outbox
    s) (promises s) x (timers s) (files s) (clock s) (fresh s).
Definition set_timers (x : gmap nat Timer) (s : CDPBridgeServer) : CDPBridgeServer :=
  mkServer (clients s) (pendingCommands s) (commandId s) (httpPort s) (outbox
    s) (promises s) (suspended s) x (files s) (clock s) (fresh s).
Definition set_files (x : gmap Path (list Z)) (s : CDPBridgeServer) : CDPBridgeServer :=
  mkServer (clients s) (pendingCommands s) (commandId s) (httpPort s) (outbox
    s) (promises s) (suspended s) (timers s) x (clock s) (fresh s).
Definition set_clock (x : Z) (s : CDPBridgeServer) : CDPBridgeServer :=
  mkServer (clients s) (pendingCommands s) (commandId s) (httpPort s) (outbox
    s) (promises s) (suspended s) (timers s) (files s) x (fresh s).
Definition set_fresh (x : nat) (s : CDPBridgeServer) : CDPBridgeServer :=
  mkServer (clients s) (pendingCommands s) (commandId s) (httpPort s) (outbox
    s) (promises s) (suspended s) (timers s) (files s) (clock s) x.

(** [new CDPBridgeServer(port)]. *)
Definition new_server (port : Z) : CDPBridgeServer :=
  mkServer [] ∅ 0 port [] ∅ ∅ ∅ ∅ 0 1.

Definition new_promise (s : CDPBridgeServer) : nat * CDPBridgeServer :=
  let p := fresh s in
  (p, set_fresh (S p) (set_promises (<[p := Pending]> (promises s)) s)).

(** The delay of a timer of Node: a [delay] that is not a number from 1
    to 2^31-1 is set to 1; [None] is [NaN]. *)
Definition timer_delay (delay : option Z) : Z :=
  match delay with
  | Some d => if (1 <=? d) && (d <=? 2147483647) then d else 1
  | None => 1
  end.

(** [setTimeout(f, delay)]: the callback runs no earlier than the delay
    from now. *)
Definition setTimeout (a : TimerAction) (delay : option Z) (s : CDPBridgeServer)
  : CDPBridgeServer :=
  let t := fresh s in
  set_fresh (S t) (set_timers (<[t := mkTimer (clock s + timer_delay delay) a]> (timers s)) s).

(** [Map.prototype.set] on [clients]: an existing key keeps its place. *)
Fixpoint clients_set (w : nat) (c : CDPClient) (m : list (nat * CDPClient))
  : list (nat * CDPClient) :=
  match m with
  | [] => [(w, c)]
  | (w', c') :: m' =>
      if Nat.eqb w w' then (w, c) :: m' else (w', c') :: clients_set w c m'
  end.

(** What the server takes from Node and from the language:
    - [base64_decode s] is [Buffer.from(s, 'base64')] on a string;
    - [Buffer_from_object v] is [Buffer.from(v)] on an array or an
      object: its bytes, or the error thrown;
    - [fs_error path data] is the error [fs.writeFileSync(path, data)]
      throws, [None] when the write is made (a directory, a missing
      directory, a file without permission and a descriptor that is not
      open are refused);
    - [StringToNumber s] is the number a string is converted to, [None]
      for [NaN];
    - [ToNumber_object v] is the conversion of an array or an object to
      a number ([ToPrimitive], then the conversion of the string):
      [None] for [NaN], or the [TypeError] thrown. *)
Record Platform : Type := mkPlatform {
  base64_decode : string -> list Z;
  Buffer_from_object : value -> result (list Z);
  fs_error : Path -> list Z -> option JsError;
  StringToNumber : string -> option Z;
  ToNumber_object : value -> result (option Z)
}.

(** The [TypeError] of Node for an argument of a wrong type. *)
Definition invalid_arg_type (msg : string) : JsError :=
  mkError "TypeError" msg (VStr "ERR_INVALID_ARG_TYPE").

Section Platform.

Variable platform : Platform.

(** [Buffer.from(data, 'base64')]: a string is decoded; [undefined],
    [null], a boolean or a number is a [TypeError]. *)
Definition Buffer_from (data : value) : result (list Z) :=
  match data with
  | VStr b64 => Ok (base64_decode platform b64)
  | VArr _ | VObj _ => Buffer_from_object platform data
  | VUndefined | VNull | VBool _ | VNum _ =>
      Throw (invalid_arg_type "The first argument must be of type string or an instance of Buffer, ArrayBuffer, or Array or an Array-like Object.")
  end.

(** [fs.writeFileSync(path, buffer)]: a string names the file, which
    then holds [buffer]; a number is a file descriptor, through which
    [buffer] is written after what was written before; any other value
    (no [Buffer], no [URL]) is a [TypeError].  The write is made unless
    the file system refuses it. *)
Definition writeFileSync (path : value) (buffer : list Z) (s : CDPBridgeServer)
  : result CDPBridgeServer :=
  match path with
  | VStr f =>
      match fs_error platform (Named f) buffer with
      | Some e => Throw e
      | None => Ok (set_files (<[Named f := buffer]> (files s)) s)
      end
  | VNum fd =>
      match fs_error platform (Descriptor fd) buffer with
      | Some e => Throw e
      | None =>
          Ok (set_files (<[Descriptor fd := default [] (files s !! Descriptor fd) ++ buffer]>
                           (files s)) s)
      end
  | _ =>
      Throw (invalid_arg_type "The path argument must be of type string or an instance of Buffer or URL.")
  end.

(** [ToNumber(v)], as the operator [*] applies it; [None] is [NaN]. *)
Definition ToNumber (v : value) : result (option Z) :=
  match v with
  | VUndefined => Ok None
  | VNull => Ok (Some 0)
  | VBool b => Ok (Some (if b then 1 else 0))
  | VNum n => Ok (Some n)
  | VStr s => Ok (StringToNumber platform s)
  | VArr _ | VObj _ => ToNumber_object platform v
  end.

(** The screenshot case of [browser] after its [await]: what the call
    does with the result [screenshot] of the underlying call. *)
Definition after_screenshot (rest : list (string * value)) (screenshot : value)
  (s : CDPBridgeServer) : result value * CDPBridgeServer :=
  if truthy (field rest "filename") then
    match get screenshot "data" with
    | Throw e => (Throw e, s)
    | Ok data =>
        if truthy data then
          match Buffer_from data with
          | Throw e => (Throw e, s)
          | Ok buffer =>
              match writeFileSync (field rest "filename") buffer s with
              | Throw e => (Throw e, s)
              | Ok s' =>
                  (Ok (VObj [("saved", field rest "filename");
                             ("bytes", VNum (Z.of_nat (length buffer)))]), s')
              end
          end
        else (Ok screenshot, s)
    end
  else (Ok screenshot, s).

(** Settling a promise, then the continuation of the call that awaits
    it: a rejection of the awaited promise rejects the call. *)
Definition settle (p : nat) (o : PromiseState) (s : CDPBridgeServer) : CDPBridgeServer :=
  match promises s !! p with
  | Some Pending =>
      let s := set_promises (<[p := o]> (promises s)) s in
      match suspended s !! p with
      | Some (KScreenshot rest q) =>
          let s := set_suspended (delete p (suspended s)) s in
          match o with
          | Fulfilled screenshot =>
              match after_screenshot rest screenshot s with
              | (Ok v, s') => set_promises (<[q := Fulfilled v]> (promises s')) s'
              | (Throw e, s') => set_promises (<[q := Rejected e]> (promises s')) s'
              end
          | Rejected e => set_promises (<[q := Rejected e]> (promises s)) s
          | Pending => s
          end
      | None => s
      end
  | _ => s
  end.

(** [private handleMessage(ws, message)]. *)
Definition handleMessage (w : nat) (m : Message) (s : CDPBridgeServer) : CDPBridgeServer :=
  match m with
  | MsgRegister capabilities =>
      set_clients (clients_set w (mkCDPClient w (default [] capabilities)) (clients s)) s
  | MsgReply id error result =>
      match pendingCommands s !! id with
      | Some pending =>
          let s := match error with
                   | Some message => settle (reject pending) (Rejected (Error_new message)) s
                   | None => settle (resolve pending) (Fulfilled result) s
                   end in
          set_pendingCommands (delete id (pendingCommands s)) s
      | None => s
      end
  | MsgEvent _ => s
  | MsgOther => s
  end.

(** [private async sendRaw(method, params?)]; the result is the promise
    the call returns. *)
Definition sendRaw (method : value) (params : value) (s : CDPBridgeServer)
  : nat * CDPBridgeServer :=
  let (p, s) := new_promise s in
  match clients s with
  | [] => (p, settle p (Rejected (Error_new "No browser extension connected")) s)
  | (_, client) :: _ =>
      let id := commandId s + 1 in
      let s := set_commandId id s in
      let s := set_pendingCommands (<[id := mkPendingCommand p p]> (pendingCommands s)) s in
      let s := set_outbox (outbox s ++ [(cl_ws client, mkCommand id method params)]) s in
      (p, setTimeout (CommandTimeout id p) (Some 30000) s)
  end.

(** The labels of [browser]'s [switch]. *)
Definition translation_table : list string :=
  ["navigate"; "navigate_back"; "go_back"; "navigate_forward"; "go_forward";
   "reload"; "url"; "title"; "content"; "screenshot"; "snapshot"; "click";
   "dblclick"; "double_click"; "hover"; "type"; "fill"; "clear"; "press_key";
   "press"; "select_option"; "check"; "uncheck"; "evaluate"; "wait";
   "wait_for_load"; "tabs"; "list_tabs"; "new_tab"; "close_tab"; "select_tab";
   "console_messages"; "console"; "network_requests"; "status"].

(** [case l1: case l2: ...] *)
Definition one_of (a : string) (labels : list string) : bool :=
  existsb (String.eqb a) labels.

Definition evaluate_of (expression : string) : value :=
  VObj [("expression", VStr expression); ("returnByValue", VBool true)].

Definition selector_of (rest : list (string * value)) : value :=
  or (field rest "selector") (field rest "ref").

(** [n * 1000] on a number; [NaN] stays [NaN]. *)
Definition times_1000 (n : option Z) : option Z :=
  match n with
  | Some k => Some (k * 1000)
  | None => None
  end.

(** [async browser(params)]; the result is the promise the call
    returns.  A case that is [return this.sendRaw(...)] returns the
    promise of [sendRaw].  In the wait case the delay
    [(rest.timeout || 1) * 1000] is computed in the executor of the
    awaited promise: a conversion that throws rejects the call, and no
    timer is set. *)
Definition browser (params : list (string * value)) (s : CDPBridgeServer)
  : nat * CDPBridgeServer :=
  let action := field params "action" in
  let rest := without "action" params in
  let call (method : string) (ps : value) := sendRaw (VStr method) ps s in
  match action with
  | VStr a =>
      if one_of a ["navigate"] then
        call "Page.navigate" (VObj [("url", field rest "url")])
      else if one_of a ["navigate_back"; "go_back"] then
        call "Page.goBack" VUndefined
      else if one_of a ["navigate_forward"; "go_forward"] then
        call "Page.goForward" VUndefined
      else if one_of a ["reload"] then
        call "Page.reload" VUndefined
      else if one_of a ["url"] then
        call "Runtime.evaluate" (evaluate_of "window.location.href")
      else if one_of a ["title"] then
        call "Runtime.evaluate" (evaluate_of "document.title")
      else if one_of a ["content"] then
        call "Runtime.evaluate" (evaluate_of "document.documentElement.outerHTML")
      else if one_of a ["screenshot"] then
        let (p, s) := call "hanzo.screenshot"
                        (VObj [("format", or (field rest "format") (VStr "png"));
                               ("fullPage", field rest "fullPage")]) in
        match promises s !! p with
        | Some (Rejected e) => (p, s)
        | _ =>
            let (q, s) := new_promise s in
            (q, set_suspended (<[p := KScreenshot rest q]> (suspended s)) s)
        end
      else if one_of a ["snapshot"] then
        call "Accessibility.getFullAXTree" VUndefined
      else if one_of a ["click"] then
        call "hanzo.click" (VObj [("selector", selector_of rest)])
      else if one_of a ["dblclick"; "double_click"] then
        call "hanzo.dblclick" (VObj [("selector", selector_of rest)])
      else if one_of a ["hover"] then
        call "hanzo.hover" (VObj [("selector", selector_of rest)])
      else if one_of a ["type"] then
        call "hanzo.type" (VObj [("selector", selector_of rest);
                                 ("text", field rest "text")])
      else if one_of a ["fill"] then
        call "hanzo.fill" (VObj [("selector", selector_of rest);
                                 ("value", or (field rest "value") (field rest "text"))])
      else if one_of a ["clear"] then
        call "hanzo.clear" (VObj [("selector", selector_of rest)])
      else if one_of a ["press_key"; "press"] then
        call "Input.dispatchKeyEvent" (VObj [("type", VStr "keyDown");
                                             ("key", field rest "key")])
      else if one_of a ["select_option"] then
        call "hanzo.select" (VObj [("selector", selector_of rest);
                                   ("value", field rest "value")])
      else if one_of a ["check"] then
        call "hanzo.check" (VObj [("selector", selector_of rest)])
      else if one_of a ["uncheck"] then
        call "hanzo.uncheck" (VObj [("selector", selector_of rest)])
      else if one_of a ["evaluate"] then
        call "Runtime.evaluate"
             (VObj [("expression",
                     or (or (field rest "code") (field rest "function"))
                        (field rest "expression"));
                    ("returnByValue", VBool true)])
      else if one_of a ["wait"] then
        let waited := or (field rest "timeout") (VNum 1) in
        let (q, s) := new_promise s in
        match ToNumber waited with
        | Ok n =>
            (q, setTimeout (WaitDone q (VObj [("waited", waited)])) (times_1000 n) s)
        | Throw e => (q, settle q (Rejected e) s)
        end
      else if one_of a ["wait_for_load"] then
        call "Page.waitForLoadState"
             (VObj [("state", or (field rest "state") (VStr "load"))])
      else if one_of a ["tabs"; "list_tabs"] then
        call "Target.getTargets" VUndefined
      else if one_of a ["new_tab"] then
        call "Target.createTarget"
             (VObj [("url", or (field rest "url") (VStr "about:blank"))])
      else if one_of a ["close_tab"] then
        call "Target.closeTarget" (VObj [("targetId", field rest "tabId")])
      else if one_of a ["select_tab"] then
        call "Target.activateTarget" (VObj [("targetId", field rest "tabId")])
      else if one_of a ["console_messages"; "console"] then
        call "Console.getMessages" VUndefined
      else if one_of a ["network_requests"] then
        call "Network.getResponseBodies" VUndefined
      else if one_of a ["status"] then
        let (q, s) := new_promise s in
        (q, settle q (Fulfilled
               (VObj [("connected", VBool (0 <? Z.of_nat (length (clients s))));
                      ("clients", VNum (Z.of_nat (length (clients s))));
                      ("port", VNum (httpPort s))])) s)
      else
        sendRaw action (VObj rest) s
  | _ => sendRaw action (VObj rest) s
  end.

(** [isConnected()]. *)
Definition isConnected (s : CDPBridgeServer) : bool :=
  (0 <? length (clients s))%nat.

(** The callback of a timer. *)
Definition run_timer (a : TimerAction) (s : CDPBridgeServer) : CDPBridgeServer :=
  match a with
  | CommandTimeout id p =>
      match pendingCommands s !! id with
      | Some _ =>
          let s := set_pendingCommands (delete id (pendingCommands s)) s in
          settle p (Rejected (Error_new "Command timeout")) s
      | None => s
      end
  | WaitDone q waited => settle q (Fulfilled waited) s
  end.

(** *** The event loop *)

Inductive Event : Type :=
| CallBrowser (params : list (string * value))
| Receive (w : nat) (m : Message)
| SocketClosed (w : nat)
| TimerFires (t : nat)
| Tick (dt : Z).

Definition step (e : Event) (s : CDPBridgeServer) : option CDPBridgeServer :=
  match e with
  | CallBrowser params => Some (snd (browser params s))
  | Receive w m => Some (handleMessage w m s)
  | SocketClosed w =>
      Some (set_clients (List.filter (fun c => negb (Nat.eqb (fst c) w)) (clients s)) s)
  | TimerFires t =>
      match timers s !! t with
      | Some tm =>
          if deadline tm <=? clock s
          then Some (run_timer (action tm) (set_timers (delete t (timers s)) s))
          else None
      | None => None
      end
  | Tick dt => if 0 <=? dt then Some (set_clock (clock s + dt) s) else None
  end.

Fixpoint run (es : list Event) (s : CDPBridgeServer) : option CDPBridgeServer :=
  match es with
  | [] => Some s
  | e :: es' => match step e s with
                | Some s' => run es' s'
                | None => None
                end
  end.

End Platform.

End Router.

(* ===================================================================== *)
(** ** A reference platform *)
(* ===================================================================== *)

(** A concrete [JSON.stringify], [JSON.parse], [TextEncoder],
    [TextDecoder] and base64 decoder over the values of [Js], for
    strings of code units below 256, with a conversion to numbers, a
    [Buffer.from] for arrays and objects and a small file system.  They
    instantiate the platform variables of [Codec] and the platform of
    [Router].  Numbers are integers: a fraction or an exponent is
    outside the model and [parse] rejects it, as it does a [\u] escape
    of a code unit above 255. *)
Module RefPlatform.
Import Js.

Definition code (c : ascii) : N := N_of_ascii c.
Definition chr (n : N) : ascii := ascii_of_N n.

Definition quote_char : ascii := chr 34.
Definition backslash : ascii := chr 92.

Definition is_ws (c : ascii) : bool :=
  (code c =? 32)%N || (code c =? 9)%N || (code c =? 10)%N || (code c =? 13)%N.

Definition is_digit (c : ascii) : bool :=
  (48 <=? code c)%N && (code c <=? 57)%N.

Fixpoint skip_ws (s : string) : string :=
  match s with
  | String c s' => if is_ws c then skip_ws s' else s
  | EmptyString => s
  end.

(** *** Strings *)

Definition hex_digit (n : N) : ascii :=
  if (n <? 10)%N then chr (48 + n) else chr (87 + n).

Definition hex_value (c : ascii) : option N :=
  let n := code c in
  if (48 <=? n)%N && (n <=? 57)%N then Some (n - 48)%N
  else if (97 <=? n)%N && (n <=? 102)%N then Some (n - 87)%N
  else if (65 <=? n)%N && (n <=? 70)%N then Some (n - 55)%N
  else None.

(** [QuoteJSONString] for one code unit. *)
Definition escape_char (c : ascii) : string :=
  let n := code c in
  if (n =? 34)%N then String backslash (String quote_char EmptyString)
  else if (n =? 92)%N then String backslash (String backslash EmptyString)
  else if (n =? 8)%N then String backslash "b"
  else if (n =? 9)%N then String backslash "t"
  else if (n =? 10)%N then String backslash "n"
  else if (n =? 12)%N then String backslash "f"
  else if (n =? 13)%N then String backslash "r"
  else if (n <? 32)%N then
    String backslash
      (String "u" (String "0" (String "0"
         (String (hex_digit (n / 16)) (String (hex_digit (n mod 16)) EmptyString)))))
  else String c EmptyString.

Fixpoint escape (s : string) : string :=
  match s with
  | EmptyString => EmptyString
  | String c s' => escape_char c +:+ escape s'
  end.

Definition quote (s : string) : string :=
  String quote_char (escape s +:+ String quote_char EmptyString).

Definition simple_escape (e : ascii) : option ascii :=
  let n := code e in
  if (n =? 34)%N then Some quote_char
  else if (n =? 92)%N then Some backslash
  else if (n =? 47)%N then Some (chr 47)
  else if (n =? 98)%N then Some (chr 8)
  else if (n =? 116)%N then Some (chr 9)
  else if (n =? 110)%N then Some (chr 10)
  else if (n =? 102)%N then Some (chr 12)
  else if (n =? 114)%N then Some (chr 13)
  else None.

Definition unicode_escape (h3 h2 h1 h0 : ascii) : option ascii :=
  match hex_value h3, hex_value h2, hex_value h1, hex_value h0 with
  | Some 0%N, Some 0%N, Some a, Some b => Some (chr (16 * a + b))
  | _, _, _, _ => None
  end.

(** The characters of a string literal after its opening quote, up to
    the closing quote. *)
Fixpoint read_string (s : string) : option (string * string) :=
  match s with
  | EmptyString => None
  | String c s1 =>
      if (code c =? 34)%N then Some (EmptyString, s1)
      else if (code c =? 92)%N then
        match s1 with
        | String e s2 =>
            if (code e =? 117)%N then
              match s2 with
              | String h3 (String h2 (String h1 (String h0 s6))) =>
                  match unicode_escape h3 h2 h1 h0, read_string s6 with
                  | Some u, Some (str, rest) => Some (String u str, rest)
                  | _, _ => None
                  end
              | _ => None
              end
            else
              match simple_escape e, read_string s2 with
              | Some u, Some (str, rest) => Some (String u str, rest)
              | _, _ => None
              end
        | EmptyString => None
        end
      else if (code c <? 32)%N then None
      else
        match read_string s1 with
        | Some (str, rest) => Some (String c str, rest)
        | None => None
        end
  end.

(** *** Numbers *)

Definition ser_number (n : Z) : string :=
  if n <? 0
  then String "-" (DecimalString.NilZero.string_of_uint (N.to_uint (Z.abs_N n)))
  else DecimalString.NilZero.string_of_uint (N.to_uint (Z.abs_N n)).

Fixpoint span_digits (s : string) : string * string :=
  match s with
  | String c s' =>
      if is_digit c then let (ds, rest) := span_digits s' in (String c ds, rest)
      else (EmptyString, s)
  | EmptyString => (EmptyString, EmptyString)
  end.

Fixpoint all_digits (s : string) : bool :=
  match s with
  | String c s' => is_digit c && all_digits s'
  | EmptyString => true
  end.

Definition starts_fraction (s : string) : bool :=
  match s with
  | String c _ => (code c =? 46)%N || (code c =? 101)%N || (code c =? 69)%N
  | EmptyString => false
  end.

Definition leading_zero (ds : string) : bool :=
  match ds with
  | String "0" (String _ _) => true
  | _ => false
  end.

Definition read_digits (s : string) : option (N * string) :=
  let (ds, rest) := span_digits s in
  match ds with
  | EmptyString => None
  | _ =>
      if leading_zero ds || starts_fraction rest then None
      else match DecimalString.NilZero.uint_of_string ds with
           | Some u => Some (N.of_uint u, rest)
           | None => None
           end
  end.

Definition read_number (s : string) : option (Z * string) :=
  match s with
  | String "-" s' =>
      match read_digits s' with
      | Some (n, rest) => Some (- Z.of_N n, rest)
      | None => None
      end
  | _ =>
      match read_digits s with
      | Some (n, rest) => Some (Z.of_N n, rest)
      | None => None
      end
  end.

(** *** Values *)

(** [SerializeJSONProperty]: inside an array [undefined] is written
    [null]; a property whose value is [undefined] is left out. *)
Fixpoint ser (v : value) : string :=
  match v with
  | VUndefined | VNull => "null"
  | VBool true => "true"
  | VBool false => "false"
  | VNum n => ser_number n
  | VStr s => quote s
  | VArr items =>
      String "["
        ((fix elems (first : bool) (l : list value) : string :=
            match l with
            | [] => "]"
            | x :: l' => (if first then "" else ",") +:+ ser x +:+ elems false l'
            end) true items)
  | VObj props =>
      String "{"
        ((fix members (first : bool) (l : list (string * value)) : string :=
            match l with
            | [] => "}"
            | (k, x) :: l' =>
                match x with
                | VUndefined => members first l'
                | _ => (if first then "" else ",") +:+ quote k +:+ ":" +:+ ser x
                       +:+ members false l'
                end
            end) true props)
  end.

Fixpoint ser_elems (first : bool) (l : list value) : string :=
  match l with
  | [] => "]"
  | x :: l' => (if first then "" else ",") +:+ ser x +:+ ser_elems false l'
  end.

Fixpoint ser_members (first : bool) (l : list (string * value)) : string :=
  match l with
  | [] => "}"
  | (k, x) :: l' =>
      match x with
      | VUndefined => ser_members first l'
      | _ => (if first then "" else ",") +:+ quote k +:+ ":" +:+ ser x
             +:+ ser_members false l'
      end
  end.

(** [JSON.stringify(v)]. *)
Definition JSON_stringify (v : value) : option string :=
  match v with
  | VUndefined => None
  | _ => Some (ser v)
  end.

(** A property defined again keeps its first place and takes the last
    value. *)
Definition obj_cons (k : string) (v : value) (ms : list (string * value))
  : list (string * value) :=
  match lookup_prop k ms with
  | Some v' => (k, v') :: without k ms
  | None => (k, v) :: ms
  end.

Fixpoint expect (word : string) (v : value) (s : string) : option (value * string) :=
  match word with
  | EmptyString => Some (v, s)
  | String w word' =>
      match s with
      | String c s' => if Ascii.eqb c w then expect word' v s' else None
      | EmptyString => None
      end
  end.

Fixpoint parse_value (fuel : nat) (s : string) : option (value * string) :=
  match fuel with
  | O => None
  | S fuel' =>
      match skip_ws s with
      | EmptyString => None
      | String c r =>
          if (code c =? 34)%N then
            match read_string r with
            | Some (str, r') => Some (VStr str, r')
            | None => None
            end
          else if (code c =? 91)%N then
            match parse_elems fuel' true r with
            | Some (items, r') => Some (VArr items, r')
            | None => None
            end
          else if (code c =? 123)%N then
            match parse_members fuel' true r with
            | Some (props, r') => Some (VObj props, r')
            | None => None
            end
          else if (code c =? 110)%N then expect "ull" VNull r
          else if (code c =? 116)%N then expect "rue" (VBool true) r
          else if (code c =? 102)%N then expect "alse" (VBool false) r
          else
            match read_number (String c r) with
            | Some (n, r') => Some (VNum n, r')
            | None => None
            end
      end
  end
with parse_elems (fuel : nat) (first : bool) (s : string) : option (list value * string) :=
  match fuel with
  | O => None
  | S fuel' =>
      match skip_ws s with
      | EmptyString => None
      | String c r =>
          if (code c =? 93)%N then Some ([], r)
          else
            let item (s' : string) :=
              match parse_value fuel' s' with
              | Some (v, r1) =>
                  match parse_elems fuel' false r1 with
                  | Some (vs, r2) => Some (v :: vs, r2)
                  | None => None
                  end
              | None => None
              end in
            if (code c =? 44)%N then (if first then None else item r)
            else (if first then item (String c r) else None)
      end
  end
with parse_members (fuel : nat) (first : bool) (s : string)
  : option (list (string * value) * string) :=
  match fuel with
  | O => None
  | S fuel' =>
      match skip_ws s with
      | EmptyString => None
      | String c r =>
          if (code c =? 125)%N then Some ([], r)
          else
            let member (s' : string) :=
              match skip_ws s' with
              | String q r0 =>
                  if (code q =? 34)%N then
                    match read_string r0 with
                    | Some (k, r1) =>
                        match skip_ws r1 with
                        | String colon r2 =>
                            if (code colon =? 58)%N then
                              match parse_value fuel' r2 with
                              | Some (v, r3) =>
                                  match parse_members fuel' false r3 with
                                  | Some (ms, r4) => Some (obj_cons k v ms, r4)
                                  | None => None
                                  end
                              | None => None
                              end
                            else None
                        | EmptyString => None
                        end
                    | None => None
                    end
                  else None
              | EmptyString => None
              end in
            if (code c =? 44)%N then (if first then None else member r)
            else (if first then member (String c r) else None)
      end
  end.

(** [JSON.parse(s)]: one value, then nothing but white space. *)
Definition JSON_parse (s : string) : option value :=
  match parse_value (2 * String.length s) s with
  | Some (v, rest) =>
      match skip_ws rest with
      | EmptyString => Some v
      | _ => None
      end
  | None => None
  end.

(** *** UTF-8 *)

(** [new TextEncoder().encode(s)] for code units below 256: one byte
    below 128, two bytes from 128 on. *)
Fixpoint TextEncoder_encode (s : string) : list Z :=
  match s with
  | EmptyString => []
  | String c s' =>
      let n := Z.of_N (code c) in
      if n <? 128 then n :: TextEncoder_encode s'
      else (192 + n / 64) :: (128 + n mod 64) :: TextEncoder_encode s'
  end.

(** The replacement character U+FFFD has no code unit below 256; [?]
    stands for it. *)
Definition replacement : ascii := chr 63.

Fixpoint decode_utf8 (bytes : list Z) : string :=
  match bytes with
  | [] => EmptyString
  | b :: rest =>
      if b <? 128 then String (chr (Z.to_N b)) (decode_utf8 rest)
      else if (194 <=? b) && (b <=? 195) then
        match rest with
        | b2 :: rest' =>
            if (128 <=? b2) && (b2 <=? 191)
            then String (chr (Z.to_N ((b - 192) * 64 + (b2 - 128)))) (decode_utf8 rest')
            else String replacement (decode_utf8 rest)
        | [] => String replacement EmptyString
        end
      else String replacement (decode_utf8 rest)
  end.

(** [new TextDecoder().decode(bytes)]: a leading byte order mark is
    dropped. *)
Definition TextDecoder_decode (bytes : list Z) : string :=
  match bytes with
  | 239 :: 187 :: 191 :: rest => decode_utf8 rest
  | _ => decode_utf8 bytes
  end.

(** *** base64 *)

Definition sextet (c : ascii) : option Z :=
  let n := Z.of_N (code c) in
  if (65 <=? n) && (n <=? 90) then Some (n - 65)
  else if (97 <=? n) && (n <=? 122) then Some (n - 71)
  else if (48 <=? n) && (n <=? 57) then Some (n + 4)
  else if (n =? 43) || (n =? 45) then Some 62
  else if (n =? 47) || (n =? 95) then Some 63
  else None.

(** White space is skipped; padding or any other character ends the
    input. *)
Fixpoint sextets (s : string) : list Z :=
  match s with
  | EmptyString => []
  | String c s' =>
      if is_ws c then sextets s'
      else match sextet c with
           | Some v => v :: sextets s'
           | None => []
           end
  end.

Fixpoint base64_bytes (l : list Z) : list Z :=
  match l with
  | a :: b :: c :: d :: l' =>
      (a * 4 + b / 16) :: ((b mod 16) * 16 + c / 4) :: ((c mod 4) * 64 + d)
      :: base64_bytes l'
  | [a; b; c] => [a * 4 + b / 16; (b mod 16) * 16 + c / 4]
  | [a; b] => [a * 4 + b / 16]
  | _ => []
  end.

(** [Buffer.from(s, 'base64')]. *)
Definition base64_decode (s : string) : list Z := base64_bytes (sextets s).

(** *** Conversion to a number *)

(** The white space of a numeric string, among the code units below
    256. *)
Definition is_str_ws (c : ascii) : bool :=
  let n := code c in
  ((9 <=? n)%N && (n <=? 13)%N) || (n =? 32)%N || (n =? 160)%N.

Fixpoint skip_str_ws (s : string) : string :=
  match s with
  | String c s' => if is_str_ws c then skip_str_ws s' else s
  | EmptyString => s
  end.

Fixpoint all_str_ws (s : string) : bool :=
  match s with
  | String c s' => is_str_ws c && all_str_ws s'
  | EmptyString => true
  end.

Fixpoint digits_value (acc : N) (ds : string) : N :=
  match ds with
  | String c ds' => digits_value (10 * acc + (code c - 48)) ds'
  | EmptyString => acc
  end.

(** The digits of a literal in base 2, 8 or 16, and what follows. *)
Fixpoint radix_digits (base acc : N) (s : string) : N * string :=
  match s with
  | String c s' =>
      match hex_value c with
      | Some d => if (d <? base)%N then radix_digits base (base * acc + d) s' else (acc, s)
      | None => (acc, s)
      end
  | EmptyString => (acc, s)
  end.

Definition read_radix (base : N) (s : string) : option Z :=
  match s with
  | String c _ =>
      match hex_value c with
      | Some d =>
          if (d <? base)%N then
            let (v, rest) := radix_digits base 0 s in
            if all_str_ws rest then Some (Z.of_N v) else None
          else None
      | None => None
      end
  | EmptyString => None
  end.

(** The exponent of a decimal literal, after its [e]. *)
Definition read_exponent (s : string) : option (Z * string) :=
  let '(negative, r) :=
    match s with
    | String c r' =>
        if (code c =? 45)%N then (true, r')
        else if (code c =? 43)%N then (false, r')
        else (false, s)
    | EmptyString => (false, s)
    end in
  let (ds, rest) := span_digits r in
  match ds with
  | EmptyString => None
  | _ =>
      let v := Z.of_N (digits_value 0 ds) in
      Some (if negative then - v else v, rest)
  end.

(** A decimal literal after its sign: digits, a fraction, an exponent,
    one digit at least before the exponent.  Its number is given when
    it is an integer. *)
Definition read_decimal (negative : bool) (s : string) : option Z :=
  let (ip, r1) := span_digits s in
  let '(fp, r2) :=
    match r1 with
    | String c r => if (code c =? 46)%N then span_digits r else (EmptyString, r1)
    | EmptyString => (EmptyString, r1)
    end in
  if (String.length ip + String.length fp =? 0)%nat then None
  else
    match
      match r2 with
      | String c r =>
          if (code c =? 101)%N || (code c =? 69)%N then read_exponent r else Some (0, r2)
      | EmptyString => Some (0, r2)
      end
    with
    | None => None
    | Some (e, rest) =>
        if all_str_ws rest then
          let m := Z.of_N (digits_value 0 (ip +:+ fp)) in
          let shift := e - Z.of_nat (String.length fp) in
          let v :=
            if 0 <=? shift then Some (m * 10 ^ shift)
            else if m mod 10 ^ (- shift) =? 0 then Some (m / 10 ^ (- shift))
            else None in
          match v with
          | Some x => Some (if negative then - x else x)
          | None => None
          end
        else None
    end.

(** [StringToNumber]: white space around a numeric literal is dropped;
    white space alone is 0; a decimal literal may have a sign, a
    fraction and an exponent; a literal in base 2, 8 or 16 has its
    prefix and no sign; any other string is [NaN].  A string whose
    number is no integer ([1.5], [Infinity]) is outside the model, and
    [NaN] stands for its number. *)
Definition StringToNumber (s : string) : option Z :=
  match skip_str_ws s with
  | EmptyString => Some 0
  | String c r =>
      if (code c =? 45)%N then read_decimal true r
      else if (code c =? 43)%N then read_decimal false r
      else
        match r with
        | String x r' =>
            if (code c =? 48)%N && ((code x =? 120)%N || (code x =? 88)%N)
            then read_radix 16 r'
            else if (code c =? 48)%N && ((code x =? 111)%N || (code x =? 79)%N)
            then read_radix 8 r'
            else if (code c =? 48)%N && ((code x =? 98)%N || (code x =? 66)%N)
            then read_radix 2 r'
            else read_decimal false (String c r)
        | EmptyString => read_decimal false (String c r)
        end
  end.

(** The conversion of a value to a string throws for an object with an
    own property [toString] (no value of JSON can be called), also where
    it is an element of an array. *)
Fixpoint ToString_throws (v : value) : bool :=
  match v with
  | VObj props =>
      match lookup_prop "toString" props with
      | Some _ => true
      | None => false
      end
  | VArr items =>
      (fix any (l : list value) : bool :=
         match l with
         | [] => false
         | x :: l' => ToString_throws x || any l'
         end) items
  | _ => false
  end.

Fixpoint array_number (v : value) : option Z :=
  match v with
  | VArr [] => Some 0
  | VArr [x] =>
      match x with
      | VUndefined | VNull => Some 0
      | VNum n => Some n
      | VStr s => StringToNumber s
      | VArr _ => array_number x
      | VBool _ | VObj _ => None
      end
  | _ => None
  end.

(** The conversion of an array or an object to a number: an array is
    joined with commas ([null] and [undefined] as the empty string) and
    the string converted; an object is [[object Object]], no number. *)
Definition ToNumber_object (v : value) : result (option Z) :=
  if ToString_throws v
  then Throw (TypeError "Cannot convert object to primitive value")
  else Ok (array_number v).

Definition ToNumber (v : value) : result (option Z) :=
  match v with
  | VUndefined => Ok None
  | VNull => Ok (Some 0)
  | VBool b => Ok (Some (if b then 1 else 0))
  | VNum n => Ok (Some n)
  | VStr s => Ok (StringToNumber s)
  | VArr _ | VObj _ => ToNumber_object v
  end.

(** *** Buffers from arrays and objects *)

(** The bytes of an array: each element converted to a number, modulo
    256; [NaN] is 0. *)
Fixpoint array_bytes (items : list value) : result (list Z) :=
  match items with
  | [] => Ok []
  | x :: items' =>
      bind (ToNumber x) (fun n =>
      bind (array_bytes items') (fun bytes =>
      Ok (default 0 n `mod` 256 :: bytes)))
  end.

(** An object that is no buffer: one with a [length] is read as an
    array ([obj[0]], ..., [obj[length - 1]]), or is empty when the
    length is no number; the JSON of a buffer,
    [{ type: 'Buffer', data: [...] }], gives the bytes of [data]; any
    other object is a [TypeError]. *)
Definition object_bytes (props : list (string * value)) : result (list Z) :=
  match lookup_prop "length" props with
  | Some (VNum n) => array_bytes (map (fun i => field props (ser_number i)) (seqZ 0 n))
  | Some _ => Ok []
  | None =>
      match field props "type", field props "data" with
      | VStr "Buffer", VArr items => array_bytes items
      | _, _ =>
          Throw (Router.invalid_arg_type "The first argument must be of type string or an instance of Buffer, ArrayBuffer, or Array or an Array-like Object.")
      end
  end.

(** [Buffer.from(v)] on an array or an object of JSON.  An array gives
    its bytes.  Of an object, [valueOf] is called first when it is
    truthy: the one of [Object] returns the object, an own one cannot
    be called; an own [valueOf] that is the empty string is decoded. *)
Definition Buffer_from_object (v : value) : result (list Z) :=
  match v with
  | VArr items => array_bytes items
  | VObj props =>
      match lookup_prop "valueOf" props with
      | Some x =>
          if truthy x then Throw (TypeError "value.valueOf is not a function")
          else
            match x with
            | VStr s => Ok (base64_decode s)
            | _ => object_bytes props
            end
      | None => object_bytes props
      end
  | _ =>
      Throw (Router.invalid_arg_type "The first argument must be of type string or an instance of Buffer, ArrayBuffer, or Array or an Array-like Object.")
  end.

(** *** A file system *)

(** The names [.], [..] and [/] are directories, and writing to a
    directory is refused; every other name can be written.  The
    descriptors 1 and 2 are open, no other is. *)
Definition fs_error (path : Router.Path) (data : list Z) : option JsError :=
  match path with
  | Router.Named f =>
      if String.eqb f "." || String.eqb f ".." || String.eqb f "/"
      then Some (mkError "Error"
                   ("EISDIR: illegal operation on a directory, open '" +:+ f +:+ "'")
                   (VStr "EISDIR"))
      else None
  | Router.Descriptor fd =>
      if (fd =? 1) || (fd =? 2) then None
      else Some (mkError "Error" "EBADF: bad file descriptor, write" (VStr "EBADF"))
  end.

(** The platform of the router. *)
Definition platform : Router.Platform :=
  Router.mkPlatform base64_decode Buffer_from_object fs_error StringToNumber
                    ToNumber_object.

End RefPlatform.

(* ===================================================================== *)
(** ** Facts: the reference platform *)
(* ===================================================================== *)

Module RefPlatformFacts.
Import Js RefPlatform.

Lemma append_cons (x : ascii) (a b : string) :
  String x a +:+ b = String x (a +:+ b).
Proof. reflexivity. Qed.

Lemma append_assoc (a b c : string) : (a +:+ b) +:+ c = a +:+ (b +:+ c).
Proof.
  induction a as [|x a IH]; [reflexivity|]. rewrite !append_cons. by rewrite IH.
Qed.

Lemma append_length (a b : string) :
  String.length (a +:+ b) = (String.length a + String.length b)%nat.
Proof.
  induction a as [|x a IH]; [reflexivity|]. rewrite append_cons. simpl. by rewrite IH.
Qed.

Lemma read_string_escape_char (c : ascii) (s : string) :
  read_string (escape_char c +:+ s) =
  match read_string s with
  | Some (str, rest) => Some (String c str, rest)
  | None => None
  end.
Proof. destruct c as [[] [] [] [] [] [] [] []]; reflexivity. Qed.

Lemma read_string_escape (s rest : string) :
  read_string (escape s +:+ String quote_char rest) = Some (s, rest).
Proof.
  induction s as [|c s IH]; [reflexivity|].
  change (escape (String c s)) with (escape_char c +:+ escape s).
  rewrite append_assoc, read_string_escape_char. by rewrite IH.
Qed.

Lemma quote_append (s rest : string) :
  quote s +:+ rest = String quote_char (escape s +:+ String quote_char rest).
Proof. unfold quote. by rewrite append_cons, append_assoc. Qed.

(** *** Numbers *)

(** What may follow a value in the text [stringify] produces: the end,
    or one of [,], [\]] and [}]. *)
Definition follows (rest : string) : Prop :=
  match rest with
  | EmptyString => True
  | String c _ => c = chr 44 \/ c = chr 93 \/ c = chr 125
  end.

Lemma follows_not_digit (rest : string) :
  follows rest ->
  match rest with String c _ => is_digit c = false | EmptyString => True end /\
  starts_fraction rest = false.
Proof.
  destruct rest as [|c r]; [done|]. simpl. intros [->|[->| ->]]; done.
Qed.

Lemma span_digits_all (ds rest : string) :
  all_digits ds = true ->
  match rest with String c _ => is_digit c = false | EmptyString => True end ->
  span_digits (ds +:+ rest) = (ds, rest).
Proof.
  intros Hds Hrest. induction ds as [|c ds IH].
  - change (EmptyString +:+ rest) with rest.
    destruct rest as [|c r]; [done|]. simpl. by rewrite Hrest.
  - simpl in Hds. apply andb_true_iff in Hds as [Hc Hds].
    rewrite append_cons. simpl. rewrite Hc. by rewrite IH.
Qed.

Lemma string_of_uint_digits (d : Decimal.uint) :
  all_digits (DecimalString.NilEmpty.string_of_uint d) = true.
Proof. induction d; simpl; done. Qed.

Lemma to_uint_normal (n : N) : Decimal.unorm (N.to_uint n) = N.to_uint n.
Proof.
  by rewrite <- DecimalN.Unsigned.to_of, DecimalN.Unsigned.of_to.
Qed.

Lemma to_uint_no_leading_zero (n : N) :
  leading_zero (DecimalString.NilZero.string_of_uint (N.to_uint n)) = false.
Proof.
  pose proof (to_uint_normal n) as Hn.
  destruct (N.to_uint n) as [|d| | | | | | | | |] eqn:Hd; try reflexivity.
  - destruct d; try reflexivity; exfalso.
    all: rewrite DecimalFacts.unorm_D0 in Hn.
    all: match type of Hn with Decimal.unorm ?u = _ =>
           destruct (Decimal.nzhead u) eqn:Hz;
           [ apply DecimalFacts.unorm_0 in Hz; rewrite Hz in Hn; discriminate
           | rewrite DecimalFacts.unorm_nzhead in Hn by (rewrite Hz; discriminate);
             eapply DecimalFacts.nzhead_nonzero; exact Hn .. ]
         end.
  all: simpl; by destruct d.
Qed.

Lemma read_digits_to_uint (n : N) (rest : string) :
  follows rest ->
  read_digits (DecimalString.NilZero.string_of_uint (N.to_uint n) +:+ rest) = Some (n, rest).
Proof.
  intros [Hd Hf]%follows_not_digit. unfold read_digits.
  assert (Hnil : N.to_uint n <> Decimal.Nil).
  { rewrite <- to_uint_normal. apply DecimalFacts.unorm_nonnil. }
  assert (Hs : DecimalString.NilZero.string_of_uint (N.to_uint n) =
               DecimalString.NilEmpty.string_of_uint (N.to_uint n)).
  { by destruct (N.to_uint n). }
  rewrite span_digits_all; [| rewrite Hs; apply string_of_uint_digits | done].
  rewrite to_uint_no_leading_zero, Hf. simpl.
  rewrite DecimalString.NilZero.usu by done.
  rewrite DecimalN.Unsigned.of_to.
  destruct (DecimalString.NilZero.string_of_uint (N.to_uint n)) eqn:E; [|done].
  rewrite Hs in E. by destruct (N.to_uint n).
Qed.

Lemma read_number_ser (n : Z) (rest : string) :
  follows rest -> read_number (ser_number n +:+ rest) = Some (n, rest).
Proof.
  intros Hf. unfold ser_number. destruct (Z.ltb_spec n 0).
  - rewrite append_cons. simpl. rewrite read_digits_to_uint by done.
    f_equal. f_equal. lia.
  - unfold read_number.
    assert (Hnm : forall s, DecimalString.NilZero.string_of_uint (N.to_uint (Z.abs_N n)) +:+ rest
                     = String "-" s -> False).
    { intros s Hs.
      pose proof (string_of_uint_digits (N.to_uint (Z.abs_N n))) as Hd.
      assert (Hnil : N.to_uint (Z.abs_N n) <> Decimal.Nil).
      { rewrite <- to_uint_normal. apply DecimalFacts.unorm_nonnil. }
      destruct (N.to_uint (Z.abs_N n)); try done; simpl in Hs; discriminate. }
    destruct (DecimalString.NilZero.string_of_uint (N.to_uint (Z.abs_N n)) +:+ rest) as [|c s] eqn:E.
    + rewrite <- E. rewrite read_digits_to_uint by done. f_equal. f_equal. lia.
    + destruct (Ascii.eqb_spec c "-"%char) as [->|Hc].
      * exfalso. by eapply Hnm.
      * rewrite <- E.
        assert (Hgoal : read_digits (DecimalString.NilZero.string_of_uint (N.to_uint (Z.abs_N n)) +:+ rest)
                        = Some (Z.abs_N n, rest)) by (by apply read_digits_to_uint).
        rewrite E in *. destruct c as [[] [] [] [] [] [] [] []];
          try (rewrite Hgoal; f_equal; f_equal; lia). by exfalso.
Qed.

(** *** Values *)

Section value_induction.

Variable P : value -> Prop.
Hypothesis Hundef : P VUndefined.
Hypothesis Hnull : P VNull.
Hypothesis Hbool : forall b, P (VBool b).
Hypothesis Hnum : forall n, P (VNum n).
Hypothesis Hstr : forall s, P (VStr s).
Hypothesis Harr : forall items, Forall P items -> P (VArr items).
Hypothesis Hobj : forall props, Forall (fun kv => P (snd kv)) props -> P (VObj props).

Fixpoint value_nested_ind (v : value) : P v :=
  match v with
  | VUndefined => Hundef
  | VNull => Hnull
  | VBool b => Hbool b
  | VNum n => Hnum n
  | VStr s => Hstr s
  | VArr items =>
      Harr items
        ((fix go (l : list value) : Forall P l :=
            match l with
            | [] => List.Forall_nil P
            | x :: l' => @List.Forall_cons _ P x l' (value_nested_ind x) (go l')
            end) items)
  | VObj props =>
      Hobj props
        ((fix go (l : list (string * value)) : Forall (fun kv => P (snd kv)) l :=
            match l with
            | [] => List.Forall_nil _
            | kv :: l' =>
                @List.Forall_cons _ (fun kv => P (snd kv)) kv l' (value_nested_ind (snd kv)) (go l')
            end) props)
  end.

End value_induction.

Lemma ser_arr (items : list value) : ser (VArr items) = String "[" (ser_elems true items).
Proof. reflexivity. Qed.

Lemma ser_obj (props : list (string * value)) :
  ser (VObj props) = String "{" (ser_members true props).
Proof. reflexivity. Qed.

Lemma json_value_arr (items : list value) :
  json_value (VArr items) <-> Forall json_value items.
Proof.
  simpl. induction items as [|x l IH]; [by split|].
  rewrite Forall_cons, <- IH. done.
Qed.

Lemma json_value_obj (props : list (string * value)) :
  json_value (VObj props) <->
  NoDup (map fst props) /\ Forall (fun kv => json_value (snd kv)) props.
Proof.
  simpl. apply and_iff_compat_l. induction props as [|[k x] l IH]; [by split|].
  rewrite Forall_cons, <- IH. done.
Qed.

(** The fuel [parse_value] needs on the text of a value. *)
Fixpoint need (v : value) : nat :=
  match v with
  | VArr items =>
      S ((fix go (l : list value) : nat :=
            match l with
            | [] => 1
            | x :: l' => S (Nat.max (need x) (go l'))
            end) items)
  | VObj props =>
      S ((fix go (l : list (string * value)) : nat :=
            match l with
            | [] => 1
            | (_, x) :: l' => S (Nat.max (need x) (go l'))
            end) props)
  | _ => 1
  end%nat.

Fixpoint need_elems (l : list value) : nat :=
  match l with
  | [] => 1
  | x :: l' => S (Nat.max (need x) (need_elems l'))
  end%nat.

Fixpoint need_members (l : list (string * value)) : nat :=
  match l with
  | [] => 1
  | (_, x) :: l' => S (Nat.max (need x) (need_members l'))
  end%nat.

Lemma need_arr (items : list value) : need (VArr items) = S (need_elems items).
Proof. reflexivity. Qed.

Lemma need_obj (props : list (string * value)) : need (VObj props) = S (need_members props).
Proof. reflexivity. Qed.

(** The first character of the text of a value: it starts no white
    space and is none of the separators. *)
Definition starts_value (s : string) : Prop :=
  match s with
  | String c _ => is_ws c = false /\ (code c =? 93)%N = false /\
                  (code c =? 44)%N = false /\ (code c =? 125)%N = false
  | EmptyString => False
  end.

Lemma ser_number_head (n : Z) (rest : string) :
  exists c r, ser_number n +:+ rest = String c r /\
              (is_digit c = true \/ c = "-"%char).
Proof.
  unfold ser_number. destruct (n <? 0).
  - eexists _, _. split; [reflexivity|]. by right.
  - assert (Hnil : N.to_uint (Z.abs_N n) <> Decimal.Nil).
    { rewrite <- to_uint_normal. apply DecimalFacts.unorm_nonnil. }
    pose proof (string_of_uint_digits (N.to_uint (Z.abs_N n))) as Hd.
    destruct (N.to_uint (Z.abs_N n)); try done;
      eexists _, _; (split; [reflexivity|]); by left.
Qed.

Lemma ser_head (v : value) (rest : string) : starts_value (ser v +:+ rest).
Proof.
  destruct v; try done.
  - by destruct b.
  - destruct (ser_number_head n rest) as (c & r & Heq & Hc).
    simpl ser. rewrite Heq. simpl.
    destruct Hc as [Hc| ->]; [|done].
    destruct c as [[] [] [] [] [] [] [] []]; try discriminate Hc; done.
Qed.

Lemma skip_ws_starts_value (s : string) : starts_value s -> skip_ws s = s.
Proof. destruct s as [|c r]; [done|]. simpl. by intros [-> _]. Qed.

Lemma follows_elems (l : list value) (rest : string) :
  follows (ser_elems false l +:+ rest).
Proof. destruct l; simpl; auto. Qed.

Lemma ser_members_cons (first : bool) (k : string) (x : value) (l : list (string * value)) :
  x <> VUndefined ->
  ser_members first ((k, x) :: l) =
  (if first then "" else ",") +:+ quote k +:+ ":" +:+ ser x +:+ ser_members false l.
Proof. by destruct x. Qed.

Lemma follows_members (l : list (string * value)) (rest : string) :
  Forall (fun kv => json_value (snd kv)) l ->
  follows (ser_members false l +:+ rest).
Proof.
  destruct l as [|[k x] l]; [simpl; auto|]. intros Hl. inversion Hl; subst.
  rewrite ser_members_cons by (by destruct x). simpl. auto.
Qed.

Lemma lookup_prop_absent (k : string) (l : list (string * value)) :
  ~ In k (map fst l) -> lookup_prop k l = None.
Proof.
  induction l as [|[k' x] l IH]; simpl; [done|]. intros Hn.
  destruct (String.eqb_spec k k') as [->|]; [tauto|]. apply IH. tauto.
Qed.

Definition parses (v : value) : Prop :=
  json_value v ->
  forall fuel rest, (need v <= fuel)%nat -> follows rest ->
    parse_value fuel (ser v +:+ rest) = Some (v, rest).

Lemma parse_elems_next (fuel : nat) (r : string) :
  parse_elems (S fuel) false (String "," r) =
  match parse_value fuel r with
  | Some (v, r1) =>
      match parse_elems fuel false r1 with
      | Some (vs, r2) => Some (v :: vs, r2)
      | None => None
      end
  | None => None
  end.
Proof. reflexivity. Qed.

Lemma parse_elems_first (fuel : nat) (s : string) :
  starts_value s ->
  parse_elems (S fuel) true s =
  match parse_value fuel s with
  | Some (v, r1) =>
      match parse_elems fuel false r1 with
      | Some (vs, r2) => Some (v :: vs, r2)
      | None => None
      end
  | None => None
  end.
Proof.
  destruct s as [|c r]; [done|]. intros (Hws & H93 & H44 & _).
  cbn [parse_elems skip_ws]. by rewrite Hws, H93, H44.
Qed.

Lemma parse_elems_ser (items : list value) :
  Forall parses items -> Forall json_value items ->
  forall first fuel rest, (need_elems items <= fuel)%nat ->
    parse_elems fuel first (ser_elems first items +:+ rest) = Some (items, rest).
Proof.
  induction items as [|x l IH]; intros HP HJ first fuel rest Hfuel.
  - destruct fuel; [simpl in Hfuel; lia|]. reflexivity.
  - inversion HP as [|? ? Hx HPl]; inversion HJ as [|? ? Jx HJl]; subst.
    destruct fuel as [|fuel]; [simpl in Hfuel; lia|]. simpl in Hfuel.
    assert (Hv : parse_value fuel (ser x +:+ ser_elems false l +:+ rest) =
                 Some (x, ser_elems false l +:+ rest)).
    { apply Hx; [done|lia|apply follows_elems]. }
    assert (Hl : parse_elems fuel false (ser_elems false l +:+ rest) = Some (l, rest)).
    { apply IH; [done|done|lia]. }
    simpl ser_elems. rewrite !append_assoc. destruct first.
    + change ("" +:+ ?a) with a.
      rewrite parse_elems_first by apply ser_head. by rewrite Hv, Hl.
    + change ("," +:+ ?a) with (String "," a).
      rewrite parse_elems_next. by rewrite Hv, Hl.
Qed.

Lemma parse_members_next (fuel : nat) (k : string) (r : string) :
  parse_members (S fuel) false (String "," (quote k +:+ String ":" r)) =
  match parse_value fuel r with
  | Some (v, r3) =>
      match parse_members fuel false r3 with
      | Some (ms, r4) => Some (obj_cons k v ms, r4)
      | None => None
      end
  | None => None
  end.
Proof.
  rewrite quote_append. cbn [parse_members skip_ws].
  change (is_ws ",") with false. cbv iota.
  change (code "," =? 125)%N with false. change (code "," =? 44)%N with true.
  cbv iota. cbn [skip_ws]. change (is_ws quote_char) with false. cbv iota.
  change (code quote_char =? 34)%N with true. cbv iota.
  rewrite read_string_escape. reflexivity.
Qed.

Lemma parse_members_first (fuel : nat) (k : string) (r : string) :
  parse_members (S fuel) true (quote k +:+ String ":" r) =
  match parse_value fuel r with
  | Some (v, r3) =>
      match parse_members fuel false r3 with
      | Some (ms, r4) => Some (obj_cons k v ms, r4)
      | None => None
      end
  | None => None
  end.
Proof.
  rewrite quote_append. cbn [parse_members skip_ws].
  change (is_ws quote_char) with false. cbv iota.
  change (code quote_char =? 125)%N with false. change (code quote_char =? 44)%N with false.
  cbv iota. cbn [skip_ws]. change (is_ws quote_char) with false. cbv iota.
  change (code quote_char =? 34)%N with true. cbv iota.
  rewrite read_string_escape. reflexivity.
Qed.

Lemma parse_members_ser (props : list (string * value)) :
  Forall (fun kv => parses (snd kv)) props ->
  Forall (fun kv => json_value (snd kv)) props ->
  NoDup (map fst props) ->
  forall first fuel rest, (need_members props <= fuel)%nat ->
    parse_members fuel first (ser_members first props +:+ rest) = Some (props, rest).
Proof.
  induction props as [|[k x] l IH]; intros HP HJ Hnd first fuel rest Hfuel.
  - destruct fuel; [simpl in Hfuel; lia|]. reflexivity.
  - inversion HP as [|? ? Hx HPl]; inversion HJ as [|? ? Jx HJl]; subst.
    simpl in Hx, Jx, Hnd. apply NoDup_cons in Hnd as [Hk Hnd].
    destruct fuel as [|fuel]; [simpl in Hfuel; lia|]. simpl in Hfuel.
    assert (Hv : parse_value fuel (ser x +:+ ser_members false l +:+ rest) =
                 Some (x, ser_members false l +:+ rest)).
    { apply Hx; [done|lia|by apply follows_members]. }
    assert (Hl : parse_members fuel false (ser_members false l +:+ rest) = Some (l, rest)).
    { apply IH; [done|done|done|lia]. }
    assert (Hc : obj_cons k x l = (k, x) :: l).
    { unfold obj_cons. rewrite lookup_prop_absent; [done|]. by rewrite <- list_elem_of_In. }
    rewrite ser_members_cons by (by destruct x). rewrite !append_assoc. destruct first.
    + change ("" +:+ ?a) with a. change (":" +:+ ?a) with (String ":" a).
      rewrite parse_members_first. by rewrite Hv, Hl, Hc.
    + change ("," +:+ ?a) with (String "," a). change (":" +:+ ?a) with (String ":" a).
      rewrite parse_members_next. by rewrite Hv, Hl, Hc.
Qed.

Lemma parse_value_number (fuel : nat) (n : Z) (rest : string) :
  follows rest ->
  parse_value (S fuel) (ser_number n +:+ rest) = Some (VNum n, rest).
Proof.
  intros Hf. pose proof (read_number_ser n rest Hf) as Hn.
  destruct (ser_number_head n rest) as (c & r & Heq & Hc). rewrite Heq in *.
  destruct Hc as [Hc| ->].
  - destruct c as [[] [] [] [] [] [] [] []]; try discriminate Hc;
      cbn [parse_value skip_ws]; simpl; simpl in Hn; by rewrite Hn.
  - cbn [parse_value skip_ws]. simpl. simpl in Hn. by rewrite Hn.
Qed.

Lemma parse_ser (v : value) : parses v.
Proof.
  induction v using value_nested_ind; intros Hj fuel rest Hfuel Hf.
  - destruct Hj.
  - destruct fuel; [simpl in Hfuel; lia|]. reflexivity.
  - destruct fuel; [simpl in Hfuel; lia|]. by destruct b.
  - destruct fuel; [simpl in Hfuel; lia|]. by apply parse_value_number.
  - destruct fuel; [simpl in Hfuel; lia|]. simpl ser. rewrite quote_append.
    cbn [parse_value skip_ws]. change (is_ws quote_char) with false. cbv iota.
    change (code quote_char =? 34)%N with true. cbv iota.
    by rewrite read_string_escape.
  - rewrite need_arr in Hfuel. destruct fuel; [lia|].
    rewrite ser_arr, append_cons. cbn [parse_value skip_ws].
    change (is_ws "[") with false. cbv iota.
    change (code "[" =? 34)%N with false. change (code "[" =? 91)%N with true. cbv iota.
    rewrite parse_elems_ser; [done|done| by apply json_value_arr |lia].
  - rewrite need_obj in Hfuel. destruct fuel; [lia|].
    apply json_value_obj in Hj as [Hnd Hj].
    rewrite ser_obj, append_cons. cbn [parse_value skip_ws].
    change (is_ws "{") with false. cbv iota.
    change (code "{" =? 34)%N with false. change (code "{" =? 91)%N with false.
    change (code "{" =? 123)%N with true. cbv iota.
    rewrite parse_members_ser; [done|done|done|done|lia].
Qed.

Lemma ser_nonempty (v : value) : (1 <= String.length (ser v))%nat.
Proof.
  pose proof (ser_head v EmptyString) as H.
  assert (Hnil : forall s, s +:+ EmptyString = s).
  { induction s as [|c s IH]; [done|]. by rewrite append_cons, IH. }
  rewrite Hnil in H. destruct (ser v); [done|]. simpl. lia.
Qed.

Lemma need_bound (v : value) : json_value v -> (need v <= 2 * String.length (ser v))%nat.
Proof.
  induction v using value_nested_ind; intros Hj.
  - destruct Hj.
  - simpl. lia.
  - pose proof (ser_nonempty (VBool b)). simpl need. lia.
  - pose proof (ser_nonempty (VNum n)). simpl need. lia.
  - pose proof (ser_nonempty (VStr s)). simpl need. lia.
  - rewrite need_arr, ser_arr. apply json_value_arr in Hj.
    assert (Hl : forall first, (need_elems items <= 2 * String.length (ser_elems first items))%nat).
    { clear -H Hj. induction items as [|x l IH]; intros first; [simpl; lia|].
      inversion H; inversion Hj; subst. simpl need_elems. simpl ser_elems.
      rewrite !append_length. specialize (IH ltac:(done) ltac:(done) false).
      pose proof (ser_nonempty x).
      assert (1 <= String.length (ser_elems false l))%nat by (destruct l; simpl; lia).
      assert (need x <= 2 * String.length (ser x))%nat by auto. lia. }
    specialize (Hl true). simpl String.length. lia.
  - rewrite need_obj, ser_obj. apply json_value_obj in Hj as [_ Hj].
    assert (Hl : forall first, (need_members props <= 2 * String.length (ser_members first props))%nat).
    { clear -H Hj. induction props as [|[k x] l IH]; intros first; [simpl; lia|].
      inversion H as [|? ? Hx Hl]; inversion Hj as [|? ? Jx Jl]; subst.
      simpl in Hx, Jx.
      rewrite ser_members_cons by (by destruct x). simpl need_members.
      rewrite !append_length. specialize (IH ltac:(done) ltac:(done) false).
      pose proof (ser_nonempty x). change (String.length ":") with 1%nat.
      assert (need x <= 2 * String.length (ser x))%nat by auto. lia. }
    specialize (Hl true). simpl String.length. lia.
Qed.

(** The reference [JSON.parse] inverts the reference [JSON.stringify] on
    JSON values. *)
Lemma JSON_parse_stringify (v : value) :
  json_value v ->
  exists s, JSON_stringify v = Some s /\ JSON_parse s = Some v.
Proof.
  intros Hj. exists (ser v). split; [by destruct v|].
  unfold JSON_parse.
  assert (Hnil : forall s, s +:+ EmptyString = s).
  { induction s as [|c s IH]; [done|]. by rewrite append_cons, IH. }
  rewrite <- (Hnil (ser v)) at 2.
  rewrite parse_ser; [done|done| by apply need_bound | done].
Qed.

Lemma decode_utf8_encode (s : string) : decode_utf8 (TextEncoder_encode s) = s.
Proof.
  induction s as [|c s IH]; [reflexivity|].
  transitivity (String c (decode_utf8 (TextEncoder_encode s))); [|by rewrite IH].
  destruct c as [[] [] [] [] [] [] [] []]; reflexivity.
Qed.

(** The reference [TextDecoder] inverts the reference [TextEncoder]. *)
Lemma TextDecoder_TextEncoder (s : string) :
  TextDecoder_decode (TextEncoder_encode s) = s.
Proof.
  rewrite <- (decode_utf8_encode s) at 2.
  destruct s as [|c s]; [reflexivity|].
  destruct c as [[] [] [] [] [] [] [] []]; reflexivity.
Qed.

Example base64_decode_hi : base64_decode "aGk=" = [104; 105].
Proof. reflexivity. Qed.

Example StringToNumber_literals :
  StringToNumber "5" = Some 5 /\ StringToNumber " 42 " = Some 42 /\
  StringToNumber "-7" = Some (-7) /\ StringToNumber "" = Some 0 /\
  StringToNumber "0x1f" = Some 31 /\ StringToNumber "1e3" = Some 1000 /\
  StringToNumber "2.50e1" = Some 25 /\ StringToNumber "five" = None /\
  StringToNumber "5 5" = None /\ StringToNumber "-0x10" = None.
Proof. repeat split; vm_compute; reflexivity. Qed.

Example ToNumber_object_cases :
  ToNumber_object (VArr []) = Ok (Some 0) /\
  ToNumber_object (VArr [VArr [VStr "5"]]) = Ok (Some 5) /\
  ToNumber_object (VArr [VNum 1; VNum 2]) = Ok None /\
  ToNumber_object (VObj [("a", VNum 1)]) = Ok None /\
  ToNumber_object (VObj [("toString", VNum 1)]) =
    Throw (TypeError "Cannot convert object to primitive value").
Proof. repeat split; vm_compute; reflexivity. Qed.

Example Buffer_from_object_cases :
  Buffer_from_object (VArr [VNum 104; VNum 361; VStr "7"; VNull]) = Ok [104; 105; 7; 0] /\
  Buffer_from_object (VObj [("type", VStr "Buffer"); ("data", VArr [VNum 1; VNum 2])]) =
    Ok [1; 2] /\
  Buffer_from_object (VObj [("length", VNum 2); ("0", VNum 9)]) = Ok [9; 0].
Proof. repeat split; vm_compute; reflexivity. Qed.

End RefPlatformFacts.

(* ===================================================================== *)
(** ** Facts: frame codec *)
(* ===================================================================== *)

Module CodecFacts.
Import Js Codec.

Lemma arr_set_app (src : list Z) (pre old post : list Z) :
  length old = length src ->
  arr_set src (length pre) (pre ++ old ++ post) = pre ++ src ++ post.
Proof.
  revert pre old. induction src as [|b src IH]; intros pre old Hlen.
  - destruct old; [done | simpl in Hlen; lia].
  - destruct old as [|o old]; [simpl in Hlen; lia|]. simpl in Hlen.
    simpl arr_set.
    replace (<[length pre := b]> (pre ++ (o :: old) ++ post))
      with ((pre ++ [b]) ++ old ++ post).
    + replace (S (length pre)) with (length (pre ++ [b]))
        by (rewrite length_app; simpl; lia).
      rewrite IH by lia. by rewrite <- app_assoc.
    + rewrite insert_app_r_alt by lia.
      replace (length pre - length pre)%nat with 0%nat by lia.
      simpl. by rewrite <- app_assoc.
Qed.

Lemma encode_binary_layout
  (JSON_stringify : value -> option string) (TextEncoder_encode : string -> list Z)
  (ty : MessageType) (data : value) (json : string) :
  JSON_stringify data = Some json ->
  encode JSON_stringify TextEncoder_encode true ty data =
  Binary (ZAP_MAGIC ++ [MessageType_code ty] ++ TextEncoder_encode json).
Proof.
  intros Hs. unfold encode. simpl negb. cbv iota. rewrite Hs.
  set (bs := TextEncoder_encode json). f_equal.
  replace (replicate (5 + length bs) 0)
    with ([] ++ replicate 4 0 ++ (0 :: replicate (length bs) 0)) by done.
  rewrite (arr_set_app ZAP_MAGIC [] (replicate 4 0)) by done.
  replace (setUint8 4 (MessageType_code ty)
             ([] ++ ZAP_MAGIC ++ 0 :: replicate (length bs) 0))
    with ((ZAP_MAGIC ++ [MessageType_code ty]) ++ replicate (length bs) 0 ++ [])
    by (rewrite app_nil_r; destruct ty; reflexivity).
  change 5%nat with (length (ZAP_MAGIC ++ [MessageType_code ty])).
  rewrite arr_set_app by apply length_replicate.
  by rewrite app_nil_r, <- app_assoc.
Qed.

Lemma magic_ok_take (arr : list Z) :
  magic_ok 0 4 arr = true <-> take 4 arr = ZAP_MAGIC.
Proof.
  unfold ZAP_MAGIC.
  destruct arr as [|a0 [|a1 [|a2 [|a3 rest]]]]; simpl.
  all: repeat match goal with
       | |- context [?x =? ?y] => destruct (Z.eqb_spec x y)
       end; subst; simpl; rewrite ?take_0.
  all: split; intros H; try done; injection H; intros; congruence.
Qed.

Section Laws.

Variable JSON_stringify : value -> option string.
Variable JSON_parse : string -> option value.
Variable TextEncoder_encode : string -> list Z.
Variable TextDecoder_decode : list Z -> string.

#[local] Abbreviation encode := (encode JSON_stringify TextEncoder_encode).
#[local] Abbreviation decode := (decode JSON_parse TextDecoder_decode).

(** What the code assumes of the platform: a JSON value survives
    [JSON.parse(JSON.stringify(v))], and the text [JSON.stringify]
    produces survives UTF-8 encoding and decoding. *)
Definition JSON_roundtrip : Prop :=
  forall v, json_value v ->
    exists s, JSON_stringify v = Some s /\ JSON_parse s = Some v.

Definition UTF8_roundtrip : Prop :=
  forall v s, JSON_stringify v = Some s ->
    TextDecoder_decode (TextEncoder_encode s) = s.

Lemma decode_binary_frame (ty : Z) (bytes : list Z) :
  decode (Binary (ZAP_MAGIC ++ [ty] ++ bytes)) =
  bind (parse_json JSON_parse (TextDecoder_decode bytes))
       (fun payload => Ok (mkFrame (VNum ty) payload)).
Proof. reflexivity. Qed.

(** C2.  Codec round trip: for each of the seven frame types and every
    JSON value [data], [decode (encode type data)] returns the frame
    [{type, payload := data}], for a protocol constructed in binary mode
    and for one constructed in text mode. *)
Theorem decode_encode_roundtrip :
  JSON_roundtrip -> UTF8_roundtrip ->
  forall (binary : bool) (ty : MessageType) (data : value),
    json_value data ->
    decode (encode binary ty data) = Ok (mkFrame (VNum (MessageType_code ty)) data).
Proof.
  intros Hjson Hutf binary ty data Hdata. destruct binary.
  - destruct (Hjson data Hdata) as (json & Hs & Hp).
    rewrite (encode_binary_layout _ _ _ _ _ Hs), decode_binary_frame.
    rewrite (Hutf _ _ Hs). unfold parse_json. by rewrite Hp.
  - assert (Hobj : json_value (VObj [("t", VNum (MessageType_code ty)); ("d", data)])).
    { simpl. split; [|tauto].
      repeat constructor; rewrite ?list_elem_of_In; simpl; [|tauto].
      intros [H|[]]. discriminate. }
    destruct (Hjson _ Hobj) as (json & Hs & Hp).
    unfold Codec.encode, Codec.decode. simpl negb. cbv iota.
    rewrite Hs. simpl default. unfold parse_json. rewrite Hp. reflexivity.
Qed.

(** C9.  Decode failure conditions: a binary frame whose first four
    bytes are not the magic tag (a frame shorter than four bytes
    included), and a text input that [JSON.parse] rejects, make [decode]
    throw an error of the protocol kind; it returns no frame. *)
Theorem decode_rejects_malformed :
  (forall arr : list Z,
      take 4 arr <> ZAP_MAGIC ->
      decode (Binary arr) = Throw (Error_new "Invalid ZAP message") /\
      is_protocol_error (Error_new "Invalid ZAP message") = true) /\
  (forall s : string,
      JSON_parse s = None ->
      exists e, decode (Text s) = Throw e /\
                err_name e = "SyntaxError" /\ is_protocol_error e = true).
Proof.
  split.
  - intros arr Hne. split; [|reflexivity]. unfold Codec.decode.
    destruct (magic_ok 0 4 arr) eqn:Hm; [|reflexivity].
    apply magic_ok_take in Hm. contradiction.
  - intros s Hs. eexists. unfold Codec.decode, parse_json. rewrite Hs.
    simpl. split; [reflexivity|]. split; reflexivity.
Qed.

(** C10, as the code has it.  Text-mode decode validates no shape: for
    every input that [JSON.parse] accepts with a value other than
    [null], [decode] returns [{type: parsed.t, payload: parsed.d}]
    without throwing; a missing [t] or [d], or a parsed value that is
    not an object, gives [undefined] in that field. *)
Theorem decode_text_no_validation (s : string) (parsed : value) :
  JSON_parse s = Some parsed ->
  parsed <> VNull -> parsed <> VUndefined ->
  exists t d,
    decode (Text s) = Ok (mkFrame t d) /\
    get parsed "t" = Ok t /\ get parsed "d" = Ok d /\
    (forall props, parsed = VObj props ->
       t = field props "t" /\ d = field props "d") /\
    ((forall props, parsed <> VObj props) -> t = VUndefined /\ d = VUndefined).
Proof.
  intros Hp Hnull Hundef. unfold Codec.decode, parse_json. rewrite Hp. simpl bind.
  destruct parsed; try contradiction; simpl;
    eexists _, _; (split; [reflexivity|]); (split; [reflexivity|]);
    (split; [reflexivity|]); split;
    try (intros ? [=]; subst; by split); try (intros; by split).
  intros H. exfalso. by eapply H.
Qed.

(** The parsed value [null] is the one JSON text on which text-mode
    decode throws: reading [parsed.t] is a [TypeError]. *)
Lemma decode_text_null (s : string) :
  JSON_parse s = Some VNull ->
  decode (Text s) = Throw (TypeError "Cannot read properties of null or undefined").
Proof. intros Hp. unfold Codec.decode, parse_json. by rewrite Hp. Qed.

End Laws.

(** The reference platform satisfies the laws. *)
Lemma ref_JSON_roundtrip :
  JSON_roundtrip RefPlatform.JSON_stringify RefPlatform.JSON_parse.
Proof. intros v Hv. by apply RefPlatformFacts.JSON_parse_stringify. Qed.

Lemma ref_UTF8_roundtrip :
  UTF8_roundtrip RefPlatform.JSON_stringify RefPlatform.TextEncoder_encode
                 RefPlatform.TextDecoder_decode.
Proof. intros v s _. apply RefPlatformFacts.TextDecoder_TextEncoder. Qed.

Abbreviation ref_encode :=
  (encode RefPlatform.JSON_stringify RefPlatform.TextEncoder_encode).
Abbreviation ref_decode :=
  (decode RefPlatform.JSON_parse RefPlatform.TextDecoder_decode).

(** The Request [{id: "r1", method: "tools/list"}]. *)
Definition sample_request : value :=
  VObj [("id", VStr "r1"); ("method", VStr "tools/list")].

Lemma sample_request_json : json_value sample_request.
Proof.
  simpl. split; [|tauto].
  repeat constructor; rewrite ?list_elem_of_In; simpl; [|tauto].
  intros [H|[]]. discriminate.
Qed.

Lemma decode_encode_roundtrip_witness :
  ref_decode (ref_encode true Request sample_request) = Ok (mkFrame (VNum 3) sample_request) /\
  ref_decode (ref_encode false Request sample_request) = Ok (mkFrame (VNum 3) sample_request).
Proof.
  split.
  - exact (decode_encode_roundtrip _ _ _ _ ref_JSON_roundtrip ref_UTF8_roundtrip
             true Request sample_request sample_request_json).
  - exact (decode_encode_roundtrip _ _ _ _ ref_JSON_roundtrip ref_UTF8_roundtrip
             false Request sample_request sample_request_json).
Defined.

(** The binary frame of the sample Request, byte for byte. *)
Example encode_binary_sample :
  ref_encode true Request sample_request =
  Binary ([0x5a; 0x41; 0x50; 0x01; 3] ++
          RefPlatform.TextEncoder_encode (RefPlatform.ser sample_request)).
Proof. reflexivity. Qed.

Lemma decode_rejects_malformed_witness :
  (ref_decode (Binary [0x5a; 0x41; 0x50; 0x02; 3; 110; 117; 108; 108]) =
     Throw (Error_new "Invalid ZAP message") /\
   is_protocol_error (Error_new "Invalid ZAP message") = true) /\
  (exists e, ref_decode (Text "{") = Throw e /\
             err_name e = "SyntaxError" /\ is_protocol_error e = true).
Proof.
  destruct (decode_rejects_malformed RefPlatform.JSON_parse RefPlatform.TextDecoder_decode)
    as [Hbinary Htext].
  split.
  - apply Hbinary. discriminate.
  - apply Htext. reflexivity.
Defined.

(** C10, as stated, fails on the well-formed JSON text [null]: decode
    throws a [TypeError] instead of returning [{type, payload}]. *)
Lemma decode_text_null_throws :
  RefPlatform.JSON_parse "null" = Some VNull /\
  ref_decode (Text "null") =
  Throw (TypeError "Cannot read properties of null or undefined").
Proof. split; reflexivity. Qed.

Lemma decode_text_no_validation_witness :
  exists t d,
    ref_decode (Text "{}") = Ok (mkFrame t d) /\
    get (VObj []) "t" = Ok t /\ get (VObj []) "d" = Ok d /\
    (forall props, VObj [] = VObj props ->
       t = field props "t" /\ d = field props "d") /\
    ((forall props, VObj [] <> VObj props) -> t = VUndefined /\ d = VUndefined).
Proof.
  apply (decode_text_no_validation RefPlatform.JSON_parse RefPlatform.TextDecoder_decode
           "{}" (VObj [])); [reflexivity|discriminate|discriminate].
Defined.

(** A type tag outside [MessageType] and a missing payload pass
    through. *)
Example decode_text_unknown_type :
  ref_decode (Text (RefPlatform.ser (VObj [("t", VNum 99)]))) =
  Ok (mkFrame (VNum 99) VUndefined).
Proof. reflexivity. Qed.

(** *** The wire format *)

Section Wire.

Variable JSON_stringify : value -> option string.
Variable JSON_parse : string -> option value.
Variable TextEncoder_encode : string -> list Z.
Variable TextDecoder_decode : list Z -> string.

#[local] Abbreviation encode := (encode JSON_stringify TextEncoder_encode).
#[local] Abbreviation decode := (decode JSON_parse TextDecoder_decode).

(** X1.  Binary wire layout.  For data that [JSON.stringify] accepts,
    the frame [encode] builds in binary mode is the four magic bytes,
    then the type code in one byte, then the UTF-8 bytes of the JSON
    text, and nothing else: its length is 5 plus the length of the
    text's encoding. *)
Theorem binary_frame_layout (ty : MessageType) (data : value) (json : string) :
  JSON_stringify data = Some json ->
  exists bytes,
    encode true ty data = Binary bytes /\
    take 4 bytes = ZAP_MAGIC /\
    bytes !! 4%nat = Some (MessageType_code ty) /\
    drop 5 bytes = TextEncoder_encode json /\
    length bytes = (5 + length (TextEncoder_encode json))%nat.
Proof.
  intros Hs. eexists. split; [exact (encode_binary_layout _ _ ty data json Hs)|].
  repeat split.
Qed.

(** X2.  What [decode] does with a binary frame, case by case.  A frame
    whose first four bytes are not the magic is "Invalid ZAP message"; a
    frame that is the magic alone has no type byte and reading it is a
    [RangeError]; every other frame is the magic, a type byte and a
    body, and the result is decided by [JSON.parse] of the decoded
    body: a frame with that byte as its type, whatever the byte is, or
    the [SyntaxError] of the parser. *)
Theorem decode_binary_cases (arr : list Z) :
  (take 4 arr <> ZAP_MAGIC /\
   decode (Binary arr) = Throw (Error_new "Invalid ZAP message")) \/
  (arr = ZAP_MAGIC /\
   exists e, decode (Binary arr) = Throw e /\ err_name e = "RangeError") \/
  (exists ty bytes,
     arr = ZAP_MAGIC ++ ty :: bytes /\
     decode (Binary arr) =
     match JSON_parse (TextDecoder_decode bytes) with
     | Some payload => Ok (mkFrame (VNum ty) payload)
     | None => Throw (SyntaxError "Unexpected token in JSON")
     end).
Proof.
  destruct (decide (take 4 arr = ZAP_MAGIC)) as [Hm|Hm].
  - right.
    assert (Harr : arr = ZAP_MAGIC ++ drop 4 arr) by (by rewrite <- Hm, take_drop).
    destruct (drop 4 arr) as [|ty bytes] eqn:Hd.
    + left. rewrite app_nil_r in Harr. split; [done|]. rewrite Harr.
      eexists. split; reflexivity.
    + right. exists ty, bytes. split; [done|]. rewrite Harr.
      change (ZAP_MAGIC ++ ty :: bytes) with (ZAP_MAGIC ++ [ty] ++ bytes).
      rewrite decode_binary_frame. unfold parse_json.
      by destruct (JSON_parse (TextDecoder_decode bytes)).
  - left. split; [done|]. unfold Codec.decode.
    destruct (magic_ok 0 4 arr) eqn:Hok; [|reflexivity].
    apply magic_ok_take in Hok. contradiction.
Qed.

(** X3.  The payload [undefined].  [JSON.stringify(undefined)] is
    [undefined], so in binary mode the frame is the magic and the type
    byte with an empty body, and [decode] of it throws the parser's
    [SyntaxError]; in text mode the property [d] is dropped from the
    text, and [decode] returns the frame with payload [undefined]. *)
Theorem undefined_payload_asymmetry (ty : MessageType) (text : string) :
  JSON_stringify VUndefined = None ->
  TextDecoder_decode [] = "" ->
  JSON_parse "" = None ->
  JSON_stringify (VObj [("t", VNum (MessageType_code ty)); ("d", VUndefined)]) = Some text ->
  JSON_parse text = Some (VObj [("t", VNum (MessageType_code ty))]) ->
  encode true ty VUndefined = Binary (ZAP_MAGIC ++ [MessageType_code ty]) /\
  decode (encode true ty VUndefined) = Throw (SyntaxError "Unexpected token in JSON") /\
  decode (encode false ty VUndefined) = Ok (mkFrame (VNum (MessageType_code ty)) VUndefined).
Proof.
  intros Hu Hd Hp Ht Hpt.
  assert (He : encode true ty VUndefined = Binary (ZAP_MAGIC ++ [MessageType_code ty])).
  { unfold Codec.encode. simpl negb. cbv iota. rewrite Hu. by destruct ty. }
  split; [exact He|]. split.
  - rewrite He. change (ZAP_MAGIC ++ [MessageType_code ty])
      with (ZAP_MAGIC ++ [MessageType_code ty] ++ []).
    rewrite decode_binary_frame. unfold parse_json. by rewrite Hd, Hp.
  - unfold Codec.encode, Codec.decode. simpl negb. cbv iota. rewrite Ht. simpl default.
    unfold parse_json. by rewrite Hpt.
Qed.

End Wire.

Lemma binary_frame_layout_witness :
  exists bytes,
    ref_encode true Request sample_request = Binary bytes /\
    take 4 bytes = ZAP_MAGIC /\
    bytes !! 4%nat = Some 3 /\
    drop 5 bytes = RefPlatform.TextEncoder_encode (RefPlatform.ser sample_request) /\
    length bytes = (5 + length (RefPlatform.TextEncoder_encode
                                  (RefPlatform.ser sample_request)))%nat.
Proof.
  exact (binary_frame_layout RefPlatform.JSON_stringify RefPlatform.TextEncoder_encode
           Request sample_request (RefPlatform.ser sample_request) eq_refl).
Defined.

Lemma undefined_payload_asymmetry_witness :
  ref_encode true Ping VUndefined = Binary [0x5a; 0x41; 0x50; 0x01; 6] /\
  ref_decode (ref_encode true Ping VUndefined) =
    Throw (SyntaxError "Unexpected token in JSON") /\
  ref_decode (ref_encode false Ping VUndefined) = Ok (mkFrame (VNum 6) VUndefined).
Proof.
  exact (undefined_payload_asymmetry
           RefPlatform.JSON_stringify RefPlatform.JSON_parse
           RefPlatform.TextEncoder_encode RefPlatform.TextDecoder_decode
           Ping (RefPlatform.ser (VObj [("t", VNum 6); ("d", VUndefined)]))
           eq_refl eq_refl eq_refl eq_refl eq_refl).
Defined.

End CodecFacts.

(* ===================================================================== *)
(** ** Facts: endpoint session *)
(* ===================================================================== *)

Module SessionFacts.
Import Js Session.

(** How a Response settles the request it answers. *)
Definition response_outcome (r : ZapResponse) : PromiseState :=
  match error r with
  | Some e => Rejected (ZapError (message e) (code e))
  | None => Fulfilled (result r)
  end.

Definition settled_by (r : ZapResponse) (pending : PendingRequest) : nat :=
  match error r with
  | Some _ => reject pending
  | None => resolve pending
  end.

Lemma handleResponse_hit (r : ZapResponse) (c : ZapClient) (pending : PendingRequest) :
  pendingRequests c !! id r = Some pending ->
  handleResponse r c =
  settle (settled_by r pending) (response_outcome r)
    (set_pendingRequests (delete (id r) (pendingRequests c))
       (clearTimeout (pr_timeout pending) c)).
Proof.
  intros H. unfold handleResponse, settled_by, response_outcome. rewrite H.
  by destruct (error r).
Qed.

Lemma handleResponse_miss (r : ZapResponse) (c : ZapClient) :
  pendingRequests c !! id r = None -> handleResponse r c = c.
Proof. intros H. unfold handleResponse. by rewrite H. Qed.

Lemma settle_promises (p : nat) (o : PromiseState) (c : ZapClient) :
  promises (settle p o c) =
  match promises c !! p with
  | Some Pending => <[p := o]> (promises c)
  | _ => promises c
  end.
Proof. unfold settle. destruct (promises c !! p) as [[]|]; reflexivity. Qed.

Lemma settle_frame (p : nat) (o : PromiseState) (c : ZapClient) :
  ws (settle p o c) = ws c /\ state (settle p o c) = state c /\
  pendingRequests (settle p o c) = pendingRequests c /\
  reconnectAttempts (settle p o c) = reconnectAttempts c /\
  reconnectTimeout (settle p o c) = reconnectTimeout c /\
  sockets (settle p o c) = sockets c /\ timers (settle p o c) = timers c /\
  emitted (settle p o c) = emitted c /\ clock (settle p o c) = clock c /\
  options (settle p o c) = options c /\ url (settle p o c) = url c.
Proof. unfold settle. destruct (promises c !! p) as [[]|]; repeat split. Qed.

(** C1.  Response correlation.  When the table holds an entry under the
    Response's id, [handleResponse] removes that entry, cancels its
    timer, and settles its promise: fulfilled with the Response's result,
    or rejected with a [ZapError] carrying the Response's error message
    and code.  Every other entry, promise and timer, and the rest of the
    session, stay as they were.  When the table holds no entry under the
    id, [handleResponse] changes nothing. *)
Theorem handleResponse_correlation (r : ZapResponse) (c : ZapClient) :
  (forall pending,
      pendingRequests c !! id r = Some pending ->
      let c' := handleResponse r c in
      pendingRequests c' = delete (id r) (pendingRequests c) /\
      timers c' = delete (pr_timeout pending) (timers c) /\
      (error r = None -> promises c !! resolve pending = Some Pending ->
       promises c' = <[resolve pending := Fulfilled (result r)]> (promises c)) /\
      (forall e, error r = Some e -> promises c !! reject pending = Some Pending ->
       exists err,
         promises c' = <[reject pending := Rejected err]> (promises c) /\
         err_name err = "ZapError" /\ err_message err = message e /\
         (code e <> VUndefined -> err_code err = code e)) /\
      (forall k, k <> id r -> pendingRequests c' !! k = pendingRequests c !! k) /\
      (forall q, q <> settled_by r pending -> promises c' !! q = promises c !! q) /\
      (forall t, t <> pr_timeout pending -> timers c' !! t = timers c !! t) /\
      state c' = state c /\ sockets c' = sockets c /\ emitted c' = emitted c /\
      reconnectAttempts c' = reconnectAttempts c) /\
  (pendingRequests c !! id r = None -> handleResponse r c = c).
Proof.
  split; [|apply handleResponse_miss].
  intros pending Hp c'. subst c'. rewrite (handleResponse_hit _ _ _ Hp).
  pose proof (settle_frame (settled_by r pending) (response_outcome r)
                (set_pendingRequests (delete (id r) (pendingRequests c))
                   (clearTimeout (pr_timeout pending) c)))
    as (_ & Hst & Hpr & Hra & _ & Hso & Hti & Hem & _).
  rewrite Hpr, Hti, Hst, Hso, Hem, Hra, settle_promises. simpl.
  repeat split.
  - intros He Hpend. unfold settled_by, response_outcome. by rewrite He, Hpend.
  - intros e He Hpend. unfold settled_by, response_outcome. rewrite He, Hpend.
    eexists. split; [reflexivity|]. simpl. repeat split.
    intros Hc. by destruct (code e).
  - intros k Hk. by rewrite lookup_delete_ne.
  - intros q Hq. destruct (promises c !! settled_by r pending) as [[]|]; try done.
    by rewrite lookup_insert_ne.
  - intros t Ht. by rewrite lookup_delete_ne.
Qed.

(** A timer fires no earlier than its deadline. *)
Lemma timer_not_early (t : nat) (ctor : option string) (c c' : ZapClient) (tm : Timer) :
  timers c !! t = Some tm -> step (TimerFires t ctor) c = Some c' ->
  deadline tm <= clock c.
Proof.
  intros Ht. simpl. rewrite Ht. destruct (Z.leb_spec (deadline tm) (clock c)); [done|discriminate].
Qed.

(** [scheduleReconnect] as a function of the counter, for a counter
    that is not negative (so [Math.pow] has a natural exponent).  The
    close handler of a Connected session with auto-reconnect and a
    stored address runs it.  Below the ceiling it increments the
    counter first and arms one timer for attempt [n] (the incremented
    counter) whose deadline is at least [reconnectInterval * 2^(n-1)]
    after now, and that timer cannot fire before its deadline; no error
    is emitted.  At the ceiling it arms no timer and emits the error
    event once. *)
Lemma scheduleReconnect_contract (c : ZapClient) :
  0 <= reconnectAttempts c ->
  let n := reconnectAttempts c + 1 in
  let interval := reconnectInterval (options c) in
  let c' := scheduleReconnect c in
  (state c = connected -> autoReconnect (options c) = true ->
   url_truthy (url c) = true ->
   ws_onclose c = scheduleReconnect (emit (EvDisconnect true) (set_state disconnected c))) /\
  (reconnectAttempts c < maxReconnectAttempts (options c) ->
   reconnectAttempts c' = n /\ state c' = reconnecting /\ emitted c' = emitted c /\
   exists t tm,
     reconnectTimeout c' = Some t /\ timers c' = <[t := tm]> (timers c) /\
     action tm = ReconnectTimer /\
     deadline tm = clock c + Z.max 0 (interval * 2 ^ (n - 1)) /\
     clock c + interval * 2 ^ (n - 1) <= deadline tm /\
     (forall ctor c1 c2, timers c1 !! t = Some tm ->
        step (TimerFires t ctor) c1 = Some c2 ->
        clock c + interval * 2 ^ (n - 1) <= clock c1)) /\
  (maxReconnectAttempts (options c) <= reconnectAttempts c ->
   timers c' = timers c /\ reconnectTimeout c' = reconnectTimeout c /\
   reconnectAttempts c' = reconnectAttempts c /\ state c' = state c /\
   emitted c' = emitted c ++ [EvError (ConnectionError "Max reconnect attempts reached")]) /\
  (forall generated,
     maxReconnectAttempts (options (new_client generated no_options)) = 5 /\
     reconnectInterval (options (new_client generated no_options)) = 1000).
Proof.
  intros Hnonneg n interval c'. subst n interval c'.
  split; [|split; [|split]].
  - intros Hst Hauto Hurl. unfold ws_onclose. rewrite Hst. simpl.
    by rewrite Hauto, Hurl.
  - intros Hbelow. unfold scheduleReconnect.
    destruct (Z.leb_spec (maxReconnectAttempts (options c)) (reconnectAttempts c));
      [lia|].
    simpl. split; [done|]. split; [done|]. split; [done|].
    eexists _, (mkTimer _ ReconnectTimer). repeat split; simpl; [lia|].
    intros ctor c1 c2 Ht Hstep.
    pose proof (timer_not_early _ _ _ _ _ Ht Hstep) as Hd. simpl in Hd. lia.
  - intros Hceiling. unfold scheduleReconnect.
    destruct (Z.leb_spec (maxReconnectAttempts (options c)) (reconnectAttempts c));
      [|lia].
    repeat split.
  - intros generated. split; reflexivity.
Qed.


Definition attempts_inv (c : ZapClient) : Prop :=
  0 <= reconnectAttempts c <= 1 /\ (state c = connected -> reconnectAttempts c = 0).

Lemma fold_reject_frame (e : JsError) (m : gmap string PendingRequest) (c : ZapClient) :
  let c' := map_fold (reject_pending e) c m in
  state c' = state c /\ reconnectAttempts c' = reconnectAttempts c /\
  pendingRequests c' = pendingRequests c /\ emitted c' = emitted c /\
  sockets c' = sockets c /\ ws c' = ws c.
Proof.
  apply (map_fold_weak_ind (fun c' _ =>
    state c' = state c /\ reconnectAttempts c' = reconnectAttempts c /\
    pendingRequests c' = pendingRequests c /\ emitted c' = emitted c /\
    sockets c' = sockets c /\ ws c' = ws c)); [done|].
  intros k pending m' r _ IH. unfold reject_pending.
  pose proof (settle_frame (reject pending) (Rejected e) (clearTimeout (pr_timeout pending) r))
    as (Hws & Hst & Hpr & Hra & _ & Hso & _ & Hem & _).
  rewrite Hws, Hst, Hpr, Hra, Hso, Hem. exact IH.
Qed.

Lemma close_frame (c : ZapClient) :
  state (close c) = disconnected /\ pendingRequests (close c) = ∅ /\
  reconnectAttempts (close c) = reconnectAttempts c.
Proof.
  unfold close. simpl. repeat split.
  match goal with |- reconnectAttempts (map_fold ?f ?b ?m) = _ =>
    pose proof (fold_reject_frame (ConnectionError "Connection closed") m b) as (_ & H & _)
  end.
  simpl in H. rewrite H. clear H.
  repeat case_match; reflexivity.
Qed.

Ltac settle_away :=
  repeat match goal with
  | |- context [settle ?p ?o ?c] =>
      let Hs := fresh in let Ha := fresh in
      pose proof (settle_frame p o c) as (_ & Hs & _ & Ha & _);
      rewrite ?Hs, ?Ha; clear Hs Ha
  end.

(** Reduce the projections of the session record, and nothing else. *)
Ltac proj_simpl :=
  cbn [ws options state serverInfo pendingRequests reconnectAttempts reconnectTimeout
       url sockets promises timers reconnect_waiters emitted clock fresh
       set_ws set_state set_serverInfo set_pendingRequests set_reconnectAttempts
       set_reconnectTimeout set_url set_sockets set_promises set_timers
       set_reconnect_waiters set_emitted set_clock set_fresh
       new_promise setTimeout clearTimeout emit fst snd].

Lemma connect_state (u : string) (ctor : option string) (c : ZapClient) :
  let c' := snd (connect u ctor c) in
  reconnectAttempts c' = reconnectAttempts c /\
  (state c' = connected -> state c = connected).
Proof.
  destruct (state c) eqn:Hs; destruct ctor; unfold connect; proj_simpl; rewrite Hs;
    proj_simpl; settle_away; proj_simpl; split; congruence.
Qed.

Lemma request_state (method : string) (params : value) (rid : string) (c : ZapClient) :
  let c' := snd (request method params rid c) in
  reconnectAttempts c' = reconnectAttempts c /\ state c' = state c.
Proof.
  unfold request, send. simpl. repeat case_match; simpl; settle_away; simpl; done.
Qed.

Lemma handleResponse_state (r : ZapResponse) (c : ZapClient) :
  reconnectAttempts (handleResponse r c) = reconnectAttempts c /\
  state (handleResponse r c) = state c.
Proof.
  unfold handleResponse. repeat case_match; simpl; settle_away; simpl; done.
Qed.

Ltac close_inv Hr Hc :=
  split; [ first [done | lia | rewrite Hc by congruence; lia]
         | first [done | discriminate | (intros ?; congruence)
                 | (intros ?; apply Hc; congruence) | (intros ?; lia)] ].

Lemma attempts_inv_step (e : Event) (c c' : ZapClient) :
  attempts_inv c -> step e c = Some c' -> attempts_inv c'.
Proof.
  unfold attempts_inv. intros [Hr Hc] Hstep. destruct e; simpl in Hstep.
  - injection Hstep as <-. destruct (connect_state u ctor c) as [-> H]. split; [done|]. intros ?%H. auto.
  - injection Hstep as <-. destruct (request_state method params rid c) as [-> ->]. done.
  - injection Hstep as <-. destruct (close_frame c) as (-> & _ & ->). split; [done|discriminate].
  - repeat case_match; try discriminate. injection Hstep as <-.
    unfold ws_onopen, send. simpl. repeat case_match; simpl; done.
  - repeat case_match; try discriminate. injection Hstep as <-.
    unfold ws_onmessage. destruct m; simpl.
    + destruct (accepted r); simpl; unfold resolve_connect; simpl;
        repeat case_match; simpl; settle_away; simpl; close_inv Hr Hc.
    + destruct (handleResponse_state r c) as [-> ->]. done.
    + done.
    + done.
  - repeat case_match; try discriminate; injection Hstep as <-;
    unfold ws_onerror; simpl; repeat case_match; simpl; settle_away; simpl;
      close_inv Hr Hc.
  - repeat case_match; try discriminate; injection Hstep as <-;
    unfold ws_onclose, scheduleReconnect; simpl.
    all: destruct (state c) eqn:Hs; simpl; repeat case_match; simpl; close_inv Hr Hc.
  - repeat case_match; try discriminate; injection Hstep as <-; subst.
    all: unfold run_timer; simpl; repeat case_match; simpl; settle_away; simpl;
      try close_inv Hr Hc.
    match goal with H : connect ?u ?k ?c0 = _ |- _ =>
      pose proof (connect_state u k c0) as [Ha Hb]; rewrite H in Ha, Hb
    end.
    simpl in Ha, Hb. rewrite Ha. split; [done|]. intros ?%Hb. auto.
  - case_match; [|discriminate]. injection Hstep as <-. done.
Qed.

Lemma reachable_attempts (c : ZapClient) : reachable c -> attempts_inv c.
Proof.
  induction 1 as [generated o | e c c' _ IH Hstep].
  - split; [simpl; lia | discriminate].
  - eapply attempts_inv_step; eauto.
Qed.

Lemma session_run_reachable (es : list Event) (c c' : ZapClient) :
  reachable c -> run es c = Some c' -> reachable c'.
Proof.
  revert c. induction es as [|e es IH]; intros c Hr Hrun; simpl in Hrun.
  - by injection Hrun as <-.
  - destruct (step e c) as [c1|] eqn:Hstep; [|discriminate].
    eapply IH; [|exact Hrun]. by eapply reach_step.
Qed.

(** The error event of [scheduleReconnect] at the ceiling. *)
Definition ceiling_error : Emitted :=
  EvError (ConnectionError "Max reconnect attempts reached").

Ltac settle_through :=
  repeat match goal with
  | |- context [settle ?p ?o ?c] =>
      let He := fresh in let Ho := fresh in
      pose proof (settle_frame p o c) as (_ & _ & _ & _ & _ & _ & _ & He & _ & Ho & _);
      rewrite ?He, ?Ho; clear He Ho
  end.

Lemma connect_emitted (u : string) (ctor : option string) (c : ZapClient) :
  emitted (snd (connect u ctor c)) = emitted c /\
  options (snd (connect u ctor c)) = options c.
Proof.
  destruct (state c) eqn:Hs; destruct ctor; unfold connect; proj_simpl; rewrite Hs;
    proj_simpl; settle_through; proj_simpl; done.
Qed.

Lemma request_emitted (method : string) (params : value) (rid : string) (c : ZapClient) :
  emitted (snd (request method params rid c)) = emitted c /\
  options (snd (request method params rid c)) = options c.
Proof.
  unfold request, send. simpl. repeat case_match; simpl; settle_through; simpl; done.
Qed.

Lemma handleResponse_emitted (r : ZapResponse) (c : ZapClient) :
  emitted (handleResponse r c) = emitted c /\ options (handleResponse r c) = options c.
Proof.
  unfold handleResponse. repeat case_match; simpl; settle_through; simpl; done.
Qed.

Lemma close_emitted (c : ZapClient) :
  emitted (close c) = emitted c /\ options (close c) = options c.
Proof.
  unfold close. proj_simpl.
  match goal with |- context [map_fold ?f ?b ?m] =>
    assert (H : emitted (map_fold f b m) = emitted b /\ options (map_fold f b m) = options b)
  end.
  { apply (map_fold_weak_ind (fun r _ => emitted r = emitted _ /\ options r = options _));
      [done|].
    intros k pending m' r _ [IH1 IH2]. unfold reject_pending. settle_through.
    unfold clearTimeout. proj_simpl. done. }
  destruct H as [-> ->]. repeat case_match; done.
Qed.

(** What one task of the loop emits: the ceiling error comes only from
    the close of the socket of a Connected session whose counter is at
    the ceiling. *)
Lemma step_emitted (e : Event) (c c' : ZapClient) :
  step e c = Some c' ->
  options c' = options c /\
  exists l, emitted c' = emitted c ++ l /\
    (In ceiling_error l ->
     state c = connected /\ maxReconnectAttempts (options c) <= reconnectAttempts c).
Proof.
  intros Hstep.
  assert (Hnone : forall x : ZapClient,
            emitted x = emitted c -> options x = options c ->
            options x = options c /\
            exists l, emitted x = emitted c ++ l /\
              (In ceiling_error l ->
               state c = connected /\ maxReconnectAttempts (options c) <= reconnectAttempts c)).
  { intros x He Ho. split; [done|]. exists []. rewrite app_nil_r. split; [done|]. by intros []. }
  destruct e; simpl in Hstep.
  - injection Hstep as <-. destruct (connect_emitted u ctor c). by apply Hnone.
  - injection Hstep as <-. destruct (request_emitted method params rid c). by apply Hnone.
  - injection Hstep as <-. destruct (close_emitted c). by apply Hnone.
  - repeat case_match; try discriminate. injection Hstep as <-.
    apply Hnone; unfold ws_onopen, send; simpl; repeat case_match; done.
  - repeat case_match; try discriminate. injection Hstep as <-.
    unfold ws_onmessage. destruct m.
    + split.
      { destruct (accepted r); unfold resolve_connect; proj_simpl;
          repeat case_match; proj_simpl; settle_through; done. }
      destruct (accepted r); unfold resolve_connect; proj_simpl.
      * repeat case_match; proj_simpl.
        -- exists [EvConnect r; EvReconnect 0]. rewrite <- app_assoc. split; [done|].
           intros [H'|[H'|[]]]; discriminate H'.
        -- exists [EvConnect r]. split; [done|]. intros [H'|[]]; discriminate H'.
        -- exists [EvConnect r]. split; [done|]. intros [H'|[]]; discriminate H'.
        -- exists [EvConnect r]. split; [done|]. intros [H'|[]]; discriminate H'.
        -- exists [EvConnect r]. split; [done|]. intros [H'|[]]; discriminate H'.
      * settle_through. proj_simpl. exists []. rewrite app_nil_r. split; [done|]. by intros [].
    + destruct (handleResponse_emitted r c). by apply Hnone.
    + split; [done|]. exists [EvStream payload]. split; [done|].
      intros [H'|[]]; discriminate H'.
    + by apply Hnone.
  - repeat case_match; try discriminate; injection Hstep as <-;
      unfold ws_onerror; proj_simpl; (split;
        [ repeat case_match; proj_simpl; settle_through; done
        | exists [EvError (ConnectionError "WebSocket error")]; split;
          [ repeat case_match; proj_simpl; settle_through; done
          | intros [H'|[]]; discriminate H' ] ]).
  - repeat case_match; try discriminate; injection Hstep as <-;
      unfold ws_onclose, scheduleReconnect; proj_simpl.
    all: (split; [repeat case_match; done|]).
    all: destruct (state c) eqn:Hs; simpl.
    all: repeat case_match; proj_simpl.
    all: try (eexists [_]; split; [reflexivity|]; intros [H'|[]]; discriminate H').
    all: exists [EvDisconnect true; ceiling_error]; rewrite <- app_assoc; split; [done|];
      intros _; split; [done|]; lia.
  - repeat case_match; try discriminate; injection Hstep as <-; subst.
    unfold run_timer. destruct (action _) as [p|rid method p|]; proj_simpl.
    + apply Hnone; proj_simpl; settle_through; done.
    + apply Hnone; proj_simpl; settle_through; done.
    + destruct (url c) as [u|] eqn:Hu; [|by apply Hnone].
      destruct (url_truthy (Some u)); [|by apply Hnone].
      unfold clearTimeout.
      match goal with |- context [connect u ctor ?c0] =>
        destruct (connect_emitted u ctor c0) as [He Ho];
        destruct (connect u ctor c0) as [p c1]
      end.
      apply Hnone; proj_simpl; simpl in He, Ho; done.
  - case_match; [|discriminate]. injection Hstep as <-. by apply Hnone.
Qed.

Lemma reachable_no_ceiling_error (c : ZapClient) :
  reachable c -> 1 <= maxReconnectAttempts (options c) -> ~ In ceiling_error (emitted c).
Proof.
  induction 1 as [generated o | e c c' Hr IH Hstep].
  - intros _ [].
  - destruct (step_emitted e c c' Hstep) as (Ho & l & He & Hl). rewrite Ho, He.
    intros Hmax [Hin|Hin]%in_app_iff; [by apply IH|].
    destruct (Hl Hin) as [Hst Hle].
    destruct (reachable_attempts c Hr) as [_ Hc]. rewrite (Hc Hst) in Hle. lia.
Qed.

(** The close of a socket runs the close handler on the session with
    that socket closed. *)
Lemma step_SockClose (s : nat) (c c' : ZapClient) :
  step (SockClose s) c = Some c' ->
  exists sock,
    sockets c !! s = Some sock /\
    c' = ws_onclose (set_sockets (<[s := set_readyState CLOSED sock]> (sockets c)) c).
Proof.
  simpl. destruct (sockets c !! s) as [sock|]; [|discriminate].
  intros H. exists sock. split; [done|].
  destruct (readyState sock); try discriminate; by injection H as <-.
Qed.

(** The reconnect timers of [c'] that [c] had already. *)
Definition no_new_reconnect_timer (c c' : ZapClient) : Prop :=
  forall t tm, timers c' !! t = Some tm -> action tm = ReconnectTimer ->
               timers c !! t = Some tm.

Lemma no_new_refl (c c' : ZapClient) :
  timers c' = timers c -> no_new_reconnect_timer c c'.
Proof. intros H t tm. by rewrite H. Qed.

Lemma no_new_delete (c c' : ZapClient) (t0 : nat) :
  timers c' = delete t0 (timers c) -> no_new_reconnect_timer c c'.
Proof. intros H t tm. rewrite H, lookup_delete. by case_decide. Qed.

Lemma no_new_insert (c c' : ZapClient) (t0 : nat) (tm0 : Timer) :
  timers c' = <[t0 := tm0]> (timers c) -> action tm0 <> ReconnectTimer ->
  no_new_reconnect_timer c c'.
Proof.
  intros H Hne t tm. rewrite H, lookup_insert. case_decide; [|done].
  intros [= <-] Ha. done.
Qed.

Lemma no_new_trans (c1 c2 c3 : ZapClient) :
  no_new_reconnect_timer c1 c2 -> no_new_reconnect_timer c2 c3 ->
  no_new_reconnect_timer c1 c3.
Proof. intros H1 H2 t tm Ht Ha. apply H1; [|done]. by apply H2. Qed.

Ltac settle_timers :=
  repeat match goal with
  | |- context [settle ?p ?o ?c] =>
      let Ht := fresh in
      pose proof (settle_frame p o c) as (_ & _ & _ & _ & _ & _ & Ht & _);
      rewrite ?Ht; clear Ht
  end.

Lemma connect_timers (u : string) (ctor : option string) (c : ZapClient) :
  no_new_reconnect_timer c (snd (connect u ctor c)).
Proof.
  destruct (state c) eqn:Hs; destruct ctor; unfold connect; proj_simpl; rewrite Hs;
    proj_simpl.
  all: first
    [ apply no_new_refl; settle_timers; proj_simpl; done
    | eapply no_new_insert; [settle_timers; proj_simpl; reflexivity|discriminate]
    | idtac ].
  all: intros t tm; settle_timers; proj_simpl;
    rewrite lookup_delete, lookup_insert; repeat case_decide; try done;
    intros [= <-]; done.
Qed.

Lemma request_timers (method : string) (params : value) (rid : string) (c : ZapClient) :
  no_new_reconnect_timer c (snd (request method params rid c)).
Proof.
  unfold request, send. proj_simpl.
  repeat case_match; proj_simpl.
  all: first
    [ apply no_new_refl; settle_timers; proj_simpl; done
    | eapply no_new_insert; [settle_timers; proj_simpl; reflexivity|discriminate] ].
Qed.

Lemma handleResponse_timers (r : ZapResponse) (c : ZapClient) :
  no_new_reconnect_timer c (handleResponse r c).
Proof.
  unfold handleResponse. repeat case_match; proj_simpl.
  all: first
    [ by apply no_new_refl
    | eapply no_new_delete; settle_timers; proj_simpl; reflexivity ].
Qed.

Lemma close_timers (c : ZapClient) : no_new_reconnect_timer c (close c).
Proof.
  unfold close. proj_simpl.
  match goal with |- context [map_fold ?f ?b ?m] =>
    assert (H : no_new_reconnect_timer b (map_fold f b m))
  end.
  { apply (map_fold_weak_ind (fun r _ => no_new_reconnect_timer _ r)); [by apply no_new_refl|].
    intros k pending m' r _ IH. eapply no_new_trans; [exact IH|].
    unfold reject_pending. eapply no_new_delete. settle_timers. reflexivity. }
  eapply no_new_trans; [|eapply no_new_trans; [exact H|by apply no_new_refl]].
  repeat case_match; first [by apply no_new_refl | by eapply no_new_delete].
Qed.

(** Only the close of the socket of a Connected session arms a
    reconnect timer. *)
Lemma step_reconnect_timer (e : Event) (c c' : ZapClient) :
  step e c = Some c' ->
  no_new_reconnect_timer c c' \/ ((exists s, e = SockClose s) /\ state c = connected).
Proof.
  intros Hstep. destruct e; simpl in Hstep.
  - injection Hstep as <-. left. apply connect_timers.
  - injection Hstep as <-. left. apply request_timers.
  - injection Hstep as <-. left. apply close_timers.
  - repeat case_match; try discriminate. injection Hstep as <-. left.
    apply no_new_refl. unfold ws_onopen, send. proj_simpl. repeat case_match; done.
  - repeat case_match; try discriminate. injection Hstep as <-. left.
    unfold ws_onmessage. destruct m.
    + destruct (accepted r); unfold resolve_connect; proj_simpl.
      * eapply no_new_delete. repeat case_match; proj_simpl; done.
      * eapply no_new_delete. settle_timers. done.
    + apply handleResponse_timers.
    + by apply no_new_refl.
    + by apply no_new_refl.
  - repeat case_match; try discriminate; injection Hstep as <-; left;
      unfold ws_onerror; proj_simpl;
      (eapply no_new_delete; repeat case_match; proj_simpl; settle_timers; done).
  - destruct (state c) eqn:Hs; [left|left| right; split; [by eexists|done] |left].
    all: repeat case_match; try discriminate; injection Hstep as <-;
      apply no_new_refl; unfold ws_onclose; proj_simpl; rewrite Hs; done.
  - repeat case_match; try discriminate; injection Hstep as <-; subst. left.
    unfold run_timer. destruct (action _) as [p|rid method p|]; proj_simpl.
    + eapply no_new_delete. settle_timers. done.
    + eapply no_new_delete. settle_timers. done.
    + assert (Hdel : no_new_reconnect_timer c (clearTimeout t c))
        by (by eapply no_new_delete).
      destruct (url c) as [u|] eqn:Hu; [|exact Hdel].
      destruct (url_truthy (Some u)); [|exact Hdel].
      eapply no_new_trans; [exact Hdel|].
      pose proof (connect_timers u ctor (clearTimeout t c)) as Hc.
      destruct (connect u ctor (clearTimeout t c)) as [p c1]. simpl in Hc.
      eapply no_new_trans; [exact Hc|]. by apply no_new_refl.
  - case_match; [|discriminate]. injection Hstep as <-. left. by apply no_new_refl.
Qed.

(** X27.  The reconnect schedule of a session.  [scheduleReconnect]
    runs only from the close handler of a Connected session, and there
    the attempt counter is 0: an accepted handshake resets it and
    nothing else increments it, so in every state a session reaches the
    counter is 0 or 1.  When the socket of a Connected session with
    auto-reconnect and a stored address closes: with a ceiling of at
    least 1 the counter is incremented to 1 first, the session is
    Reconnecting, and one timer is armed whose deadline is at least
    [reconnectInterval] (that is [reconnectInterval * 2^(1-1)]) after
    the close and which cannot fire before; no error is emitted.  With
    a ceiling of 0 or less no timer is armed and the error event is
    emitted once.  Any other close of a socket arms nothing and emits
    only [disconnect], and no other task of the event loop arms a
    reconnect timer.  So only first attempts are ever scheduled, and
    with a ceiling of at least 1 the ceiling error is never emitted,
    whatever the counter.  The default ceiling is 5 and the default
    interval 1000. *)
Theorem unexpected_close_schedule (c : ZapClient) :
  reachable c ->
  let interval := reconnectInterval (options c) in
  let ceiling := maxReconnectAttempts (options c) in
  (0 <= reconnectAttempts c <= 1 /\ (state c = connected -> reconnectAttempts c = 0)) /\
  (forall s c',
     step (SockClose s) c = Some c' ->
     (state c = connected -> autoReconnect (options c) = true ->
      url_truthy (url c) = true ->
      (1 <= ceiling ->
       reconnectAttempts c' = 1 /\ state c' = reconnecting /\
       emitted c' = emitted c ++ [EvDisconnect true] /\
       exists t tm,
         reconnectTimeout c' = Some t /\ timers c' = <[t := tm]> (timers c) /\
         action tm = ReconnectTimer /\
         deadline tm = clock c + Z.max 0 interval /\
         clock c + interval <= deadline tm /\
         (forall ctor c1 c2, timers c1 !! t = Some tm ->
            step (TimerFires t ctor) c1 = Some c2 ->
            clock c + interval <= clock c1)) /\
      (ceiling <= 0 ->
       reconnectAttempts c' = 0 /\ state c' = disconnected /\
       timers c' = timers c /\ reconnectTimeout c' = reconnectTimeout c /\
       emitted c' = emitted c ++ [EvDisconnect true; ceiling_error])) /\
     (state c <> connected \/ autoReconnect (options c) = false \/
      url_truthy (url c) = false ->
      reconnectAttempts c' = reconnectAttempts c /\ state c' = disconnected /\
      timers c' = timers c /\ reconnectTimeout c' = reconnectTimeout c /\
      emitted c' = emitted c ++ [EvDisconnect (ConnectionState_eqb (state c) connected)])) /\
  (forall e c',
     step e c = Some c' ->
     no_new_reconnect_timer c c' \/ ((exists s, e = SockClose s) /\ state c = connected)) /\
  (1 <= ceiling -> ~ In ceiling_error (emitted c)) /\
  (forall generated,
     maxReconnectAttempts (options (new_client generated no_options)) = 5 /\
     reconnectInterval (options (new_client generated no_options)) = 1000).
Proof.
  intros Hr interval ceiling. subst interval ceiling.
  pose proof (reachable_attempts c Hr) as Hinv.
  split; [exact Hinv|].
  split; [|split; [intros e c'; apply step_reconnect_timer
                  |split; [by apply reachable_no_ceiling_error|done]]].
  intros s c' (sock & Hsock & ->)%step_SockClose.
  set (c0 := set_sockets (<[s := set_readyState CLOSED sock]> (sockets c)) c).
  split.
  - intros Hst Hauto Hurl. destruct Hinv as [_ Hzero]. specialize (Hzero Hst).
    set (c1 := emit (EvDisconnect true) (set_state disconnected c0)).
    assert (Hclose : ws_onclose c0 = scheduleReconnect c1).
    { destruct (scheduleReconnect_contract c0) as (Hc0 & _).
      - unfold c0. proj_simpl. lia.
      - by apply Hc0. }
    rewrite Hclose.
    destruct (scheduleReconnect_contract c1) as (_ & Hbelow & Hat & _).
    { unfold c1, c0. proj_simpl. lia. }
    split.
    + intros Hmax.
      destruct Hbelow as (Hn & Hs' & Hem & t & tm & Ht & Htm & Hact & Hdl & Hlo & Hfire).
      { unfold c1, c0. proj_simpl. lia. }
      revert Hn Hs' Hem Ht Htm Hdl Hlo Hfire. unfold c1, c0. proj_simpl. rewrite Hzero.
      change (0 + 1 - 1) with 0. rewrite Z.pow_0_r, Z.mul_1_r.
      intros Hn Hs' Hem Ht Htm Hdl Hlo Hfire.
      split; [done|]. split; [done|]. split; [done|].
      exists t, tm. done.
    + intros Hmax. destruct Hat as (Ht & Hrt & Hn & Hs' & Hem).
      { unfold c1, c0. proj_simpl. lia. }
      rewrite Ht, Hrt, Hn, Hs', Hem. unfold c1, c0. proj_simpl.
      rewrite <- app_assoc. done.
  - intros Hnot. unfold ws_onclose, c0. proj_simpl.
    assert (Hcond : ConnectionState_eqb (state c) connected && autoReconnect (options c)
                    && url_truthy (url c) = false).
    { destruct Hnot as [Hst|[Ha|Hu]].
      - by destruct (state c).
      - rewrite Ha. by rewrite andb_false_r.
      - rewrite Hu. by rewrite andb_false_r. }
    rewrite Hcond. proj_simpl. done.
Qed.

(** The close handler of a session that is not Connected schedules
    nothing: it only records the state and emits the event. *)
Lemma ws_onclose_not_connected (c : ZapClient) :
  state c <> connected ->
  ws_onclose c = emit (EvDisconnect false) (set_state disconnected c).
Proof. intros H. unfold ws_onclose. by destruct (state c). Qed.

(** The close handler rejects nothing and removes nothing. *)
Lemma ws_onclose_keeps_pending (c : ZapClient) :
  pendingRequests (ws_onclose c) = pendingRequests c /\
  promises (ws_onclose c) = promises c.
Proof.
  unfold ws_onclose, scheduleReconnect. simpl. repeat case_match; done.
Qed.

Definition accept : HandshakeResponse :=
  mkHandshakeResponse true "c1" "1.0.0" ["tools"] None.

Definition session0 : ZapClient := new_client "ext-1" no_options.

Definition connected_trace : list Event :=
  [CallConnect "ws://localhost:9999" None; SockOpen 3;
   SockMessage 3 (MsgHandshakeResponse accept)].

(** C3, on the code.  A Connected session with one pending request
    whose transport closes ends in Reconnecting with the request still
    in the table and its promise still pending. *)
Theorem pending_survives_unexpected_close :
  exists c pending,
    run (connected_trace ++ [CallRequest "tools/list" VUndefined "r1"; SockClose 3])
        session0 = Some c /\
    state c = reconnecting /\
    pendingRequests c !! "r1" = Some pending /\
    promises c !! reject pending = Some Pending.
Proof.
  eexists _, _. split; [vm_compute; reflexivity|]. 
  split; [reflexivity|]. split; vm_compute; reflexivity.
Qed.

(** C5, on the code.  After the one reconnect attempt fails (error, then
    close, on the new socket) the session is Disconnected with no timer
    armed: nothing schedules a second attempt, and no ceiling error is
    emitted. *)
Theorem failed_reconnect_not_retried :
  exists c,
    run (connected_trace ++ [SockClose 3; Tick 1000; TimerFires 4 None;
                             SockError 7; SockClose 7])
        session0 = Some c /\
    state c = disconnected /\ timers c = ∅ /\ reconnectAttempts c = 1 /\
    emitted c = [EvConnect accept; EvDisconnect true;
                 EvError (ConnectionError "WebSocket error"); EvDisconnect false].
Proof.
  eexists. split; [vm_compute; reflexivity|].
  repeat split; vm_compute; reflexivity.
Qed.

(** The sibling path: [close()] rejects every pending request with
    "Connection closed", empties the table and ends Disconnected. *)
Lemma close_rejects_all (c : ZapClient) :
  state (close c) = disconnected /\ pendingRequests (close c) = ∅ /\
  (forall k pending,
     pendingRequests c !! k = Some pending ->
     promises c !! reject pending = Some Pending ->
     promises (close c) !! reject pending =
     Some (Rejected (ConnectionError "Connection closed"))).
Proof.
  destruct (close_frame c) as (Hst & Hpr & _). split; [done|]. split; [done|].
  unfold close. proj_simpl.
  set (e := ConnectionError "Connection closed").
  match goal with |- context [map_fold _ ?b _] => set (c1 := b) end.
  assert (Hm : pendingRequests c1 = pendingRequests c).
  { unfold c1. repeat case_match; reflexivity. }
  assert (Hp : promises c1 = promises c).
  { unfold c1. repeat case_match; reflexivity. }
  rewrite Hm. rewrite <- Hp. clear Hm Hp Hst Hpr.
  apply (map_fold_weak_ind (fun r (m : gmap string PendingRequest) =>
    (forall p, promises r !! p = promises c1 !! p \/
               promises r !! p = Some (Rejected e)) /\
    (forall k pending, m !! k = Some pending ->
       promises c1 !! reject pending = Some Pending ->
       promises r !! reject pending = Some (Rejected e)))).
  - split; [by left|]. intros k pending. by rewrite lookup_empty.
  - intros i x m r Hi [IH1 IH2]. unfold reject_pending.
    rewrite settle_promises. unfold clearTimeout. proj_simpl.
    destruct (promises r !! reject x) as [[]|] eqn:Hx; split.
    + intros p. destruct (decide (p = reject x)) as [->|Hne].
      * right. by rewrite lookup_insert_eq.
      * rewrite lookup_insert_ne by done. apply IH1.
    + intros k pending Hk Hpend. destruct (decide (reject pending = reject x)) as [->|Hne].
      * by rewrite lookup_insert_eq.
      * rewrite lookup_insert_ne by done.
        rewrite lookup_insert in Hk. case_decide; simplify_eq. by eapply IH2.
    + done.
    + intros k pending Hk Hpend. rewrite lookup_insert in Hk. case_decide; simplify_eq.
      * destruct (IH1 (reject pending)) as [H|H]; congruence.
      * by eapply IH2.
    + done.
    + intros k pending Hk Hpend. rewrite lookup_insert in Hk. case_decide; simplify_eq.
      * destruct (IH1 (reject pending)) as [H|H]; congruence.
      * by eapply IH2.
    + done.
    + intros k pending Hk Hpend. rewrite lookup_insert in Hk. case_decide; simplify_eq.
      * destruct (IH1 (reject pending)) as [H|H]; congruence.
      * by eapply IH2.
Qed.

(** A Connected session, and one with two requests in flight. *)
Definition connected_session : ZapClient :=
  default session0 (run connected_trace session0).

Definition two_pending : ZapClient :=
  default session0
    (run [CallRequest "tools/call" VNull "A"; CallRequest "tools/list" VNull "B"]
         connected_session).

Definition reply_B : ZapResponse := mkResponse "B" (VStr "result of B") None.

Definition reply_A : ZapResponse :=
  mkResponse "A" VUndefined
             (Some (mkResponseError (VNum (-32601)) "Method not found" None)).

(** Replying [B] settles the promise of [B] alone; a reply to [A]
    after the timeout of [A] fired changes nothing. *)
Lemma handleResponse_correlation_witness :
  pendingRequests two_pending !! "A" = Some (mkPending 4 4 5) /\
  pendingRequests two_pending !! "B" = Some (mkPending 6 6 7) /\
  pendingRequests (handleResponse reply_B two_pending) =
    delete "B" (pendingRequests two_pending) /\
  promises (handleResponse reply_B two_pending) =
    <[6%nat := Fulfilled (VStr "result of B")]> (promises two_pending) /\
  (exists err,
     promises (handleResponse reply_A two_pending) =
       <[4%nat := Rejected err]> (promises two_pending) /\
     err_message err = "Method not found" /\ err_code err = VNum (-32601)) /\
  (forall timed_out,
     run [Tick 30000; TimerFires 5 None] two_pending = Some timed_out ->
     handleResponse reply_A timed_out = timed_out).
Proof.
  assert (HA : pendingRequests two_pending !! "A" = Some (mkPending 4 4 5))
    by (vm_compute; reflexivity).
  assert (HB : pendingRequests two_pending !! "B" = Some (mkPending 6 6 7))
    by (vm_compute; reflexivity).
  split; [exact HA|]. split; [exact HB|].
  destruct (handleResponse_correlation reply_B two_pending) as [HhitB _].
  destruct (HhitB _ HB) as (Hdel & _ & Hres & _).
  split; [exact Hdel|]. split.
  { apply Hres; [reflexivity | vm_compute; reflexivity]. }
  destruct (handleResponse_correlation reply_A two_pending) as [HhitA _].
  destruct (HhitA _ HA) as (_ & _ & _ & Hrej & _).
  split.
  { destruct (Hrej _ eq_refl ltac:(vm_compute; reflexivity)) as (err & Herr & _ & Hmsg & Hcode).
    exists err. split; [exact Herr|]. split; [exact Hmsg|]. apply Hcode. discriminate. }
  intros timed_out Hrun.
  destruct (handleResponse_correlation reply_A timed_out) as [_ Hmiss].
  apply Hmiss. vm_compute in Hrun. injection Hrun as <-. vm_compute. reflexivity.
Defined.

(** A session whose ceiling is 1. *)
Definition ceiling_one : ZapClientOptions :=
  mkClientOptions None None None None None None (Some 1) None.

(** C4, on the code.  A session with a ceiling of 1 whose one reconnect
    attempt fails (its socket opens and closes, its connect times out):
    the counter has reached the ceiling, the session is Disconnected
    with nothing armed, and no error event has been emitted. *)
Theorem ceiling_reached_without_error :
  exists c,
    run (connected_trace ++ [SockClose 3; Tick 1000; TimerFires 4 None;
                             SockOpen 7; SockClose 7; Tick 30000; TimerFires 6 None])
        (new_client "ext-1" ceiling_one) = Some c /\
    reconnectAttempts c = 1 /\ maxReconnectAttempts (options c) = 1 /\
    state c = disconnected /\ timers c = ∅ /\
    emitted c = [EvConnect accept; EvDisconnect true; EvDisconnect false].
Proof.
  eexists. split; [vm_compute; reflexivity|].
  repeat split; vm_compute; reflexivity.
Qed.

Lemma connected_session_reachable : reachable connected_session.
Proof.
  apply (session_run_reachable connected_trace session0);
    [apply reach_new | vm_compute; reflexivity].
Qed.

Lemma unexpected_close_schedule_witness :
  exists c',
    step (SockClose 3) connected_session = Some c' /\
    reconnectAttempts connected_session = 0 /\
    reconnectAttempts c' = 1 /\ state c' = reconnecting /\
    emitted c' = emitted connected_session ++ [EvDisconnect true] /\
    exists t tm,
      reconnectTimeout c' = Some t /\ timers c' = <[t := tm]> (timers connected_session) /\
      action tm = ReconnectTimer /\ deadline tm = clock connected_session + 1000.
Proof.
  eexists. split; [vm_compute; reflexivity|].
  destruct (unexpected_close_schedule connected_session connected_session_reachable)
    as ((_ & Hzero) & Hclose & _).
  split; [apply Hzero; reflexivity|].
  destruct (Hclose 3%nat _ ltac:(vm_compute; reflexivity)) as (Hsched & _).
  destruct (Hsched eq_refl eq_refl eq_refl) as (Hbelow & _).
  destruct (Hbelow ltac:(vm_compute; discriminate))
    as (Hn & Hst & Hem & t & tm & Ht & Htm & Hact & Hdl & _).
  split; [exact Hn|]. split; [exact Hst|]. split; [exact Hem|].
  exists t, tm. split; [exact Ht|]. split; [exact Htm|]. split; [exact Hact|].
  rewrite Hdl. reflexivity.
Defined.

(** [scheduleReconnect] on counters that no session reaches: the third
    attempt would wait four intervals, and at the ceiling the error is
    emitted and nothing armed. *)
Example backoff_third_attempt :
  let c := set_reconnectAttempts 2 connected_session in
  exists tm, timers (scheduleReconnect c) !! fresh c = Some tm /\
             deadline tm = clock c + 4000.
Proof. eexists. split; vm_compute; reflexivity. Qed.

Example backoff_at_ceiling :
  let c := set_reconnectAttempts 5 connected_session in
  timers (scheduleReconnect c) = timers c /\
  emitted (scheduleReconnect c) =
  emitted c ++ [EvError (ConnectionError "Max reconnect attempts reached")].
Proof. split; vm_compute; reflexivity. Qed.

(** With a ceiling of 0 the first unexpected close is already at the
    ceiling: the run emits the error once and arms nothing. *)
Example ceiling_zero_run :
  let o := mkClientOptions None None None None None None (Some 0) None in
  exists c,
    run (connected_trace ++ [SockClose 3]) (new_client "ext-1" o) = Some c /\
    state c = disconnected /\ timers c = ∅ /\
    emitted c = [EvConnect accept; EvDisconnect true;
                 EvError (ConnectionError "Max reconnect attempts reached")].
Proof. eexists. split; [vm_compute; reflexivity|]. repeat split; vm_compute; reflexivity. Qed.

(** A reconnect attempt that succeeds emits [reconnect]. *)
Example reconnect_success_emits :
  exists c,
    run (connected_trace ++ [SockClose 3; Tick 1000; TimerFires 4 None;
                             SockOpen 7; SockMessage 7 (MsgHandshakeResponse accept)])
        session0 = Some c /\
    state c = connected /\
    emitted c = [EvConnect accept; EvDisconnect true; EvConnect accept; EvReconnect 0].
Proof. eexists. split; [vm_compute; reflexivity|]. split; vm_compute; reflexivity. Qed.

(** *** The methods of a session *)

(** X4.  The contract of [request].  The promise it returns is new.  On
    a session that is not connected it is rejected at once with
    [ConnectionError('Not connected')], and nothing is registered, sent
    or timed.  On a connected session the call registers one entry
    under the generated id, arms that entry's timer for the configured
    timeout, and sends exactly one Request frame, carrying that id, the
    method and the params, on the session's socket. *)
Theorem request_contract (method : string) (params : value) (rid : string)
  (c : ZapClient) :
  let p := fresh c in
  let c' := snd (request method params rid c) in
  fst (request method params rid c) = p /\
  (isConnected c = false ->
     promises c' = <[p := Rejected (ConnectionError "Not connected")]> (promises c) /\
     pendingRequests c' = pendingRequests c /\ sockets c' = sockets c /\
     timers c' = timers c /\ state c' = state c /\ emitted c' = emitted c) /\
  (isConnected c = true ->
     exists s sock,
       ws c = Some s /\ sockets c !! s = Some sock /\ readyState sock = OPEN /\
       sockets c' =
         <[s := mkSocket OPEN (ws_url sock)
                  (sent sock ++ [OutRequest (mkRequest rid method params)])
                  (ws_promise sock) (ws_timer sock)]> (sockets c) /\
       pendingRequests c' = <[rid := mkPending p p (S p)]> (pendingRequests c) /\
       timers c' =
         <[S p := mkTimer (clock c + Z.max 0 (timeout (options c)))
                    (RequestTimeout rid method p)]> (timers c) /\
       promises c' = <[p := Pending]> (promises c) /\
       state c' = connected).
Proof.
  intros p c'. subst p c'. unfold request, isConnected.
  destruct (state c) eqn:Hst; proj_simpl; rewrite Hst; simpl ConnectionState_eqb; cbv iota.
  1, 2, 4: (split; [reflexivity|]; split; [|discriminate]; intros _;
            unfold settle; proj_simpl; rewrite lookup_insert_eq; proj_simpl;
            rewrite insert_insert_eq; done).
  destruct (ws c) as [s|] eqn:Hws; proj_simpl.
  2: { split; [reflexivity|]. split; [|discriminate]. intros _.
       unfold settle; proj_simpl; rewrite lookup_insert_eq; proj_simpl;
            rewrite insert_insert_eq; done. }
  destruct (sockets c !! s) as [sock|] eqn:Hsock; proj_simpl.
  2: { split; [reflexivity|]. split; [|discriminate]. intros _.
       unfold settle; proj_simpl; rewrite lookup_insert_eq; proj_simpl;
            rewrite insert_insert_eq; done. }
  destruct (readyState sock) eqn:Hrs; simpl.
  1, 3, 4: (split; [reflexivity|]; split; [|discriminate]; intros _;
            unfold settle; proj_simpl; rewrite lookup_insert_eq; proj_simpl;
            rewrite insert_insert_eq; done).
  split; [reflexivity|]. split; [discriminate|]. intros _.
  exists s, sock. split; [done|]. split; [done|]. split; [done|].
  unfold send. proj_simpl. rewrite Hws, Hsock, Hrs. simpl. rewrite Hst. done.
Qed.


(** X5.  Expiry of a request.  The timer of a request fires no earlier
    than its deadline.  When it fires, the entry under the request's id
    is removed and the request's promise, if still pending, is rejected
    with [TimeoutError('Request timeout: <method>')]; no other promise
    changes, nothing is sent and the state stays.  A Response carrying
    that id that arrives afterwards changes nothing. *)
Theorem request_timeout_expiry (t : nat) (ctor : option string) (c c' : ZapClient)
  (d : Z) (rid method : string) (p : nat) :
  timers c !! t = Some (mkTimer d (RequestTimeout rid method p)) ->
  step (TimerFires t ctor) c = Some c' ->
  d <= clock c /\
  pendingRequests c' = delete rid (pendingRequests c) /\
  timers c' = delete t (timers c) /\
  (promises c !! p = Some Pending ->
   promises c' = <[p := Rejected (TimeoutError ("Request timeout: " +:+ method))]> (promises c)) /\
  (forall q, q <> p -> promises c' !! q = promises c !! q) /\
  sockets c' = sockets c /\ state c' = state c /\ emitted c' = emitted c /\
  (forall r, id r = rid -> handleResponse r c' = c').
Proof.
  intros Ht Hstep. pose proof (timer_not_early _ _ _ _ _ Ht Hstep) as Hd.
  simpl in Hd. split; [exact Hd|].
  simpl in Hstep. rewrite Ht in Hstep. simpl in Hstep.
  destruct (d <=? clock c); [|discriminate]. injection Hstep as <-.
  unfold run_timer.
  match goal with |- context [settle ?p ?o ?x] =>
    pose proof (settle_frame p o x) as (_ & Hst & Hpr & _ & _ & Hso & Hti & Hem & _);
    pose proof (settle_promises p o x) as Hpm
  end.
  rewrite Hst, Hpr, Hso, Hti, Hem, Hpm. proj_simpl.
  split; [done|]. split; [done|]. split; [by intros ->|]. split.
  { intros q Hq. destruct (promises c !! p) as [[]|]; try done.
    by rewrite lookup_insert_ne. }
  split; [done|]. split; [done|]. split; [done|].
  intros r Hr. apply handleResponse_miss. rewrite Hpr. proj_simpl.
  rewrite Hr. apply lookup_delete_eq.
Qed.

Lemma request_timeout_expiry_witness :
  exists c',
    step (TimerFires 5 None) (set_clock 30000 two_pending) = Some c' /\
    pendingRequests c' = delete "A" (pendingRequests (set_clock 30000 two_pending)) /\
    promises c' !! 4%nat = Some (Rejected (TimeoutError "Request timeout: tools/call")) /\
    handleResponse reply_A c' = c'.
Proof.
  eexists. split; [vm_compute; reflexivity|].
  destruct (request_timeout_expiry 5 None (set_clock 30000 two_pending) _
              30000 "A" "tools/call" 4
              ltac:(vm_compute; reflexivity) ltac:(vm_compute; reflexivity))
    as (_ & Hpr & _ & Hrej & _ & _ & _ & _ & Hlate).
  split; [exact Hpr|]. split.
  - rewrite Hrej by (vm_compute; reflexivity). apply lookup_insert_eq.
  - apply Hlate. reflexivity.
Defined.

Lemma fold_reject_timers (e : JsError) (m : gmap string PendingRequest) (c : ZapClient) :
  let c' := map_fold (reject_pending e) c m in
  reconnectTimeout c' = reconnectTimeout c /\
  (forall t, timers c' !! t = None \/ timers c' !! t = timers c !! t) /\
  (forall k pending, m !! k = Some pending -> timers c' !! pr_timeout pending = None).
Proof.
  apply (map_fold_weak_ind (fun c' (m : gmap string PendingRequest) =>
    reconnectTimeout c' = reconnectTimeout c /\
    (forall t, timers c' !! t = None \/ timers c' !! t = timers c !! t) /\
    (forall k pending, m !! k = Some pending -> timers c' !! pr_timeout pending = None))).
  - split; [done|]. split; [by right|]. intros k pending. by rewrite lookup_empty.
  - intros k pending m' r Hk (IH0 & IH1 & IH2). unfold reject_pending.
    pose proof (settle_frame (reject pending) (Rejected e) (clearTimeout (pr_timeout pending) r))
      as (_ & _ & _ & _ & Hrt & _ & Hti & _).
    rewrite Hrt, Hti. proj_simpl. split; [done|]. split.
    + intros t. destruct (decide (t = pr_timeout pending)) as [->|Hne].
      * left. apply lookup_delete_eq.
      * rewrite lookup_delete_ne by done. apply IH1.
    + intros k' pending' Hk'.
      destruct (decide (pr_timeout pending' = pr_timeout pending)) as [->|Hne].
      * apply lookup_delete_eq.
      * rewrite lookup_delete_ne by done.
        rewrite lookup_insert in Hk'. case_decide; simplify_eq. by eapply IH2.
Qed.

Lemma close_closed (c : ZapClient) :
  reconnectTimeout c = None -> ws c = None -> pendingRequests c = ∅ ->
  state c = disconnected -> close c = c.
Proof.
  destruct c. simpl. intros -> -> -> ->. unfold close. simpl.
  by rewrite map_fold_empty.
Qed.

(** [close] up to its loop over the table: the state [c1] in which the
    loop starts. *)
Lemma close_shape (c : ZapClient) :
  exists c1,
    close c = set_state disconnected (set_pendingRequests ∅
                (map_fold (reject_pending (ConnectionError "Connection closed")) c1
                          (pendingRequests c))) /\
    reconnectTimeout c1 = None /\ ws c1 = None /\ emitted c1 = emitted c /\
    (forall t, timers c1 !! t = None \/ timers c1 !! t = timers c !! t) /\
    (forall t, reconnectTimeout c = Some t -> timers c1 !! t = None) /\
    (forall s sock,
       ws c = Some s -> sockets c !! s = Some sock -> readyState sock <> CLOSED ->
       sockets c1 !! s = Some (set_readyState CLOSING sock)).
Proof.
  unfold close.
  destruct (reconnectTimeout c) as [t|] eqn:Hrt;
  destruct (ws c) as [s|] eqn:Hws; proj_simpl; rewrite ?Hws; proj_simpl;
  try (destruct (sockets c !! s) as [sock|] eqn:Hsock; [destruct (readyState sock) eqn:Hrs|]);
  proj_simpl; rewrite ?Hrt; eexists; (split; [reflexivity|]); proj_simpl;
  (split; [done|]); (split; [done|]); (split; [done|]); (split; [|split]);
  try (intros t'; destruct (decide (t' = t)) as [->|Hne];
       [left; apply lookup_delete_eq | right; by rewrite lookup_delete_ne]);
  try (intros t'; by right);
  try (intros t' [= <-]; apply lookup_delete_eq);
  try done;
  try (intros s' sock' [= <-] Hs' Hne; simplify_eq; try done; by rewrite lookup_insert_eq).
Qed.

(** X6.  Teardown by [close()].  After [close] the session is
    Disconnected with no socket, no reconnect timer and an empty table;
    every request that was in the table has its timer cancelled and its
    promise, if still pending, rejected with
    [ConnectionError('Connection closed')]; the reconnect timer the
    session had noted is cancelled; a socket that was not yet closed is
    closing.  No event is emitted, and closing twice is closing once. *)
Theorem close_teardown (c : ZapClient) :
  let c' := close c in
  state c' = disconnected /\ ws c' = None /\ reconnectTimeout c' = None /\
  pendingRequests c' = ∅ /\
  (forall k pending,
     pendingRequests c !! k = Some pending ->
     timers c' !! pr_timeout pending = None /\
     (promises c !! reject pending = Some Pending ->
      promises c' !! reject pending =
      Some (Rejected (ConnectionError "Connection closed")))) /\
  (forall t, reconnectTimeout c = Some t -> timers c' !! t = None) /\
  (forall s sock,
     ws c = Some s -> sockets c !! s = Some sock -> readyState sock <> CLOSED ->
     sockets c' !! s = Some (set_readyState CLOSING sock)) /\
  emitted c' = emitted c /\
  close c' = c'.
Proof.
  intros c'. subst c'.
  destruct (close_rejects_all c) as (Hst & Hpr & Hrej).
  destruct (close_shape c) as (c1 & Heq & Hrt1 & Hws1 & Hem1 & Hti1 & Hrtc & Hsock1).
  pose proof (fold_reject_frame (ConnectionError "Connection closed") (pendingRequests c) c1)
    as (_ & _ & _ & Hem & Hso & Hws).
  pose proof (fold_reject_timers (ConnectionError "Connection closed") (pendingRequests c) c1)
    as (Hrt & Hti & Hcleared).
  cbv zeta in Hem, Hso, Hws, Hrt, Hti, Hcleared.
  assert (Hws' : ws (close c) = None) by (rewrite Heq; proj_simpl; congruence).
  assert (Hrt' : reconnectTimeout (close c) = None) by (rewrite Heq; proj_simpl; congruence).
  split; [done|]. split; [done|]. split; [done|]. split; [done|]. split.
  { intros k pending Hk. split; [|by apply (Hrej k)].
    rewrite Heq. proj_simpl. by eapply Hcleared. }
  split.
  { intros t Ht. rewrite Heq. proj_simpl.
    destruct (Hti t) as [H|H]; [done|]. rewrite H. by apply Hrtc. }
  split.
  { intros s sock Hs Hsock Hne. rewrite Heq. proj_simpl. rewrite Hso. by eapply Hsock1. }
  split.
  { rewrite Heq. proj_simpl. congruence. }
  by apply close_closed.
Qed.

Lemma settle_new_promise (o : PromiseState) (c : ZapClient) :
  settle (fresh c) o (snd (new_promise c)) =
  set_promises (<[fresh c := o]> (promises c)) (set_fresh (S (fresh c)) c).
Proof.
  unfold settle, new_promise. proj_simpl. rewrite lookup_insert_eq. proj_simpl.
  by rewrite insert_insert_eq.
Qed.

Lemma connect_guard_eq (u : string) (ctor : option string) (c : ZapClient) :
  state c = connected \/ state c = connecting ->
  connect u ctor c =
  (fresh c, settle (fresh c) (Rejected (ConnectionError "Already connected or connecting"))
              (snd (new_promise c))).
Proof.
  intros Hst. unfold connect.
  change (new_promise c) with (fresh c, snd (new_promise c)). cbv iota.
  change (state (snd (new_promise c))) with (state c).
  by destruct Hst as [-> | ->].
Qed.

(** X7.  The guard of [connect].  On a session that is Connected or
    Connecting, [connect] returns a new promise rejected with
    [ConnectionError('Already connected or connecting')], and does
    nothing else: the stored address, the state, the socket and the
    timers are as before. *)
Theorem connect_guard (u : string) (ctor : option string) (c : ZapClient) :
  state c = connected \/ state c = connecting ->
  let p := fst (connect u ctor c) in
  let c' := snd (connect u ctor c) in
  p = fresh c /\
  promises c' =
    <[p := Rejected (ConnectionError "Already connected or connecting")]> (promises c) /\
  state c' = state c /\ url c' = url c /\ ws c' = ws c /\ sockets c' = sockets c /\
  timers c' = timers c /\ pendingRequests c' = pendingRequests c /\
  emitted c' = emitted c /\ reconnectAttempts c' = reconnectAttempts c.
Proof.
  intros Hst p c'. subst p c'.
  rewrite (connect_guard_eq u ctor c Hst), settle_new_promise.
  cbn [fst snd]. proj_simpl. done.
Qed.

Lemma connect_guard_witness :
  let c' := snd (connect "ws://localhost:9998" None connected_session) in
  fst (connect "ws://localhost:9998" None connected_session) = fresh connected_session /\
  promises c' !! fresh connected_session =
    Some (Rejected (ConnectionError "Already connected or connecting")) /\
  url c' = Some "ws://localhost:9999" /\ sockets c' = sockets connected_session.
Proof.
  intros c'. subst c'.
  destruct (connect_guard "ws://localhost:9998" None connected_session
              ltac:(left; reflexivity))
    as (Hp & Hpm & _ & Hurl & _ & Hso & _).
  split; [exact Hp|]. split.
  - rewrite Hpm, Hp. apply lookup_insert_eq.
  - split; [rewrite Hurl; reflexivity | exact Hso].
Defined.


Lemma connect_unguarded (u : string) (c : ZapClient) :
  state c <> connected -> state c <> connecting ->
  (snd (connect u None c) =
   set_ws (Some (S (S (fresh c))))
     (set_sockets (<[S (S (fresh c)) := mkSocket CONNECTING u [] (fresh c) (S (fresh c))]>
                     (sockets c))
       (set_fresh (S (S (S (fresh c))))
         (set_timers (<[S (fresh c) :=
                          mkTimer (clock c + Z.max 0 (timeout (options c)))
                                  (ConnectTimeout (fresh c))]> (timers c))
           (set_state connecting (set_url (Some u)
             (set_promises (<[fresh c := Pending]> (promises c)) c))))))) /\
  (forall e,
     snd (connect u (Some e) c) =
     set_promises (<[fresh c := Rejected (ConnectionError ("Failed to connect: " +:+ e))]>
                     (promises c))
       (set_state disconnected
         (set_timers (delete (S (fresh c)) (timers c))
           (set_fresh (S (S (fresh c))) (set_url (Some u) c))))).
Proof.
  intros Hnc Hng. split.
  - unfold connect. proj_simpl. destruct (state c); try done.
  - intros e. unfold connect. proj_simpl.
    destruct (state c); try done; proj_simpl; unfold settle; proj_simpl;
      rewrite lookup_insert_eq; proj_simpl; rewrite insert_insert_eq;
      unfold clearTimeout; proj_simpl; rewrite delete_insert_eq; reflexivity.
Qed.

(** X8.  The handshake sequence.  On a session that is neither
    Connected nor Connecting, [connect(url)], the socket's open event
    and a HandshakeResponse on it run as follows: one Handshake frame is
    sent, with version 1.0.0 and the client type, client id and
    capabilities of the options; the connect timer is cancelled; when
    the response accepts, the session is Connected with the response as
    its server info, the attempt counter 0, the promise fulfilled and
    [connect] emitted; when it does not, the session is Disconnected
    and the promise rejected with a [ConnectionError] carrying the
    server's error text, or 'Connection rejected' when there is none. *)
Theorem connect_handshake (u : string) (c : ZapClient) (r : HandshakeResponse) :
  state c <> connected -> state c <> connecting ->
  let p := fresh c in
  let t := S p in
  let s := S (S p) in
  exists c',
    run [CallConnect u None; SockOpen s; SockMessage s (MsgHandshakeResponse r)] c
      = Some c' /\
    sockets c' !! s =
      Some (mkSocket OPEN u
              [OutHandshake (mkHandshake "1.0.0" (clientType (options c))
                               (clientId (options c)) (capabilities (options c)))]
              p t) /\
    timers c' = delete t (timers c) /\ url c' = Some u /\ ws c' = Some s /\
    (accepted r = true ->
       state c' = connected /\ isConnected c' = true /\ serverInfo c' = Some r /\
       reconnectAttempts c' = 0 /\ promises c' !! p = Some (Fulfilled VUndefined) /\
       (existsb (Nat.eqb p) (reconnect_waiters c) = false ->
        emitted c' = emitted c ++ [EvConnect r])) /\
    (accepted r = false ->
       state c' = disconnected /\ isConnected c' = false /\
       serverInfo c' = serverInfo c /\ emitted c' = emitted c /\
       promises c' !! p =
         Some (Rejected (ConnectionError (default "Connection rejected" (hr_error r))))).
Proof.
  intros Hnc Hng p t s. subst p t s.
  destruct (connect_unguarded u c Hnc Hng) as [Hconn _].
  unfold run. unfold step at 1. rewrite Hconn. clear Hconn.
  unfold step at 1. proj_simpl. rewrite lookup_insert_eq. simpl readyState. cbv iota.
  unfold ws_onopen, send. proj_simpl. rewrite lookup_insert_eq. simpl is_open. cbv iota.
  proj_simpl. rewrite insert_insert_eq.
  unfold step. proj_simpl. rewrite insert_insert_eq, lookup_insert_eq. simpl is_open. cbv iota.
  eexists. split; [reflexivity|].
  unfold ws_onmessage. simpl ws_timer. simpl ws_promise.
  destruct (accepted r) eqn:Hacc; proj_simpl.
  - unfold resolve_connect. proj_simpl. rewrite lookup_insert_eq. proj_simpl.
    destruct (existsb (Nat.eqb (fresh c)) (reconnect_waiters c)) eqn:Hw; proj_simpl.
    all: split; [by rewrite lookup_insert_eq|].
    all: split; [by rewrite delete_insert_eq|].
    all: split; [done|]; split; [done|]; split; [|discriminate]; intros _.
    all: split; [done|]; split;
      [unfold isConnected; proj_simpl; by rewrite lookup_insert_eq|].
    all: split; [done|]; split; [done|]; split; [by rewrite lookup_insert_eq|].
    + discriminate.
    + done.
  - unfold settle. proj_simpl. rewrite lookup_insert_eq. proj_simpl.
    split; [by rewrite lookup_insert_eq|].
    split; [by rewrite delete_insert_eq|].
    split; [done|]. split; [done|]. split; [discriminate|]. intros _.
    split; [done|]. split; [done|]. split; [done|]. split; [done|].
    by rewrite lookup_insert_eq.
Qed.

Lemma connect_handshake_witness :
  exists c',
    run connected_trace session0 = Some c' /\
    state c' = connected /\ isConnected c' = true /\ reconnectAttempts c' = 0 /\
    promises c' !! 1%nat = Some (Fulfilled VUndefined) /\
    emitted c' = [EvConnect accept].
Proof.
  destruct (connect_handshake "ws://localhost:9999" session0 accept
              ltac:(discriminate) ltac:(discriminate))
    as (c' & Hrun & _ & _ & _ & _ & Hacc & _).
  destruct (Hacc eq_refl) as (Hst & Hic & _ & Hra & Hp & Hem).
  exists c'. split; [exact Hrun|]. split; [exact Hst|]. split; [exact Hic|].
  split; [exact Hra|]. split; [exact Hp|]. exact (Hem eq_refl).
Defined.

(** X9.  The connect timeout.  When the timer of a [connect] fires, the
    session becomes Disconnected and the promise of that [connect], if
    still pending, is rejected with [TimeoutError('Connection
    timeout')]; the socket is not closed and stays the session's
    socket.  So a HandshakeResponse that accepts, arriving on that
    socket afterwards, still makes the session Connected, while the
    promise stays rejected. *)
Theorem connect_timeout_keeps_socket (t : nat) (ctor : option string) (c c' : ZapClient)
  (d : Z) (p : nat) :
  timers c !! t = Some (mkTimer d (ConnectTimeout p)) ->
  promises c !! p = Some Pending ->
  step (TimerFires t ctor) c = Some c' ->
  d <= clock c /\ state c' = disconnected /\
  promises c' = <[p := Rejected (TimeoutError "Connection timeout")]> (promises c) /\
  sockets c' = sockets c /\ ws c' = ws c /\ pendingRequests c' = pendingRequests c /\
  (forall s sock r,
     sockets c !! s = Some sock -> readyState sock = OPEN -> accepted r = true ->
     exists c'',
       step (SockMessage s (MsgHandshakeResponse r)) c' = Some c'' /\
       state c'' = connected /\
       promises c'' !! p = Some (Rejected (TimeoutError "Connection timeout"))).
Proof.
  intros Ht Hp Hstep. pose proof (timer_not_early _ _ _ _ _ Ht Hstep) as Hd.
  simpl in Hd. split; [exact Hd|].
  simpl in Hstep. rewrite Ht in Hstep. simpl in Hstep.
  destruct (d <=? clock c); [|discriminate]. injection Hstep as <-.
  unfold run_timer, settle. proj_simpl. rewrite Hp. proj_simpl.
  split; [done|]. split; [done|]. split; [done|]. split; [done|]. split; [done|].
  intros s sock r Hsock Hopen Hacc. unfold step. proj_simpl.
  rewrite Hsock, Hopen. simpl is_open. cbv iota. eexists. split; [reflexivity|].
  unfold ws_onmessage. rewrite Hacc. unfold resolve_connect. proj_simpl.
  destruct (decide (ws_promise sock = p)) as [->|Hne].
  - rewrite lookup_insert_eq. proj_simpl. by rewrite lookup_insert_eq.
  - rewrite lookup_insert_ne by done.
    destruct (promises c !! ws_promise sock) as [[]|]; proj_simpl;
      repeat case_match; proj_simpl;
      rewrite ?(lookup_insert_ne _ (ws_promise sock)) by done;
      by rewrite lookup_insert_eq.
Qed.

Definition slow_handshake : list Event :=
  [CallConnect "ws://localhost:9999" None; SockOpen 3; Tick 30000].

Lemma connect_timeout_keeps_socket_witness :
  exists c c' c'',
    run slow_handshake session0 = Some c /\
    step (TimerFires 2 None) c = Some c' /\
    state c' = disconnected /\ sockets c' = sockets c /\
    step (SockMessage 3 (MsgHandshakeResponse accept)) c' = Some c'' /\
    state c'' = connected /\
    promises c'' !! 1%nat = Some (Rejected (TimeoutError "Connection timeout")).
Proof.
  eexists _, _. 
  assert (Hrun : run slow_handshake session0 =
                 Some (default session0 (run slow_handshake session0)))
    by (vm_compute; reflexivity).
  set (c := default session0 (run slow_handshake session0)) in *.
  assert (Hstep : step (TimerFires 2 None) c =
                  Some (default session0 (step (TimerFires 2 None) c)))
    by (vm_compute; reflexivity).
  destruct (connect_timeout_keeps_socket 2 None c _ 30000 1
              ltac:(vm_compute; reflexivity) ltac:(vm_compute; reflexivity) Hstep)
    as (_ & Hst & _ & Hso & _ & _ & Hlate).
  destruct (Hlate 3%nat _ accept ltac:(vm_compute; reflexivity) eq_refl eq_refl)
    as (c'' & Hmsg & Hst'' & Hp'').
  exists c''. split; [exact Hrun|]. split; [exact Hstep|]. split; [exact Hst|].
  split; [exact Hso|]. split; [exact Hmsg|]. split; [exact Hst''|]. exact Hp''.
Defined.

(** X10.  The attempt counter.  In every state a session reaches from
    its construction, the reconnect attempt counter is 0 or 1, and it is
    0 whenever the session is Connected. *)
Theorem reconnect_attempts_bounded (c : ZapClient) :
  reachable c ->
  0 <= reconnectAttempts c <= 1 /\ (state c = connected -> reconnectAttempts c = 0).
Proof.
  induction 1 as [generated o | e c c' _ IH Hstep].
  - split; [simpl; lia | discriminate].
  - exact (attempts_inv_step e c c' IH Hstep).
Qed.

Lemma reconnect_attempts_bounded_witness :
  exists c,
    run (connected_trace ++ [SockClose 3]) session0 = Some c /\
    state c = reconnecting /\ reconnectAttempts c = 1 /\
    0 <= reconnectAttempts c <= 1.
Proof.
  eexists. split; [vm_compute; reflexivity|]. split; [reflexivity|].
  split; [reflexivity|].
  refine (proj1 (reconnect_attempts_bounded _ _)).
  apply (session_run_reachable (connected_trace ++ [SockClose 3]) session0);
    [apply reach_new | vm_compute; reflexivity].
Defined.


(** X26.  A connect that fails.  On a session that is neither Connected
    nor Connecting: when [new WebSocket(url)] throws, [connect] rejects
    its promise with [ConnectionError('Failed to connect: <error>')],
    cancels its timer and leaves the session Disconnected with the
    address stored; when the socket reports an error and closes, the
    promise is rejected with [ConnectionError('WebSocket error')], the
    timer is cancelled, [error] and then [disconnect] with
    [wasConnected: false] are emitted, and the session ends
    Disconnected.  Neither arms a reconnect timer or changes the
    attempt counter: a failed [connect] is not retried. *)
Theorem connect_failure_paths (u : string) (c : ZapClient) :
  state c <> connected -> state c <> connecting ->
  let p := fresh c in
  let t := S p in
  let s := S (S p) in
  (forall e,
     let c' := snd (connect u (Some e) c) in
     promises c' = <[p := Rejected (ConnectionError ("Failed to connect: " +:+ e))]>
                      (promises c) /\
     state c' = disconnected /\ url c' = Some u /\ timers c' = delete t (timers c) /\
     sockets c' = sockets c /\ ws c' = ws c /\ emitted c' = emitted c /\
     reconnectAttempts c' = reconnectAttempts c) /\
  (exists c',
     run [CallConnect u None; SockError s; SockClose s] c = Some c' /\
     promises c' = <[p := Rejected (ConnectionError "WebSocket error")]> (promises c) /\
     state c' = disconnected /\ url c' = Some u /\ timers c' = delete t (timers c) /\
     emitted c' = emitted c ++ [EvError (ConnectionError "WebSocket error");
                                EvDisconnect false] /\
     reconnectAttempts c' = reconnectAttempts c /\
     reconnectTimeout c' = reconnectTimeout c /\
     (exists sock, sockets c' !! s = Some sock /\ readyState sock = CLOSED)).
Proof.
  intros Hnc Hng p t s. subst p t s.
  destruct (connect_unguarded u c Hnc Hng) as [Hconn Hthrow]. split.
  - intros e c'. subst c'. rewrite Hthrow. proj_simpl. done.
  - unfold run. unfold step at 1. rewrite Hconn. clear Hconn Hthrow.
    unfold step at 1. proj_simpl. rewrite lookup_insert_eq. simpl readyState. cbv iota.
    unfold ws_onerror. simpl ws_timer. simpl ws_promise. proj_simpl.
    unfold settle. proj_simpl. rewrite lookup_insert_eq. proj_simpl.
    unfold step. proj_simpl. rewrite lookup_insert_eq. simpl readyState. cbv iota.
    eexists. split; [reflexivity|].
    unfold ws_onclose. proj_simpl. simpl ConnectionState_eqb. cbv iota. simpl andb. cbv iota.
    proj_simpl.
    split; [by rewrite insert_insert_eq|]. split; [done|]. split; [done|].
    split; [by rewrite delete_insert_eq|]. split; [by rewrite <- app_assoc|].
    split; [done|]. split; [done|].
    eexists. rewrite lookup_insert_eq. split; reflexivity.
Qed.

Lemma connect_failure_paths_witness :
  exists c',
    run [CallConnect "ws://localhost:9999" None; SockError 3; SockClose 3] session0
      = Some c' /\
    promises c' !! 1%nat = Some (Rejected (ConnectionError "WebSocket error")) /\
    state c' = disconnected /\ timers c' = ∅ /\
    emitted c' = [EvError (ConnectionError "WebSocket error"); EvDisconnect false].
Proof.
  destruct (connect_failure_paths "ws://localhost:9999" session0
              ltac:(discriminate) ltac:(discriminate))
    as (_ & c' & Hrun & Hp & Hst & _ & Ht & Hem & _).
  exists c'. split; [exact Hrun|]. split; [rewrite Hp; apply lookup_insert_eq|].
  split; [exact Hst|]. split; [rewrite Ht; reflexivity|exact Hem].
Defined.

(** *** The request table *)

(** The invariant of the request table, over the five components it
    reads and a bound on deadlines. *)
Record table_inv (pr : gmap string PendingRequest) (pm : gmap nat PromiseState)
  (tm : gmap nat Timer) (so : gmap nat WebSocket) (fr : nat) (lim : Z) : Prop := {
  inv_promises : forall p st, pm !! p = Some st -> (p < fr)%nat;
  inv_timers : forall t x, tm !! t = Some x ->
    (t < fr)%nat /\
    match action x with
    | ConnectTimeout p | RequestTimeout _ _ p => (p < fr)%nat
    | ReconnectTimer => True
    end;
  inv_sockets : forall s sock, so !! s = Some sock ->
    (ws_promise sock < fr)%nat /\ (ws_timer sock < fr)%nat;
  inv_entry : forall k e, pr !! k = Some e ->
    reject e = resolve e /\ pm !! resolve e = Some Pending /\
    exists d m, tm !! pr_timeout e = Some (mkTimer d (RequestTimeout k m (resolve e))) /\
                d <= lim;
  inv_sock_entry : forall s sock k e, so !! s = Some sock -> pr !! k = Some e ->
    resolve e <> ws_promise sock /\ pr_timeout e <> ws_timer sock;
  inv_connect_timer : forall t x p k e,
    tm !! t = Some x -> action x = ConnectTimeout p -> pr !! k = Some e -> resolve e <> p;
  inv_request_timer : forall t x rid m p k e,
    tm !! t = Some x -> action x = RequestTimeout rid m p -> pr !! k = Some e ->
    resolve e = p -> k = rid
}.

Definition pending_inv (c : ZapClient) : Prop :=
  table_inv (pendingRequests c) (promises c) (timers c) (sockets c) (fresh c)
            (clock c + Z.max 0 (timeout (options c))).

Ltac lk :=
  repeat match goal with
  | H : <[_ := _]> _ !! _ = Some _ |- _ => rewrite lookup_insert in H; case_decide; simplify_eq
  | H : delete _ _ !! _ = Some _ |- _ => rewrite lookup_delete in H; case_decide; simplify_eq
  | H : ∅ !! _ = Some _ |- _ => by rewrite lookup_empty in H
  end.

Section Primitive.

Variables (pr : gmap string PendingRequest) (pm : gmap nat PromiseState)
  (tm : gmap nat Timer) (so : gmap nat WebSocket) (fr : nat) (lim : Z).
Hypothesis I : table_inv pr pm tm so fr lim.

Lemma inv_entry_promise_lt k e : pr !! k = Some e -> (resolve e < fr)%nat.
Proof. intros H. destruct (inv_entry _ _ _ _ _ _ I k e H) as (_ & Hp & _). by eapply inv_promises. Qed.

Lemma inv_entry_timer_lt k e : pr !! k = Some e -> (pr_timeout e < fr)%nat.
Proof.
  intros H. destruct (inv_entry _ _ _ _ _ _ I k e H) as (_ & _ & d & m & Ht & _).
  by destruct (inv_timers _ _ _ _ _ _ I _ _ Ht).
Qed.

Lemma inv_mono fr' lim' : (fr <= fr')%nat -> lim <= lim' -> table_inv pr pm tm so fr' lim'.
Proof.
  intros Hfr Hlim. destruct I as [A B C D E F G]. split; try done.
  - intros p st H. apply A in H. lia.
  - intros t x H. destruct (B t x H) as [H1 H2]. split; [lia|].
    destruct (action x); try done; lia.
  - intros s sock H. destruct (C s sock H). lia.
  - intros k e H. destruct (D k e H) as (H1 & H2 & d & m & H3 & H4).
    split; [done|]. split; [done|]. exists d, m. split; [done|lia].
Qed.

Lemma inv_alloc_promise st : table_inv pr (<[fr := st]> pm) tm so (S fr) lim.
Proof.
  pose proof inv_entry_promise_lt as Hlt.
  destruct I as [A B C D E F G]. split; try done.
  - intros p st' H. lk; [lia|]. apply A in H. lia.
  - intros t x H. destruct (B t x H) as [H1 H2]. split; [lia|].
    destruct (action x); try done; lia.
  - intros s sock H. destruct (C s sock H). lia.
  - intros k e H. destruct (D k e H) as (H1 & H2 & H3). split; [done|]. split; [|done].
    apply Hlt in H. rewrite lookup_insert_ne by lia. done.
Qed.

Lemma inv_settle_other p st :
  (forall k e, pr !! k = Some e -> resolve e <> p) -> is_Some (pm !! p) ->
  table_inv pr (<[p := st]> pm) tm so fr lim.
Proof.
  intros Hne [st0 Hin]. destruct I as [A B C D E F G]. split; try done.
  - intros q st' H. lk; eauto.
  - intros k e H. destruct (D k e H) as (H1 & H2 & H3). split; [done|]. split; [|done].
    rewrite lookup_insert_ne; [done|]. intros Heq. by eapply Hne.
Qed.

Lemma inv_alloc_reconnect_timer d :
  table_inv pr pm (<[fr := mkTimer d ReconnectTimer]> tm) so (S fr) lim.
Proof.
  pose proof inv_entry_timer_lt as Hlt.
  destruct I as [A B C D E F G]. split; try done.
  - intros p st' H. apply A in H. lia.
  - intros t x H. lk; [simpl; split; [lia|done]|].
    destruct (B t x H) as [H1 H2]. split; [lia|].
    destruct (action x); try done; lia.
  - intros s sock H. destruct (C s sock H). lia.
  - intros k e H. destruct (D k e H) as (H1 & H2 & d' & m & H3 & H4).
    split; [done|]. split; [done|]. exists d', m. split; [|done].
    apply Hlt in H. rewrite lookup_insert_ne by lia. done.
  - intros t x p k e H. lk; [done|]. by eapply F.
  - intros t x rid m p k e H. lk; [done|]. by eapply G.
Qed.

Lemma inv_clear_timer t :
  (forall k e, pr !! k = Some e -> pr_timeout e <> t) ->
  table_inv pr pm (delete t tm) so fr lim.
Proof.
  intros Hne. destruct I as [A B C D E F G]. split; try done.
  - intros t' x H. lk. eauto.
  - intros k e H. destruct (D k e H) as (H1 & H2 & d' & m & H3 & H4).
    split; [done|]. split; [done|]. exists d', m. split; [|done].
    rewrite lookup_delete_ne; [done|]. intros Heq. by eapply Hne.
  - intros t' x p k e H. lk. by eapply F.
  - intros t' x rid m p k e H. lk. by eapply G.
Qed.

Lemma inv_socket_update so' :
  (forall s sock', so' !! s = Some sock' ->
     exists sock, so !! s = Some sock /\
       ws_promise sock' = ws_promise sock /\ ws_timer sock' = ws_timer sock) ->
  table_inv pr pm tm so' fr lim.
Proof.
  intros Hso. destruct I as [A B C D E F G]. split; try done.
  - intros s sock' H. destruct (Hso s sock' H) as (sock & H1 & -> & ->). eauto.
  - intros s sock' k e H. destruct (Hso s sock' H) as (sock & H1 & -> & ->). eauto.
Qed.

Lemma inv_delete_entry k : table_inv (delete k pr) pm tm so fr lim.
Proof.
  destruct I as [A B C D E F G]. split; try done.
  - intros k' e H. lk. eauto.
  - intros s sock k' e Hs H. lk. eauto.
  - intros t x p k' e Ht Ha H. lk. eauto.
  - intros t x rid m p k' e Ht Ha H. lk. eauto.
Qed.

Lemma inv_empty_table pm' tm' so' :
  (forall p st, pm' !! p = Some st -> is_Some (pm !! p)) ->
  (forall t x, tm' !! t = Some x -> tm !! t = Some x) ->
  (forall s sock', so' !! s = Some sock' ->
     exists sock, so !! s = Some sock /\
       ws_promise sock' = ws_promise sock /\ ws_timer sock' = ws_timer sock) ->
  table_inv ∅ pm' tm' so' fr lim.
Proof.
  intros Hpm Htm Hso. destruct I as [A B C D E F G]. split.
  - intros p st H. destruct (Hpm p st H) as [st' H']. eauto.
  - intros t x H. eauto.
  - intros s sock' H. destruct (Hso s sock' H) as (sock & H1 & -> & ->). eauto.
  - intros k e H. lk.
  - intros s sock k e _ H. lk.
  - intros t x p k e _ _ H. lk.
  - intros t x rid m p k e _ _ H. lk.
Qed.

(** [connect] past its guard, with a socket. *)
Lemma inv_connect_new d rs u sent0 :
  table_inv pr (<[fr := Pending]> pm)
    (<[S fr := mkTimer d (ConnectTimeout fr)]> tm)
    (<[S (S fr) := mkSocket rs u sent0 fr (S fr)]> so) (S (S (S fr))) lim.
Proof.
  pose proof inv_entry_timer_lt as Hlt. pose proof inv_entry_promise_lt as Hlp.
  destruct I as [A B C D E F G]. split.
  - intros p st' H. lk; [lia|]. apply A in H. lia.
  - intros t x H. lk; [simpl; lia|].
    destruct (B t x H) as [H1 H2]. split; [lia|].
    destruct (action x); try done; lia.
  - intros s sock' H. lk; [simpl; lia|]. destruct (C s sock' H). lia.
  - intros k e H. destruct (D k e H) as (H1 & H2 & d' & m & H3 & H4).
    split; [done|]. pose proof (Hlt _ _ H). pose proof (Hlp _ _ H).
    rewrite !lookup_insert_ne by lia. split; [done|]. by exists d', m.
  - intros s sock' k e Hs H. pose proof (Hlt _ _ H). pose proof (Hlp _ _ H).
    lk; [simpl; lia|]. eauto.
  - intros t x p k e Ht Ha H. pose proof (Hlp _ _ H). lk.
    + simpl in Ha. simplify_eq. lia.
    + by eapply F.
  - intros t x rid m p k e Ht Ha H. lk; try done. by eapply G.
Qed.

(** [request] on a connected session. *)
Lemma inv_request rid method d :
  d <= lim ->
  table_inv (<[rid := mkPending fr fr (S fr)]> pr) (<[fr := Pending]> pm)
    (<[S fr := mkTimer d (RequestTimeout rid method fr)]> tm) so (S (S fr)) lim.
Proof.
  intros Hd.
  pose proof inv_entry_timer_lt as Hlt. pose proof inv_entry_promise_lt as Hlp.
  destruct I as [A B C D E F G]. split.
  - intros p st' H. lk; [lia|]. apply A in H. lia.
  - intros t x H. lk; [simpl; lia|].
    destruct (B t x H) as [H1 H2]. split; [lia|].
    destruct (action x); try done; lia.
  - intros s sock' H. destruct (C s sock' H). lia.
  - intros k e H. lk.
    + simpl. split; [done|]. rewrite lookup_insert_eq. split; [done|].
      rewrite lookup_insert_eq. by exists d, method.
    + destruct (D k e H) as (H1 & H2 & d' & m & H3 & H4).
      split; [done|]. pose proof (Hlt _ _ H). pose proof (Hlp _ _ H).
      rewrite !lookup_insert_ne by lia. split; [done|]. by exists d', m.
  - intros s sock' k e Hs H. destruct (C s sock' Hs). lk; [simpl; lia|]. eauto.
  - intros t x p k e Ht Ha H. lk; simpl in *; simplify_eq; try done;
      try (destruct (B t x Ht) as [_ Hb]; rewrite Ha in Hb; simpl in *; lia);
      by eapply F.
  - intros t x rid' m p k e Ht Ha H Hp. lk; simpl in *; simplify_eq; try done;
      try (destruct (B t x Ht) as [_ Hb]; rewrite Ha in Hb; simpl in *; lia);
      try (pose proof (Hlp _ _ H); lia);
      by eapply G.
Qed.

End Primitive.


Lemma pending_inv_settle (p : nat) (st : PromiseState) (c : ZapClient) :
  pending_inv c ->
  (forall k e, pendingRequests c !! k = Some e -> resolve e <> p) ->
  pending_inv (settle p st c).
Proof.
  intros I Hne. unfold settle. destruct (promises c !! p) as [[]|] eqn:Hp; try done.
  unfold pending_inv. proj_simpl. apply inv_settle_other; [done|done|by eexists].
Qed.

Lemma pending_inv_resolve_connect (p : nat) (c : ZapClient) :
  pending_inv c ->
  (forall k e, pendingRequests c !! k = Some e -> resolve e <> p) ->
  pending_inv (resolve_connect p c).
Proof.
  intros I Hne. unfold resolve_connect. destruct (promises c !! p) as [[]|] eqn:Hp; try done.
  proj_simpl. case_match; unfold pending_inv; proj_simpl;
    (apply inv_settle_other; [done|done|by eexists]).
Qed.

Lemma pending_inv_connect (u : string) (ctor : option string) (c : ZapClient) :
  pending_inv c -> pending_inv (snd (connect u ctor c)).
Proof.
  intros I.
  assert (Hfresh : forall k e, pendingRequests c !! k = Some e -> resolve e <> fresh c).
  { intros k e H. pose proof (inv_entry_promise_lt _ _ _ _ _ _ I k e H). lia. }
  assert (Hguard : forall e,
    pending_inv (settle (fresh c) (Rejected e)
                   (set_fresh (S (fresh c))
                      (set_promises (<[fresh c := Pending]> (promises c)) c)))).
  { intros e. apply pending_inv_settle; [|done].
    unfold pending_inv. proj_simpl. by apply inv_alloc_promise. }
  destruct (state c) eqn:Hs; destruct ctor as [e|]; unfold connect; proj_simpl;
    rewrite Hs; proj_simpl; try apply Hguard.
  all: try (unfold pending_inv; proj_simpl; by apply inv_connect_new).
  all: apply pending_inv_settle; [|done]; unfold pending_inv; proj_simpl.
  all: rewrite delete_insert_eq; apply inv_clear_timer;
    [ eapply inv_mono; [by apply inv_alloc_promise | lia | lia]
    | intros k e' H; pose proof (inv_entry_timer_lt _ _ _ _ _ _ I k e' H); lia ].
Qed.

Lemma pending_inv_request (method : string) (params : value) (rid : string)
  (c : ZapClient) :
  pending_inv c -> pending_inv (snd (request method params rid c)).
Proof.
  intros I. unfold request. proj_simpl. unfold isConnected. proj_simpl.
  destruct (ConnectionState_eqb (state c) connected && _) eqn:Hc; simpl negb; cbv iota.
  - proj_simpl. unfold send. proj_simpl.
    assert (J := inv_request _ _ _ _ _ _ I rid method
                   (clock c + Z.max 0 (timeout (options c))) ltac:(lia)).
    repeat case_match; unfold pending_inv; proj_simpl; try exact J.
    eapply inv_socket_update; [exact J|]. intros s' sock' Hlk. lk; eauto.
  - proj_simpl. apply pending_inv_settle.
    + unfold pending_inv. proj_simpl. by apply inv_alloc_promise.
    + intros k e H. pose proof (inv_entry_promise_lt _ _ _ _ _ _ I k e H). proj_simpl. lia.
Qed.

Lemma fold_reject_store (e : JsError) (m : gmap string PendingRequest) (c : ZapClient) :
  let c' := map_fold (reject_pending e) c m in
  fresh c' = fresh c /\ clock c' = clock c /\ options c' = options c /\
  (forall p st, promises c' !! p = Some st -> is_Some (promises c !! p)) /\
  (forall t x, timers c' !! t = Some x -> timers c !! t = Some x).
Proof.
  apply (map_fold_weak_ind (fun c' (_ : gmap string PendingRequest) =>
    fresh c' = fresh c /\ clock c' = clock c /\ options c' = options c /\
    (forall p st, promises c' !! p = Some st -> is_Some (promises c !! p)) /\
    (forall t x, timers c' !! t = Some x -> timers c !! t = Some x))).
  - split; [done|]. split; [done|]. split; [done|]. split; [by eexists|done].
  - intros k pending m' r _ (IH1 & IH2 & IH3 & IH4 & IH5). unfold reject_pending, settle.
    proj_simpl.
    destruct (promises r !! reject pending) as [[]|] eqn:Hp; proj_simpl.
    all: split; [done|]; split; [done|]; split; [done|]; split.
    all: try (intros t x H; lk; eauto).
    all: intros p st H; lk; eauto.
Qed.

Lemma pending_inv_close (c : ZapClient) : pending_inv c -> pending_inv (close c).
Proof.
  intros I. unfold close.
  match goal with |- context [map_fold ?f ?b ?m] =>
    pose proof (fold_reject_store (ConnectionError "Connection closed") m b)
      as (Hfr & Hcl & Hop & Hpm & Htm);
    pose proof (fold_reject_frame (ConnectionError "Connection closed") m b)
      as (_ & _ & _ & _ & Hso & _);
    set (c1 := b) in *
  end.
  cbv zeta in Hfr, Hcl, Hop, Hpm, Htm, Hso.
  unfold pending_inv. proj_simpl. rewrite Hfr, Hcl, Hop, Hso.
  assert (H1 : fresh c1 = fresh c /\ clock c1 = clock c /\ options c1 = options c /\
               promises c1 = promises c).
  { unfold c1. repeat case_match; done. }
  destruct H1 as (-> & -> & -> & Hp1).
  eapply inv_empty_table; [exact I| | |].
  - intros p st H. rewrite <- Hp1. eauto.
  - intros t x H. apply Htm in H. revert H. unfold c1.
    repeat case_match; proj_simpl; intros Hlk; lk; done.
  - intros s sock' H. revert H. unfold c1.
    repeat case_match; proj_simpl; intros Hlk; lk; eauto.
Qed.

Lemma pending_inv_handleResponse (r : ZapResponse) (c : ZapClient) :
  pending_inv c -> pending_inv (handleResponse r c).
Proof.
  intros I. unfold handleResponse.
  destruct (pendingRequests c !! id r) as [pending|] eqn:Hp; [|done].
  destruct (inv_entry _ _ _ _ _ _ I _ _ Hp) as (Hrej & Hpend & d & m & Ht & _).
  assert (J : pending_inv (set_pendingRequests (delete (id r) (pendingRequests c))
                             (clearTimeout (pr_timeout pending) c))).
  { unfold pending_inv. proj_simpl. apply inv_clear_timer; [by apply inv_delete_entry|].
    intros k e H Heq. lk.
    destruct (inv_entry _ _ _ _ _ _ I _ _ H) as (_ & _ & d' & m' & Ht' & _).
    rewrite Heq in Ht'. congruence. }
  assert (Hne : forall k e,
    delete (id r) (pendingRequests c) !! k = Some e -> resolve e <> resolve pending).
  { intros k e H Heq. lk.
    pose proof (inv_request_timer _ _ _ _ _ _ I _ _ _ _ _ _ _ Ht eq_refl H Heq). done. }
  proj_simpl. destruct (error r); [rewrite Hrej|]; by apply pending_inv_settle.
Qed.

Lemma pending_inv_step (e : Event) (c c' : ZapClient) :
  pending_inv c -> step e c = Some c' -> pending_inv c'.
Proof.
  intros I Hstep. destruct e; simpl in Hstep.
  - injection Hstep as <-. by apply pending_inv_connect.
  - injection Hstep as <-. by apply pending_inv_request.
  - injection Hstep as <-. by apply pending_inv_close.
  - destruct (sockets c !! s) as [sock|] eqn:Hs; [|done].
    destruct (readyState sock); try done. injection Hstep as <-.
    unfold ws_onopen, send. proj_simpl.
    repeat case_match; unfold pending_inv; proj_simpl;
      (eapply inv_socket_update; [exact I|]); intros s' sock' Hlk; lk; eauto.
  - destruct (sockets c !! s) as [sock|] eqn:Hs; [|done].
    destruct (is_open (readyState sock)); [|done]. injection Hstep as <-.
    assert (J : pending_inv (clearTimeout (ws_timer sock) c)).
    { unfold pending_inv. proj_simpl. apply inv_clear_timer; [done|].
      intros k e H. by destruct (inv_sock_entry _ _ _ _ _ _ I _ _ _ _ Hs H). }
    assert (Hne : forall k e, pendingRequests c !! k = Some e -> resolve e <> ws_promise sock).
    { intros k e H. by destruct (inv_sock_entry _ _ _ _ _ _ I _ _ _ _ Hs H). }
    destruct m; unfold ws_onmessage.
    + destruct (accepted r).
      * apply pending_inv_resolve_connect; [|done]. exact J.
      * apply pending_inv_settle; [|done]. exact J.
    + by apply pending_inv_handleResponse.
    + exact I.
    + exact I.
  - destruct (sockets c !! s) as [sock|] eqn:Hs; [|done].
    assert (J : pending_inv (clearTimeout (ws_timer sock) c)).
    { unfold pending_inv. proj_simpl. apply inv_clear_timer; [done|].
      intros k e H. by destruct (inv_sock_entry _ _ _ _ _ _ I _ _ _ _ Hs H). }
    assert (Hne : forall k e, pendingRequests c !! k = Some e -> resolve e <> ws_promise sock).
    { intros k e H. by destruct (inv_sock_entry _ _ _ _ _ _ I _ _ _ _ Hs H). }
    assert (Hgoal : pending_inv (ws_onerror sock c)).
    { unfold ws_onerror. proj_simpl. destruct (state c); try exact J.
      apply pending_inv_settle; [|done]. exact J. }
    destruct (readyState sock); try done; by injection Hstep as <-.
  - destruct (sockets c !! s) as [sock|] eqn:Hs; [|done].
    assert (Hgoal : pending_inv
              (ws_onclose (set_sockets (<[s := set_readyState CLOSED sock]> (sockets c)) c))).
    { unfold ws_onclose, scheduleReconnect. proj_simpl.
      repeat case_match; unfold pending_inv; proj_simpl.
      all: eapply inv_socket_update;
        [ first [ exact I | by apply inv_alloc_reconnect_timer ] |].
      all: intros s' sock' Hlk; lk; eauto. }
    destruct (readyState sock); try done; by injection Hstep as <-.
  - destruct (timers c !! t) as [tm|] eqn:Ht; [|done].
    destruct (deadline tm <=? clock c); [|done]. injection Hstep as <-.
    assert (Hnt : forall k e, pendingRequests c !! k = Some e -> pr_timeout e = t ->
              exists m p, action tm = RequestTimeout k m p).
    { intros k e H Heq.
      destruct (inv_entry _ _ _ _ _ _ I _ _ H) as (_ & _ & d' & m' & Ht' & _).
      rewrite Heq, Ht in Ht'. injection Ht' as ->. by eexists _, _. }
    destruct (action tm) as [p|rid method p|] eqn:Ha; unfold run_timer.
    + apply pending_inv_settle.
      * unfold pending_inv. proj_simpl. apply inv_clear_timer; [done|].
        intros k e H Heq. by destruct (Hnt k e H Heq) as (? & ? & ?).
      * proj_simpl. intros k e H. by eapply (inv_connect_timer _ _ _ _ _ _ I).
    + apply pending_inv_settle.
      * unfold pending_inv. proj_simpl.
        apply inv_clear_timer; [by apply inv_delete_entry|].
        intros k e H Heq.
        assert (Hk : k <> rid) by (intros ->; by rewrite lookup_delete_eq in H).
        rewrite lookup_delete_ne in H by done.
        destruct (Hnt k e H Heq) as (? & ? & [=]). done.
      * proj_simpl. intros k e H Heq.
        assert (Hk : k <> rid) by (intros ->; by rewrite lookup_delete_eq in H).
        rewrite lookup_delete_ne in H by done.
        pose proof (inv_request_timer _ _ _ _ _ _ I _ _ _ _ _ _ _ Ht Ha H Heq). done.
    + assert (J : pending_inv (clearTimeout t c)).
      { unfold pending_inv. proj_simpl. apply inv_clear_timer; [done|].
        intros k e H Heq. by destruct (Hnt k e H Heq) as (? & ? & ?). }
      proj_simpl. destruct (url c) as [u|]; [|exact J].
      destruct (url_truthy (Some u)); [|exact J].
      pose proof (pending_inv_connect u ctor _ J) as K.
      destruct (connect u ctor (clearTimeout t c)) as [p c1]. exact K.
  - destruct (0 <=? dt) eqn:Hdt; [|done]. injection Hstep as <-.
    unfold pending_inv. proj_simpl. eapply inv_mono; [exact I|done|lia].
Qed.

Lemma reachable_pending_inv (c : ZapClient) : reachable c -> pending_inv c.
Proof.
  induction 1 as [generated o | e c c' _ IH Hstep].
  - unfold pending_inv. simpl. split; intros; lk.
  - by eapply pending_inv_step.
Qed.


(** X11.  Entries of the request table are live.  In every state a
    session reaches from its construction, each entry of the table has
    its promise still pending and its timer still armed: both functions
    of the entry settle the same promise, and the timer is the request
    timer of that id and that promise, with a deadline at most the
    configured timeout from now.  So no entry outlives its request, and
    a request in the table is settled later by exactly one of its
    Response, its timer or [close]. *)
Theorem pending_entries_live (c : ZapClient) (k : string) (e : PendingRequest) :
  reachable c -> pendingRequests c !! k = Some e ->
  reject e = resolve e /\ promises c !! resolve e = Some Pending /\
  exists d m,
    timers c !! pr_timeout e = Some (mkTimer d (RequestTimeout k m (resolve e))) /\
    d <= clock c + Z.max 0 (timeout (options c)).
Proof.
  intros Hr Hk. exact (inv_entry _ _ _ _ _ _ (reachable_pending_inv c Hr) k e Hk).
Qed.

Lemma two_pending_reachable : reachable two_pending.
Proof.
  apply (session_run_reachable
           (connected_trace ++ [CallRequest "tools/call" VNull "A";
                                CallRequest "tools/list" VNull "B"]) session0);
    [apply reach_new | vm_compute; reflexivity].
Qed.

Lemma pending_entries_live_witness :
  promises two_pending !! 4%nat = Some Pending /\
  exists d m,
    timers two_pending !! 5%nat = Some (mkTimer d (RequestTimeout "A" m 4)) /\
    d <= 30000.
Proof.
  destruct (pending_entries_live two_pending "A" (mkPending 4 4 5)
              two_pending_reachable ltac:(vm_compute; reflexivity))
    as (_ & Hp & d & m & Ht & Hd).
  split; [exact Hp|]. exists d, m. split; [exact Ht|exact Hd].
Defined.

End SessionFacts.

(* ===================================================================== *)
(** ** Facts: event handlers *)
(* ===================================================================== *)

Module EmitterFacts.
Import Js Emitter.

Lemma get_set_eq (event : string) (s : list nat) (m : Handlers) :
  get event (set event s m) = Some s.
Proof.
  induction m as [|[k s'] m IH]; simpl.
  - by rewrite String.eqb_refl.
  - destruct (String.eqb_spec event k) as [<-|Hne]; simpl.
    + by rewrite String.eqb_refl.
    + destruct (String.eqb_spec event k); [done|exact IH].
Qed.

Lemma get_set_ne (event event' : string) (s : list nat) (m : Handlers) :
  event' <> event -> get event' (set event s m) = get event' m.
Proof.
  intros Hne. induction m as [|[k s'] m IH]; simpl.
  - by destruct (String.eqb_spec event' event).
  - destruct (String.eqb_spec event k) as [<-|Hk]; simpl.
    + by destruct (String.eqb_spec event' event).
    + by rewrite IH.
Qed.

Lemma set_set (event : string) (s s' : list nat) (m : Handlers) :
  set event s (set event s' m) = set event s m.
Proof.
  induction m as [|[k s0] m IH]; simpl.
  - by rewrite String.eqb_refl.
  - destruct (String.eqb_spec event k) as [<-|Hk]; simpl.
    + by rewrite String.eqb_refl.
    + destruct (String.eqb_spec event k); [done|]. by rewrite IH.
Qed.

Lemma set_add_In (handler h : nat) (s : list nat) :
  In h (set_add handler s) <-> h = handler \/ In h s.
Proof.
  unfold set_add. destruct (existsb (Nat.eqb handler) s) eqn:He.
  - apply existsb_exists in He as (x & Hx & Heq). apply Nat.eqb_eq in Heq. subst x.
    split; [tauto|]. intros [->|?]; done.
  - rewrite in_app_iff. simpl. split; [intros [?|[?|[]]]; auto|intros [?|?]; auto].
Qed.

Lemma set_add_NoDup (handler : nat) (s : list nat) : NoDup s -> NoDup (set_add handler s).
Proof.
  intros Hnd. unfold set_add. destruct (existsb (Nat.eqb handler) s) eqn:He; [done|].
  apply NoDup_app. split; [done|]. split; [|apply NoDup_singleton].
  intros x Hx [->|[]]%list_elem_of_In.
  assert (existsb (Nat.eqb x) s = true); [|congruence].
  apply existsb_exists. exists x. split; [by apply list_elem_of_In|apply Nat.eqb_refl].
Qed.

Lemma set_add_idem (handler : nat) (s : list nat) :
  set_add handler (set_add handler s) = set_add handler s.
Proof.
  unfold set_add at 2. destruct (existsb (Nat.eqb handler) s) eqn:He.
  - unfold set_add. by rewrite He.
  - unfold set_add. rewrite existsb_app, He. simpl. by rewrite Nat.eqb_refl.
Qed.

Lemma set_delete_In (handler h : nat) (s : list nat) :
  NoDup s -> In h (set_delete handler s) <-> h <> handler /\ In h s.
Proof.
  induction s as [|x s IH]; simpl; [tauto|].
  intros [Hx Hnd]%NoDup_cons. rewrite list_elem_of_In in Hx.
  destruct (Nat.eqb_spec handler x) as [->|Hne]; simpl.
  - split; [intros Hin; split; [by intros ->|by right]|].
    intros [Hne [->|Hin]]; done.
  - rewrite IH by done. split.
    + intros [->|[? ?]]; [split; [done|by left]|split; [done|by right]].
    + intros [? [->|?]]; [by left|right; done].
Qed.

Lemma set_delete_NoDup (handler : nat) (s : list nat) :
  NoDup s -> NoDup (set_delete handler s).
Proof.
  induction s as [|x s IH]; simpl; [done|].
  intros [Hx Hnd]%NoDup_cons. destruct (Nat.eqb handler x); [done|].
  apply NoDup_cons. split; [|by apply IH].
  rewrite list_elem_of_In in *. intros Hin. apply set_delete_In in Hin; tauto.
Qed.

(** The handlers of an event, in the order [emit] calls them. *)
Definition handlers_of (event : string) (m : Handlers) : list nat :=
  default [] (get event m).

Lemma handlers_of_on (event event' : string) (handler : nat) (m : Handlers) :
  handlers_of event' (on event handler m) =
  if String.eqb event' event then set_add handler (handlers_of event m)
  else handlers_of event' m.
Proof.
  unfold on, handlers_of.
  destruct (get event m) as [s|] eqn:Hg; simpl.
  - rewrite Hg. destruct (String.eqb_spec event' event) as [->|Hne].
    + by rewrite get_set_eq.
    + by rewrite get_set_ne.
  - rewrite get_set_eq. destruct (String.eqb_spec event' event) as [->|Hne].
    + by rewrite get_set_eq.
    + by rewrite !get_set_ne.
Qed.

Lemma handlers_of_off (event event' : string) (handler : nat) (m : Handlers) :
  handlers_of event' (off event handler m) =
  if String.eqb event' event then set_delete handler (handlers_of event m)
  else handlers_of event' m.
Proof.
  unfold off, handlers_of.
  destruct (get event m) as [s|] eqn:Hg; simpl.
  - destruct (String.eqb_spec event' event) as [->|Hne].
    + by rewrite get_set_eq.
    + by rewrite get_set_ne.
  - destruct (String.eqb_spec event' event) as [->|Hne]; [by rewrite Hg|done].
Qed.

Lemma built_NoDup (m : Handlers) (event : string) :
  built m -> NoDup (handlers_of event m).
Proof.
  induction 1 as [|e h m _ IH|e h m _ IH] in event |- *.
  - constructor.
  - rewrite handlers_of_on. destruct (String.eqb event e); [|done].
    by apply set_add_NoDup.
  - rewrite handlers_of_off. destruct (String.eqb event e); [|done].
    by apply set_delete_NoDup.
Qed.

Lemma on_idem (event : string) (handler : nat) (m : Handlers) :
  on event handler (on event handler m) = on event handler m.
Proof.
  unfold on. destruct (get event m) as [s|] eqn:Hg.
  - rewrite Hg. rewrite !get_set_eq. by rewrite set_set, set_add_idem.
  - rewrite !get_set_eq. by rewrite !set_set, set_add_idem.
Qed.

(** The handlers an [emit] called, and the errors it logged. *)
Definition called (effects : list Effect) : list nat :=
  flat_map (fun e => match e with Called h _ => [h] | ConsoleError _ => [] end) effects.

Definition logged (effects : list Effect) : list JsError :=
  flat_map (fun e => match e with Called _ _ => [] | ConsoleError x => [x] end) effects.

Section Handlers.

Variable call : nat -> value -> option JsError.

Lemma emit_called (event : string) (data : value) (m : Handlers) :
  called (emit call event data m) = handlers_of event m /\
  logged (emit call event data m) = omap (fun h => call h data) (handlers_of event m).
Proof.
  unfold emit, handlers_of. destruct (get event m) as [s|]; simpl; [|done].
  induction s as [|h s [IH1 IH2]]; [done|].
  cbn [flat_map]. unfold called, logged in *. rewrite !flat_map_app, IH1, IH2.
  unfold invoke. destruct (call h data) eqn:Hc; csimpl; rewrite Hc; done.
Qed.

(** X24.  The event handlers.  [emit] calls every handler registered
    for the event once, in the order of registration, with the datum,
    and goes on after a handler that throws: what is thrown is logged
    and nothing else happens.  After [on(event, h)] the handler [h] is
    among them, once, however often it was registered; after
    [off(event, h)] it is not; the other handlers of the event and the
    handlers of other events are as before. *)
Theorem emit_calls_registered_handlers (m : Handlers) (event : string) (handler : nat)
  (data : value) :
  built m ->
  let calls m := called (emit call event data m) in
  calls m = handlers_of event m /\
  logged (emit call event data m) = omap (fun h => call h data) (handlers_of event m) /\
  NoDup (calls m) /\
  In handler (calls (on event handler m)) /\ NoDup (calls (on event handler m)) /\
  ~ In handler (calls (off event handler m)) /\
  (forall h, h <> handler ->
     (In h (calls (on event handler m)) <-> In h (calls m)) /\
     (In h (calls (off event handler m)) <-> In h (calls m))) /\
  (forall event', event' <> event ->
     emit call event' data (on event handler m) = emit call event' data m /\
     emit call event' data (off event handler m) = emit call event' data m) /\
  on event handler (on event handler m) = on event handler m.
Proof.
  intros Hb calls. subst calls. cbv beta.
  pose proof (built_NoDup m event Hb) as Hnd.
  rewrite !(proj1 (emit_called _ _ _)), (proj2 (emit_called _ _ _)).
  rewrite handlers_of_on, handlers_of_off, String.eqb_refl.
  split; [done|]. split; [done|]. split; [done|].
  split; [apply set_add_In; by left|]. split; [by apply set_add_NoDup|].
  split; [rewrite set_delete_In by done; tauto|]. split.
  { intros h Hne. rewrite set_add_In, set_delete_In by done. tauto. }
  split; [|apply on_idem].
  intros event' Hne. unfold emit.
  pose proof (handlers_of_on event event' handler m) as Hon.
  pose proof (handlers_of_off event event' handler m) as Hoff.
  destruct (String.eqb_spec event' event); [done|].
  unfold on, off.
  destruct (get event m) as [s|] eqn:Hg; rewrite ?Hg, ?get_set_eq, ?get_set_ne by done; done.
Qed.

End Handlers.

(** A handler that throws, between two that return. *)
Definition second_throws (h : nat) (data : value) : option JsError :=
  if Nat.eqb h 2 then Some (Error_new "handler failed") else None.

Definition three_handlers : Handlers :=
  on "connect" 3 (on "connect" 2 (on "connect" 1 (on "connect" 2 (on "error" 9 [])))).

Lemma emit_calls_registered_handlers_witness :
  emit second_throws "connect" VNull three_handlers =
    [Called 2 VNull; ConsoleError (Error_new "handler failed"); Called 1 VNull;
     Called 3 VNull] /\
  called (emit second_throws "connect" VNull three_handlers) = [2%nat; 1%nat; 3%nat] /\
  ~ In 1%nat (called (emit second_throws "connect" VNull (off "connect" 1 three_handlers))).
Proof.
  assert (Hb : built three_handlers) by (repeat constructor).
  destruct (emit_calls_registered_handlers second_throws three_handlers "connect" 1 VNull Hb)
    as (Hc & _ & _ & _ & _ & Hoff & _).
  split; [reflexivity|]. split; [rewrite Hc; reflexivity|exact Hoff].
Defined.

End EmitterFacts.

(* ===================================================================== *)
(** ** Facts: session manager *)
(* ===================================================================== *)

Module ManagerFacts.
Import Js Manager.







Lemma in_map_set (k : string) (h x : nat) (l : list (string * nat)) :
  In x (map snd (map_set k h l)) -> x = h \/ In x (map snd l).
Proof.
  induction l as [|[k' h'] l IH]; simpl.
  - intros [<-|[]]. by left.
  - destruct (String.eqb k k'); simpl; intros [<-|Hin]; auto.
    destruct (IH Hin); auto.
Qed.

Lemma in_map_delete (k : string) (x : nat) (l : list (string * nat)) :
  In x (map snd (map_delete k l)) -> In x (map snd l).
Proof.
  induction l as [|[k' h'] l IH]; simpl; [done|].
  destruct (String.eqb k k'); simpl; intros; auto. destruct H; auto.
Qed.

(** Handles are allocated in order: every handle the manager holds is
    below the next fresh one. *)
Definition handles_below (m : ZapExtensionClient) : Prop :=
  forall h, In h (map snd (mcpConnections m)) -> (h < fresh m)%nat.

Inductive reachable : ZapExtensionClient -> Prop :=
| reach_new : reachable new_manager
| reach_step e o m m' : reachable m -> step e m = Some (o, m') -> reachable m'.

Lemma reachable_handles (m : ZapExtensionClient) :
  reachable m ->
  handles_below m /\ (forall h u, suspended m !! h = Some u -> (h < fresh m)%nat).
Proof.
  induction 1 as [|e o m m' _ [IH1 IH2] Hstep].
  - split; [intros h []|]. intros h u Hs. simpl in Hs. by rewrite lookup_empty in Hs.
  - unfold handles_below in *. destruct e; simpl in Hstep.
    + unfold connectMcp_start in Hstep. destruct (find_connected u m).
      * by injection Hstep as <- <-.
      * injection Hstep as <- <-. simpl. split.
        -- intros h Hh. apply IH1 in Hh. lia.
        -- intros h u'. rewrite lookup_insert. case_decide.
           ++ intros _. subst. lia.
           ++ intros Hh. apply IH2 in Hh. lia.
    + unfold connectMcp_resume in Hstep. destruct (suspended m !! h) eqn:Hs; [|done].
      injection Hstep as <- <-. simpl. split.
      * intros x [->|Hx]%in_map_set; eauto.
      * intros x u. rewrite lookup_delete. case_decide; [done|]. eauto.
    + unfold connectMcp_fail in Hstep. destruct (suspended m !! h) eqn:Hs; [|done].
      injection Hstep as <- <-. simpl. split; [done|].
      intros x u. rewrite lookup_delete. case_decide; [done|]. eauto.
    + injection Hstep as <- <-. unfold on_disconnect. by destruct (objects m !! h).
    + injection Hstep as <- <-. unfold on_reconnect. by destruct (objects m !! h).
    + injection Hstep as <- <-. unfold disconnectMcp.
      destruct (map_get mcpId (mcpConnections m)); [|done].
      destruct (objects m !! n); [|done]. simpl. split; [|done].
      intros x Hx%in_map_delete. eauto.
Qed.

(** *** [getTools] and [callTool] *)

(** The tools of the connected records, in the order [getTools] and
    [callTool] visit them. *)
Definition connected_tools (m : ZapExtensionClient) : list ToolInfo :=
  flat_map (fun c => tools (info c)) (List.filter connected (values m)).

Definition named (name : string) (t : ToolInfo) : bool := String.eqb (tool_name t) name.

Definition keyed (acc : list (string * ToolInfo)) : Prop :=
  forall e, In e acc -> fst e = tool_name (snd e).

Lemma tools_add_app (a b : list ToolInfo) (acc : list (string * ToolInfo)) :
  tools_add (a ++ b) acc = tools_add b (tools_add a acc).
Proof. revert acc. induction a as [|t a IH]; intros acc; simpl; [done|]. apply IH. Qed.

Lemma getTools_fold (l : list McpConnection) (acc : list (string * ToolInfo)) :
  fold_left (fun acc c => if connected c then tools_add (tools (info c)) acc else acc) l acc =
  tools_add (flat_map (fun c => tools (info c)) (List.filter connected l)) acc.
Proof.
  revert acc. induction l as [|c l IH]; intros acc; simpl; [done|].
  rewrite IH. destruct (connected c); [|done]. simpl. by rewrite tools_add_app.
Qed.

Lemma has_key_In (n : string) (acc : list (string * ToolInfo)) :
  existsb (fun e => String.eqb (fst e) n) acc = true <-> In n (map fst acc).
Proof.
  rewrite existsb_exists, in_map_iff. split.
  - intros (e & He & Heq). apply String.eqb_eq in Heq. eauto.
  - intros (e & Heq & He). exists e. split; [done|]. by apply String.eqb_eq.
Qed.

Lemma tools_add_spec (ts : list ToolInfo) (acc : list (string * ToolInfo)) :
  keyed acc -> NoDup (map fst acc) ->
  keyed (tools_add ts acc) /\ NoDup (map fst (tools_add ts acc)) /\
  (forall e, In e (tools_add ts acc) ->
     In e acc \/
     (~ In (fst e) (map fst acc) /\ List.find (named (fst e)) ts = Some (snd e))) /\
  (forall e, In e acc -> In e (tools_add ts acc)) /\
  (forall t, In t ts -> In (tool_name t) (map fst (tools_add ts acc))).
Proof.
  revert acc. induction ts as [|t ts IH]; intros acc Hk Hnd; simpl.
  { split; [done|]. split; [done|]. split; [by left|]. split; [done|]. by intros t []. }
  destruct (existsb (fun e => String.eqb (fst e) (tool_name t)) acc) eqn:Hhas.
  - apply has_key_In in Hhas.
    destruct (IH acc Hk Hnd) as (H1 & H2 & H3 & H4 & H5).
    split; [done|]. split; [done|]. split; [|split; [done|]].
    + intros e He. destruct (H3 e He) as [Hin|[Hnin Hf]]; [by left|]. right.
      split; [done|]. unfold named at 1. destruct (String.eqb_spec (tool_name t) (fst e)) as [Heq|Hne].
      * rewrite <- Heq in Hnin. contradiction.
      * done.
    + intros t' [<-|Ht'].
      * apply in_map_iff in Hhas as (e & Heq & He). apply in_map_iff. exists e.
        split; [done|]. by apply H4.
      * by apply H5.
  - assert (Hnin : ~ In (tool_name t) (map fst acc)).
    { intros Hin. apply has_key_In in Hin. congruence. }
    assert (Hk' : keyed (acc ++ [(tool_name t, t)])).
    { intros e [He|[<-|[]]]%in_app_iff; [by apply Hk|done]. }
    assert (Hnd' : NoDup (map fst (acc ++ [(tool_name t, t)]))).
    { rewrite map_app. apply NoDup_app. split; [done|]. split.
      - intros x Hx [Heq|[]]%list_elem_of_In. simpl in Heq. subst x.
        apply Hnin. by apply list_elem_of_In.
      - simpl. apply NoDup_singleton. }
    destruct (IH _ Hk' Hnd') as (H1 & H2 & H3 & H4 & H5).
    split; [done|]. split; [done|]. split; [|split].
    + intros e He. destruct (H3 e He) as [[Hin|[<-|[]]]%in_app_iff|[Hn Hf]].
      * by left.
      * right. split; [done|]. simpl. unfold named. by rewrite String.eqb_refl.
      * right. rewrite map_app, in_app_iff in Hn. split; [tauto|].
        unfold named at 1. destruct (String.eqb_spec (tool_name t) (fst e)) as [Heq|Hne]; [|done].
        exfalso. apply Hn. right. simpl. by left.
    + intros e He. apply H4. apply in_app_iff. by left.
    + intros t' [<-|Ht'].
      * apply in_map_iff. exists (tool_name t, t). split; [done|].
        apply H4. apply in_app_iff. right. by left.
      * by apply H5.
Qed.

Lemma getTools_entries (m : ZapExtensionClient) :
  exists r,
    getTools m = map snd r /\ map tool_name (getTools m) = map fst r /\
    NoDup (map fst r) /\
    (forall e, In e r -> List.find (named (fst e)) (connected_tools m) = Some (snd e)) /\
    (forall t, In t (connected_tools m) -> In (tool_name t) (map fst r)).
Proof.
  unfold getTools. rewrite getTools_fold. fold (connected_tools m).
  destruct (tools_add_spec (connected_tools m) []) as (Hk & Hnd & Hfirst & _ & Hall).
  { by intros e []. } { constructor. }
  exists (tools_add (connected_tools m) []). split; [done|]. split.
  { rewrite map_map. apply map_ext_in. intros e He. symmetry. by apply Hk. }
  split; [done|]. split; [|done].
  intros e He. by destruct (Hfirst e He) as [[]|[_ Hf]].
Qed.

Lemma getTools_find (m : ZapExtensionClient) (t : ToolInfo) :
  In t (getTools m) -> List.find (named (tool_name t)) (connected_tools m) = Some t.
Proof.
  destruct (getTools_entries m) as (r & -> & Hnames & _ & Hfirst & _).
  intros (e & <- & He)%in_map_iff. specialize (Hfirst e He).
  apply find_some in Hfirst as Hn. destruct Hn as [_ Hn].
  unfold named in Hn. apply String.eqb_eq in Hn. by rewrite Hn.
Qed.

Lemma getTools_names (m : ZapExtensionClient) (name : string) :
  In name (map tool_name (getTools m)) <-> In name (map tool_name (connected_tools m)).
Proof.
  destruct (getTools_entries m) as (r & _ & -> & _ & Hfirst & Hall). split.
  - intros (e & <- & He)%in_map_iff.
    apply Hfirst, find_some in He as [Hin Hn].
    apply in_map_iff. exists (snd e). split; [|done].
    unfold named in Hn. by apply String.eqb_eq in Hn.
  - intros (t & <- & Ht)%in_map_iff. by apply Hall.
Qed.

(** X12.  [getTools] keeps the first occurrence.  The list it returns
    has no two tools of one name; it holds a tool of a name exactly when
    some connected record lists a tool of that name, and the tool it
    holds is then the first one of that name, in the order of the
    connections and of their tool lists.  Records that are not marked
    connected contribute nothing. *)
Theorem getTools_first_occurrence (m : ZapExtensionClient) :
  NoDup (map tool_name (getTools m)) /\
  (forall t, In t (getTools m) ->
     List.find (named (tool_name t)) (connected_tools m) = Some t) /\
  (forall name,
     In name (map tool_name (getTools m)) <->
     In name (map tool_name (connected_tools m))).
Proof.
  split.
  - destruct (getTools_entries m) as (r & _ & -> & Hnd & _). exact Hnd.
  - split.
    + intros t. apply getTools_find.
    + intros name. apply getTools_names.
Qed.



Lemma find_filter {A} (P Q : A -> bool) (l : list A) :
  List.find (fun x => P x && Q x) l = List.find Q (List.filter P l).
Proof.
  induction l as [|x l IH]; simpl; [done|].
  destruct (P x); simpl; [|done]. destruct (Q x); done.
Qed.

Lemma find_flat_map {A B} (P : B -> bool) (f : A -> list B) (l : list A) :
  List.find P (flat_map f l) =
  match List.find (fun x => existsb P (f x)) l with
  | Some x => List.find P (f x)
  | None => None
  end.
Proof.
  induction l as [|x l IH]; simpl; [done|].
  destruct (existsb P (f x)) eqn:He.
  - apply existsb_exists in He as (y & Hy & HP).
    destruct (List.find P (f x ++ flat_map f l)) as [z|] eqn:Hz.
    + clear IH. revert Hz. induction (f x) as [|a r IHr]; simpl; [done|].
      destruct (P a) eqn:Ha; [done|]. destruct Hy as [->|Hy]; [congruence|]. by apply IHr.
    + exfalso. eapply find_none in Hz; [|apply in_app_iff; left; exact Hy]. congruence.
  - rewrite <- IH. clear IH. induction (f x) as [|a r IHr]; simpl; [done|].
    simpl in He. apply orb_false_iff in He as [-> He]. by apply IHr.
Qed.

(** X13.  Where [callTool] sends a call.  Without an MCP id (or with
    the empty string as id) the call goes to the first connected record
    that lists a tool of that name: this is the record whose tool
    [getTools] shows under the name; when [getTools] shows no tool of
    the name the call throws a [ZapError] with the default code -32603.
    With an id, the call goes to the record stored under it when that
    record is marked connected, whether or not it lists the tool, and
    throws 'MCP not connected' otherwise. *)
Theorem callTool_routing (name : string) (m : ZapExtensionClient) :
  (forall mcpId, mcpId_truthy mcpId = false ->
     (forall t, In t (getTools m) -> tool_name t = name ->
        exists c,
          callTool name mcpId m = Ok (client c) /\
          In c (values m) /\ connected c = true /\ In t (tools (info c))) /\
     (~ In name (map tool_name (getTools m)) ->
        callTool name mcpId m =
        Throw (mkError "ZapError" ("Tool not found on any connected MCP: " +:+ name)
                       (VNum (-32603))))) /\
  (forall i, i <> "" ->
     callTool name (Some i) m =
     match map_get i (mcpConnections m) ≫= (fun h => objects m !! h) with
     | Some c =>
         if connected c then Ok (client c)
         else Throw (mkError "ZapError" ("MCP not connected: " +:+ i) (VNum (-32603)))
     | None => Throw (mkError "ZapError" ("MCP not connected: " +:+ i) (VNum (-32603)))
     end).
Proof.
  split.
  - intros mcpId Hid. unfold callTool. rewrite Hid.
    pose proof (getTools_find m) as Hfirst. pose proof (getTools_names m) as Hnames.
    rewrite find_filter.
    assert (Hff : forall n,
      List.find (named n) (connected_tools m) =
      match List.find (has_tool n) (List.filter connected (values m)) with
      | Some x => List.find (named n) (tools (info x))
      | None => None
      end).
    { intros n. apply (find_flat_map (named n) (fun c => tools (info c))). }
    split.
    + intros t Ht <-. apply Hfirst in Ht. rewrite Hff in Ht.
      destruct (List.find (has_tool (tool_name t)) (List.filter connected (values m)))
        as [c|] eqn:Hc; [|done].
      exists c. split; [done|].
      apply find_some in Hc as [Hin _]. apply filter_In in Hin as [Hin Hconn].
      apply find_some in Ht as [Ht _]. done.
    + intros Hnot.
      destruct (List.find (has_tool name) (List.filter connected (values m)))
        as [c|] eqn:Hc; [|done].
      exfalso. apply Hnot. apply Hnames.
      apply find_some in Hc as [Hin Hhas]. unfold has_tool in Hhas.
      apply existsb_exists in Hhas as (t & Ht & Hn). apply String.eqb_eq in Hn.
      apply in_map_iff. exists t. split; [done|].
      unfold connected_tools. apply in_flat_map. eauto.
  - intros i Hi. unfold callTool, mcpId_truthy.
    destruct (String.eqb_spec i ""); [done|]. simpl. reflexivity.
Qed.


(** *** The records the manager holds *)

Lemma map_get_In (k : string) (h : nat) (l : list (string * nat)) :
  map_get k l = Some h -> In (k, h) l.
Proof.
  induction l as [|[k' h'] l IH]; simpl; [done|].
  destruct (String.eqb_spec k k') as [<-|Hne]; [intros [= ->]; by left|auto].
Qed.

Lemma map_get_None (k : string) (l : list (string * nat)) :
  map_get k l = None <-> ~ In k (map fst l).
Proof.
  induction l as [|[k' h'] l IH]; simpl; [tauto|].
  destruct (String.eqb_spec k k') as [<-|Hne]; [split; [done|tauto]|].
  rewrite IH. split; [intros H [Heq|Hin]; [congruence|tauto] | tauto].
Qed.

Lemma In_map_get (k : string) (h : nat) (l : list (string * nat)) :
  NoDup (map fst l) -> In (k, h) l -> map_get k l = Some h.
Proof.
  induction l as [|[k' h'] l IH]; simpl; [done|].
  intros [Hnin Hnd]%NoDup_cons [[= -> ->]|Hin].
  - by rewrite String.eqb_refl.
  - destruct (String.eqb_spec k k') as [<-|Hne]; [|auto].
    exfalso. apply Hnin. apply list_elem_of_In. apply in_map_iff. by exists (k, h).
Qed.

Lemma map_set_spec (k0 : string) (h0 : nat) (l : list (string * nat)) :
  NoDup (map fst l) ->
  NoDup (map fst (map_set k0 h0 l)) /\
  (forall k h, In (k, h) (map_set k0 h0 l) <->
               (k = k0 /\ h = h0) \/ (k <> k0 /\ In (k, h) l)) /\
  (~ In h0 (map snd l) -> NoDup (map snd l) -> NoDup (map snd (map_set k0 h0 l))).
Proof.
  induction l as [|[k' h'] l IH]; simpl; intros Hnd.
  - split; [apply NoDup_singleton|]. split; [|intros; apply NoDup_singleton].
    intros k h. split; [intros [[= <- <-]|[]]; by left | intros [[-> ->]|[_ []]]; by left].
  - apply NoDup_cons in Hnd as [Hnin Hnd]. rewrite list_elem_of_In in Hnin.
    destruct (IH Hnd) as (IH1 & IH2 & IH3).
    destruct (String.eqb_spec k0 k') as [<-|Hne]; simpl.
    + split; [apply NoDup_cons; by rewrite list_elem_of_In|]. split.
      * intros k h. split.
        -- intros [[= <- <-]|Hin]; [by left|]. right. split; [|by right].
           intros ->. apply Hnin. apply in_map_iff. by exists (k0, h).
        -- intros [[-> ->]|[Hk [[= -> ->]|Hin]]]; [by left|done|by right].
      * intros Hh [Hn' Hnd']%NoDup_cons. apply NoDup_cons. split; [|done].
        rewrite list_elem_of_In. tauto.
    + split.
      { apply NoDup_cons. split; [|done]. rewrite list_elem_of_In.
        intros (e & Heq & He)%in_map_iff. destruct e as [k h]. simpl in Heq. subst k.
        apply IH2 in He as [[-> _]|[_ He]]; [done|].
        apply Hnin. apply in_map_iff. by exists (k', h). }
      split.
      * intros k h. rewrite IH2. split.
        -- intros [[= <- <-]|[H|H]]; [right; split; [done|by left] | by left |].
           right. split; [tauto|right; tauto].
        -- intros [H|[Hk [[= -> ->]|Hin]]]; [right; by left | by left |].
           right. right. auto.
      * intros Hh [Hn' Hnd']%NoDup_cons. apply NoDup_cons. split.
        -- rewrite list_elem_of_In in *.
           intros (e & Heq & He)%in_map_iff. destruct e as [k h]. simpl in Heq. subst h.
           apply IH2 in He as [[_ ->]|[_ He]]; [tauto|].
           apply Hn'. apply in_map_iff. by exists (k, h').
        -- apply IH3; [tauto|done].
Qed.

Lemma map_delete_split (k : string) (h : nat) (l : list (string * nat)) :
  map_get k l = Some h ->
  exists l1 l2, l = l1 ++ (k, h) :: l2 /\ map_delete k l = l1 ++ l2 /\
                ~ In k (map fst l1).
Proof.
  induction l as [|[k' h'] l IH]; simpl; [done|].
  destruct (String.eqb_spec k k') as [<-|Hne].
  - intros [= ->]. exists [], l. split; [done|]. split; [done|]. by intros [].
  - intros (l1 & l2 & -> & -> & Hn)%IH. exists ((k', h') :: l1), l2.
    split; [done|]. split; [done|]. simpl. intros [?|?]; [congruence|tauto].
Qed.

Lemma map_delete_absent (k : string) (l : list (string * nat)) :
  map_get k l = None -> map_delete k l = l.
Proof.
  induction l as [|[k' h'] l IH]; simpl; [done|].
  destruct (String.eqb_spec k k'); [done|]. intros H. f_equal. auto.
Qed.

(** What holds of the records in every state the manager reaches. *)
Record manager_inv (m : ZapExtensionClient) : Prop := {
  inv_keys : NoDup (map fst (mcpConnections m));
  inv_handles : NoDup (map snd (mcpConnections m));
  inv_stored : forall k h, In (k, h) (mcpConnections m) ->
    exists c, objects m !! h = Some c /\ info_id (info c) = k;
  inv_object : forall h c, objects m !! h = Some c ->
    client c = h /\ info_connected (info c) = connected c;
  inv_suspended : forall h u, suspended m !! h = Some u ->
    ~ In h (map snd (mcpConnections m))
}.

Lemma NoDup_app_remove {A} (l1 l2 : list A) (x : A) :
  NoDup (l1 ++ x :: l2) -> NoDup (l1 ++ l2) /\ ~ In x (l1 ++ l2).
Proof.
  intros H. apply NoDup_app in H as (H1 & H2 & H3).
  apply NoDup_cons in H3 as [H3 H4]. split.
  - apply NoDup_app. split; [done|]. split; [|done].
    intros y Hy Hy'. apply (H2 y Hy). by right.
  - rewrite in_app_iff, <- !list_elem_of_In. intros [Hx|Hx]; [|done].
    apply (H2 x Hx). by left.
Qed.

Lemma manager_inv_set_connected (b : bool) (h : nat) (c : McpConnection)
  (l : list (string * nat)) (em : list Emitted) (m : ZapExtensionClient) :
  manager_inv m -> objects m !! h = Some c ->
  NoDup (map fst l) -> NoDup (map snd l) ->
  (forall k x, In (k, x) l -> In (k, x) (mcpConnections m)) ->
  manager_inv (mkManager l (<[h := set_connected b c]> (objects m)) (suspended m) em (fresh m)).
Proof.
  intros [A B C D E] Hc Hk Hh Hsub. split; simpl; try done.
  - intros k x Hin. apply Hsub, C in Hin as (c' & Hc' & Hid).
    destruct (decide (x = h)) as [->|Hne].
    + rewrite lookup_insert_eq. eexists. split; [done|]. simpl. congruence.
    + rewrite lookup_insert_ne by done. eauto.
  - intros x c'. destruct (decide (x = h)) as [->|Hne].
    + rewrite lookup_insert_eq. intros [= <-]. simpl. split; [|done]. by apply (D h c).
    + rewrite lookup_insert_ne by done. apply D.
  - intros x u Hs Hin. apply (E x u Hs).
    apply in_map_iff in Hin as ([k y] & Heq & Hin). simpl in Heq. subst y.
    apply in_map_iff. exists (k, x). split; [done|]. by apply Hsub.
Qed.

Lemma reachable_manager_inv (m : ZapExtensionClient) : reachable m -> manager_inv m.
Proof.
  induction 1 as [|e o m m' Hr IH Hstep].
  - split; simpl; try constructor; try done.
  - destruct (reachable_handles m Hr) as [Hbelow Hsusp].
    pose proof IH as [A B C D E]. destruct e; simpl in Hstep.
    + unfold connectMcp_start in Hstep. destruct (find_connected u m).
      * by injection Hstep as <- <-.
      * injection Hstep as <- <-. split; simpl; try done.
        intros h u'. rewrite lookup_insert. case_decide.
        -- intros _ Hin. subst. apply Hbelow in Hin. lia.
        -- apply E.
    + unfold connectMcp_resume in Hstep. destruct (suspended m !! h) as [u|] eqn:Hs; [|done].
      injection Hstep as <- <-.
      destruct (map_set_spec new_id h (mcpConnections m) A) as (A' & Hin & B').
      split; simpl.
      * done.
      * apply B'; [by eapply E|done].
      * intros k x [[-> ->]|[Hk Hx]]%Hin.
        -- rewrite lookup_insert_eq. by eexists.
        -- rewrite lookup_insert_ne.
           ++ by apply C.
           ++ intros <-. eapply E; [exact Hs|]. apply in_map_iff. by exists (k, h).
      * intros x c. rewrite lookup_insert. case_decide.
        -- intros [= <-]. done.
        -- apply D.
      * intros x u'. rewrite lookup_delete. case_decide; [done|].
        intros Hx ([k y] & Heq & He)%in_map_iff. simpl in Heq. subst y.
        apply Hin in He as [[-> ->]|[Hk He]]; [done|].
        eapply E; [exact Hx|]. apply in_map_iff. by exists (k, x).
    + unfold connectMcp_fail in Hstep. destruct (suspended m !! h) as [u|] eqn:Hs; [|done].
      injection Hstep as <- <-. split; simpl; try done.
      intros x u'. rewrite lookup_delete. case_decide; [done|]. apply E.
    + injection Hstep as <- <-. unfold on_disconnect.
      destruct (objects m !! h) as [c|] eqn:Hc; [|done].
      by apply manager_inv_set_connected.
    + injection Hstep as <- <-. unfold on_reconnect.
      destruct (objects m !! h) as [c|] eqn:Hc; [|done].
      by apply manager_inv_set_connected.
    + injection Hstep as <- <-. unfold disconnectMcp.
      destruct (map_get mcpId (mcpConnections m)) as [h|] eqn:Hg; [|done].
      destruct (objects m !! h) as [c|] eqn:Hc; [|done].
      destruct (map_delete_split _ _ _ Hg) as (l1 & l2 & Hl & Hd & Hn).
      rewrite Hd. rewrite Hl in A, B. rewrite map_app in A, B. simpl in A, B.
      apply NoDup_app_remove in A as [A _]. apply NoDup_app_remove in B as [B _].
      apply manager_inv_set_connected; rewrite <- ?map_app in *; try done.
      intros k x Hin. rewrite Hl. apply in_app_iff. apply in_app_iff in Hin as [?|?]; [by left|].
      right. by right.
Qed.

Lemma manager_run_reachable (es : list Event) (m : ZapExtensionClient) os m' :
  reachable m -> run es m = Some (os, m') -> reachable m'.
Proof.
  revert m os. induction es as [|e es IH]; intros m os Hr Hrun; simpl in Hrun.
  - by injection Hrun as <- <-.
  - destruct (step e m) as [[o m1]|] eqn:Hstep; [|discriminate].
    destruct (run es m1) as [[os' m2]|] eqn:Hrest; [|discriminate].
    injection Hrun as <- <-. eapply IH; [|exact Hrest]. by eapply reach_step.
Qed.

(** *** One session for a url *)

(** The calls of [connectMcp] for [u] that wait for their connection. *)
Definition awaiting (u : string) (m : ZapExtensionClient) : list nat :=
  map fst (List.filter (fun hu => String.eqb (snd hu) u) (map_to_list (suspended m))).

(** Whether an event keeps the calls and the reconnects for [u] apart:
    no [connectMcp(u)] is called while another call for [u] waits for
    its connection, and no record of [u] is marked connected again by
    its client while another session for [u] is connected or being
    connected. *)
Definition apart (u : string) (e : Event) (m : ZapExtensionClient) : bool :=
  match e with
  | Call_connectMcp u' =>
      if String.eqb u' u then
        match awaiting u m with [] => true | _ => false end
      else true
  | Client_reconnect h =>
      match objects m !! h with
      | Some c =>
          if String.eqb (info_url (info c)) u then
            forallb (Nat.eqb h) (connected_sessions u m) &&
            match awaiting u m with [] => true | _ => false end
          else true
      | None => true
      end
  | _ => true
  end.

Fixpoint all_apart (u : string) (es : list Event) (m : ZapExtensionClient) : bool :=
  match es with
  | [] => true
  | e :: es' =>
      apart u e m &&
      match step e m with
      | Some (_, m') => all_apart u es' m'
      | None => true
      end
  end.


















(** The url of the examples. *)
Definition endpoint : string := "ws://localhost:9999".


(** Without overlapping calls: the record of the first session is
    marked disconnected, a second session is connected for the url, and
    the first reconnects.  The manager holds two connected sessions. *)
Example connectMcp_reconnect_two_sessions :
  exists m,
    let es := [Call_connectMcp endpoint; Connected_and_listed 1 [] "ext-a"; Client_disconnect 1;
               Call_connectMcp endpoint; Connected_and_listed 2 [] "ext-b";
               Client_reconnect 1; Call_connectMcp endpoint] in
    run es new_manager
    = Some ([Awaiting 1%nat; Returned 1%nat; Silent; Awaiting 2%nat; Returned 2%nat; Silent;
             Returned 1%nat], m) /\
    connected_sessions endpoint m = [1%nat; 2%nat] /\
    all_apart endpoint es new_manager = false.
Proof. eexists. split; [vm_compute; reflexivity|]. split; vm_compute; reflexivity. Qed.



Lemma map_get_delete_ne (k k0 : string) (l : list (string * nat)) :
  k <> k0 -> map_get k (map_delete k0 l) = map_get k l.
Proof.
  intros Hne. induction l as [|[k' h'] l IH]; simpl; [done|].
  destruct (String.eqb_spec k0 k') as [<-|Hne'].
  - by destruct (String.eqb_spec k k0).
  - simpl. by rewrite IH.
Qed.

Lemma omap_ext_in {A B} (f g : A -> option B) (l : list A) :
  (forall x, In x l -> f x = g x) -> omap f l = omap g l.
Proof.
  induction l as [|x l IH]; csimpl; intros H; [done|].
  rewrite (H x) by (by left). rewrite IH; [done|]. intros y Hy. apply H. by right.
Qed.

Lemma values_stored (m : ZapExtensionClient) :
  manager_inv m ->
  map (fun c => info_id (info c)) (values m) = map fst (mcpConnections m) /\
  map client (values m) = map snd (mcpConnections m).
Proof.
  intros [_ _ C D _]. unfold values.
  induction (mcpConnections m) as [|[k h] l IH]; csimpl; [done|].
  destruct (C k h (or_introl eq_refl)) as (c & Hc & Hid). rewrite Hc. csimpl.
  destruct IH as [IH1 IH2]; [intros; apply C; by right|].
  destruct (D h c Hc) as [Hcl _]. split; f_equal; done.
Qed.

(** X14.  What the manager holds is consistent.  In every state the
    manager reaches, the ids under which records are stored are
    pairwise distinct, each stored record carries the id it is stored
    under, and the two connected flags of a record (of the connection
    and of its info) agree.  So every info that [mcps] returns is marked
    connected and is stored under its own id, no two of them share an
    id, and [connectionCount] is their number. *)
Theorem manager_records_consistent (m : ZapExtensionClient) :
  reachable m ->
  NoDup (map fst (mcpConnections m)) /\
  (forall k h, In (k, h) (mcpConnections m) ->
     exists c, objects m !! h = Some c /\ info_id (info c) = k /\ client c = h) /\
  (forall h c, objects m !! h = Some c -> info_connected (info c) = connected c) /\
  (forall i, In i (mcps m) ->
     info_connected i = true /\ is_Some (map_get (info_id i) (mcpConnections m))) /\
  NoDup (map info_id (mcps m)) /\
  connectionCount m = length (mcps m).
Proof.
  intros Hr. pose proof (reachable_manager_inv m Hr) as I.
  destruct (values_stored m I) as [Hids _]. pose proof I as [A B C D E].
  split; [done|]. split.
  { intros k h Hin. destruct (C k h Hin) as (c & Hc & Hid). exists c.
    split; [done|]. split; [done|]. by apply (D h c). }
  split; [intros h c Hc; by apply (D h c)|].
  assert (Hval : forall c, In c (values m) ->
            exists k h, In (k, h) (mcpConnections m) /\ objects m !! h = Some c).
  { intros c Hc. unfold values in Hc. apply list_elem_of_In, list_elem_of_omap in Hc
      as ([k h] & Hin & Hl). exists k, h. by rewrite <- list_elem_of_In. }
  split.
  { intros i (c & <- & Hc)%in_map_iff. apply filter_In in Hc as [Hc Hconn].
    destruct (Hval c Hc) as (k & h & Hin & Hobj).
    destruct (D h c Hobj) as [_ ->]. split; [done|].
    destruct (C k h Hin) as (c' & Hc' & Hid). simplify_eq.
    exists (client c). rewrite (In_map_get _ _ _ A Hin). f_equal. symmetry. by apply (D h c). }
  split.
  { unfold mcps. rewrite map_map.
    eapply (sublist_NoDup _ (map fst (mcpConnections m))); [done|].
    rewrite <- Hids. clear. induction (values m) as [|c l IH]; simpl; [constructor|].
    destruct (connected c); simpl; [by constructor|by apply sublist_cons]. }
  unfold connectionCount, mcps. by rewrite length_map.
Qed.

(** X15.  [disconnectMcp].  An id under which nothing is stored leaves
    the manager as it is, and no event is emitted.  Otherwise the record
    stored under the id is removed from the map and marked disconnected
    (so a holder of its info sees [connected: false]), one
    [mcp:disconnect] is emitted for it, no other record changes, and
    [connectionCount] drops by one if the record was connected.
    Disconnecting the same id again does nothing. *)
Theorem disconnectMcp_removes (mcpId : string) (m : ZapExtensionClient) :
  reachable m ->
  let m' := disconnectMcp mcpId m in
  (map_get mcpId (mcpConnections m) = None -> m' = m) /\
  (forall h, map_get mcpId (mcpConnections m) = Some h ->
     exists c,
       objects m !! h = Some c /\
       objects m' !! h = Some (set_connected false c) /\
       (forall h', h' <> h -> objects m' !! h' = objects m !! h') /\
       emitted m' = emitted m ++ [mcp_disconnect h] /\
       connectionCount m' = (connectionCount m - (if connected c then 1 else 0))%nat) /\
  map_get mcpId (mcpConnections m') = None /\
  (forall k, k <> mcpId ->
     map_get k (mcpConnections m') = map_get k (mcpConnections m)) /\
  disconnectMcp mcpId m' = m'.
Proof.
  intros Hr m'. subst m'. pose proof (reachable_manager_inv m Hr) as [A B C D E].
  destruct (map_get mcpId (mcpConnections m)) as [h|] eqn:Hg.
  2: { assert (Hm : disconnectMcp mcpId m = m) by (unfold disconnectMcp; by rewrite Hg).
       rewrite !Hm. done. }
  destruct (C mcpId h (map_get_In _ _ _ Hg)) as (c & Hc & Hid).
  assert (Hm : disconnectMcp mcpId m =
    mkManager (map_delete mcpId (mcpConnections m))
              (<[h := set_connected false c]> (objects m))
              (suspended m) (emitted m ++ [mcp_disconnect h]) (fresh m)).
  { unfold disconnectMcp. by rewrite Hg, Hc. }
  rewrite !Hm. clear Hm.
  destruct (map_delete_split _ _ _ Hg) as (l1 & l2 & Hl & Hd & Hn).
  assert (Hgone : map_get mcpId (map_delete mcpId (mcpConnections m)) = None).
  { apply map_get_None. rewrite Hd. rewrite Hl, map_app in A. simpl in A.
    apply NoDup_app_remove in A as [_ A]. by rewrite map_app. }
  split; [done|]. split.
  { intros ? [= <-]. exists c. split; [done|]. simpl.
    split; [by rewrite lookup_insert_eq|].
    split; [intros h' Hne; by rewrite lookup_insert_ne|]. split; [done|].
    unfold connectionCount, values. simpl. rewrite Hd, Hl.
    rewrite Hl, map_app in B. simpl in B. apply NoDup_app_remove in B as [_ B].
    rewrite <- map_app in B.
    rewrite (omap_ext_in _ (fun kh => objects m !! snd kh)).
    2: { intros [k x] Hin. simpl. rewrite lookup_insert_ne; [done|]. intros <-.
         apply B. apply in_map_iff. by exists (k, h). }
    rewrite !omap_app, !List.filter_app, !length_app. csimpl. rewrite Hc. simpl.
    destruct (connected c); simpl; lia. }
  simpl. split; [done|]. split; [intros k Hk; by apply map_get_delete_ne|].
  unfold disconnectMcp. simpl. by rewrite Hgone.
Qed.

Lemma omap_keys (l0 l : list (string * nat)) :
  (forall k h, In (k, h) l -> map_get k l0 = Some h) ->
  omap (fun k => match map_get k l0 with
                 | Some h => Some (k, h)
                 | None => None
                 end) (map fst l) = l.
Proof.
  induction l as [|[k h] l IH]; simpl; intros H; [done|].
  rewrite (H k h) by auto. simpl. f_equal. apply IH. auto.
Qed.

Lemma disconnect_fold (l : list (string * nat)) (m : ZapExtensionClient) :
  mcpConnections m = l -> NoDup (map snd l) ->
  (forall k h, In (k, h) l -> is_Some (objects m !! h)) ->
  let m' := fold_left (fun m kh => disconnectMcp_resume (fst kh) (snd kh) m) l m in
  mcpConnections m' = [] /\
  emitted m' = emitted m ++ map (fun kh => mcp_disconnect (snd kh)) l /\
  suspended m' = suspended m /\
  (forall k h, In (k, h) l ->
     exists c, objects m !! h = Some c /\ objects m' !! h = Some (set_connected false c)) /\
  (forall h, ~ In h (map snd l) -> objects m' !! h = objects m !! h) /\
  m' = fold_left (fun m k => disconnectMcp k m) (map fst l) m.
Proof.
  revert m. induction l as [|[k h] l IH]; intros m Hl Hnd Hobj; simpl.
  { split; [done|]. split; [by rewrite app_nil_r|]. done. }
  destruct (Hobj k h (or_introl eq_refl)) as [c Hc].
  apply NoDup_cons in Hnd as [Hh Hnd]. rewrite list_elem_of_In in Hh.
  assert (Hres : disconnectMcp_resume k h m =
                 mkManager l (<[h := set_connected false c]> (objects m))
                           (suspended m) (emitted m ++ [mcp_disconnect h]) (fresh m)).
  { unfold disconnectMcp_resume. rewrite Hc, Hl. simpl. by rewrite String.eqb_refl. }
  assert (Hseq : disconnectMcp k m = disconnectMcp_resume k h m).
  { unfold disconnectMcp, disconnectMcp_resume. rewrite Hl. simpl.
    by rewrite String.eqb_refl. }
  rewrite Hseq, Hres.
  match goal with |- context [fold_left _ l ?m1] =>
    destruct (IH m1) as (H1 & H2 & H3 & H4 & H5 & H6); [done|done| |]
  end.
  { intros k' h' Hin. simpl. rewrite lookup_insert_ne; [by eapply Hobj; right|].
    intros <-. apply Hh. apply in_map_iff. by exists (k', h). }
  simpl in H2, H3, H4, H5. split; [done|]. split; [by rewrite H2, <- app_assoc|].
  split; [done|]. split; [|split; [|done]].
  - intros k' h' [[= <- <-]|Hin].
    + exists c. split; [done|]. rewrite H5 by done. by rewrite lookup_insert_eq.
    + destruct (H4 k' h' Hin) as (c' & Hc' & Hfin). exists c'. split; [|done].
      rewrite lookup_insert_ne in Hc'; [done|].
      intros <-. apply Hh. apply in_map_iff. by exists (k', h).
  - intros h' Hn. rewrite H5 by tauto. rewrite lookup_insert_ne; [done|]. tauto.
Qed.

(** X16.  [disconnectAll].  After it the manager stores no record:
    [connectionCount] is 0 and [mcps] and [getTools] are empty.  Every
    record that was stored is marked disconnected, one [mcp:disconnect]
    is emitted for each, in the order of the map; records and calls of
    [connectMcp] that are not in the map are not touched.  The result
    is that of calling [disconnectMcp] on each stored id in turn. *)
Theorem disconnectAll_empties (m : ZapExtensionClient) :
  reachable m ->
  let m' := disconnectAll m in
  mcpConnections m' = [] /\ connectionCount m' = 0%nat /\ mcps m' = [] /\
  getTools m' = [] /\
  emitted m' = emitted m ++ map (fun kh => mcp_disconnect (snd kh)) (mcpConnections m) /\
  (forall k h, In (k, h) (mcpConnections m) ->
     exists c, objects m !! h = Some c /\ objects m' !! h = Some (set_connected false c)) /\
  (forall h, ~ In h (map snd (mcpConnections m)) -> objects m' !! h = objects m !! h) /\
  suspended m' = suspended m /\
  m' = fold_left (fun m k => disconnectMcp k m) (map fst (mcpConnections m)) m.
Proof.
  intros Hr m'. subst m'. pose proof (reachable_manager_inv m Hr) as [A B C D E].
  unfold disconnectAll. rewrite omap_keys by (intros k h; by apply In_map_get).
  destruct (disconnect_fold (mcpConnections m) m eq_refl B) as (H1 & H2 & H3 & H4 & H5 & H6).
  { intros k h Hin. destruct (C k h Hin) as (c & -> & _). by eexists. }
  split; [done|].
  unfold connectionCount, mcps, getTools, values. rewrite H1. simpl.
  split; [done|]. split; [done|]. split; [done|]. done.
Qed.

Definition tool (name description : string) : ToolInfo :=
  mkToolInfo name (Some description) None.

(** Two endpoints, both listing a tool [click]. *)
Definition two_mcps_trace : list Event :=
  [Call_connectMcp "ws://localhost:9999";
   Connected_and_listed 1 [tool "click" "first"; tool "type" "first"] "mcp-a";
   Call_connectMcp "ws://localhost:9998";
   Connected_and_listed 2 [tool "click" "second"; tool "pdf" "second"] "mcp-b"].

Definition two_mcps : ZapExtensionClient :=
  match run two_mcps_trace new_manager with
  | Some (_, m) => m
  | None => new_manager
  end.

Lemma two_mcps_reachable : reachable two_mcps.
Proof.
  apply (manager_run_reachable two_mcps_trace new_manager
           [Awaiting 1%nat; Returned 1%nat; Awaiting 2%nat; Returned 2%nat] two_mcps
           reach_new).
  vm_compute. reflexivity.
Qed.

Lemma manager_records_consistent_witness :
  map info_id (mcps two_mcps) = ["mcp-a"; "mcp-b"] /\
  NoDup (map info_id (mcps two_mcps)) /\
  connectionCount two_mcps = length (mcps two_mcps).
Proof.
  destruct (manager_records_consistent two_mcps two_mcps_reachable)
    as (_ & _ & _ & _ & Hnd & Hcount).
  split; [reflexivity|]. split; [exact Hnd|exact Hcount].
Defined.

Lemma disconnectMcp_removes_witness :
  connectionCount two_mcps = 2%nat /\
  connectionCount (disconnectMcp "mcp-a" two_mcps) = 1%nat /\
  map_get "mcp-a" (mcpConnections (disconnectMcp "mcp-a" two_mcps)) = None /\
  disconnectMcp "mcp-a" (disconnectMcp "mcp-a" two_mcps) = disconnectMcp "mcp-a" two_mcps.
Proof.
  destruct (disconnectMcp_removes "mcp-a" two_mcps two_mcps_reachable)
    as (_ & Hhit & Hgone & _ & Hidem).
  destruct (Hhit 1%nat ltac:(reflexivity)) as (c & Hc & _ & _ & _ & Hcount).
  split; [reflexivity|]. split; [|split; [exact Hgone|exact Hidem]].
  rewrite Hcount. vm_compute in Hc. injection Hc as <-. reflexivity.
Defined.

Lemma disconnectAll_empties_witness :
  mcpConnections (disconnectAll two_mcps) = [] /\
  connectionCount (disconnectAll two_mcps) = 0%nat /\
  emitted (disconnectAll two_mcps) =
    [mcp_connect 1; mcp_connect 2; mcp_disconnect 1; mcp_disconnect 2].
Proof.
  destruct (disconnectAll_empties two_mcps two_mcps_reachable)
    as (Hmap & Hcount & _ & _ & Hem & _).
  split; [exact Hmap|]. split; [exact Hcount|]. rewrite Hem. reflexivity.
Defined.

(** The first [click] wins in [getTools], and [callTool] sends [click]
    to the same endpoint. *)
Example getTools_two_mcps :
  getTools two_mcps = [tool "click" "first"; tool "type" "first"; tool "pdf" "second"] /\
  callTool "click" None two_mcps = Ok 1%nat /\
  callTool "pdf" None two_mcps = Ok 2%nat /\
  callTool "click" (Some "mcp-b") two_mcps = Ok 2%nat /\
  callTool "missing" (Some "mcp-b") two_mcps = Ok 2%nat.
Proof. repeat split; vm_compute; reflexivity. Qed.

End ManagerFacts.

(* ===================================================================== *)
(** ** Facts: command router *)
(* ===================================================================== *)

Module RouterFacts.
Import Js Router.

Lemma one_of_In (a : string) (labels : list string) :
  one_of a labels = true <-> In a labels.
Proof.
  unfold one_of. rewrite existsb_exists. split.
  - intros (l & Hl & Heq). apply String.eqb_eq in Heq. by subst.
  - intros H. exists a. split; [done|]. apply String.eqb_refl.
Qed.

Lemma one_of_miss (a : string) (labels : list string) :
  forallb (fun l => one_of l translation_table) labels = true ->
  ~ In a translation_table -> one_of a labels = false.
Proof.
  intros Hsub Hnot. destruct (one_of a labels) eqn:H; [|done].
  exfalso. apply Hnot. apply one_of_In in H.
  rewrite forallb_forall in Hsub. apply one_of_In. by apply Hsub.
Qed.

Lemma without_absent (k : string) (more : list (string * value)) :
  lookup_prop k more = None -> without k more = more.
Proof.
  induction more as [|[k' x] more IH]; simpl; [done|].
  destruct (String.eqb k k'); [discriminate|]. intros H. f_equal. by apply IH.
Qed.

Lemma without_cons_action (v : value) (more : list (string * value)) :
  lookup_prop "action" more = None ->
  without "action" (("action", v) :: more) = more.
Proof. intros H. simpl. by apply without_absent. Qed.

Section Platform.

Variable platform : Platform.

#[local] Abbreviation browser := (browser platform).
#[local] Abbreviation sendRaw := (sendRaw platform).
#[local] Abbreviation handleMessage := (handleMessage platform).
#[local] Abbreviation settle := (settle platform).
#[local] Abbreviation base64_decode := (Router.base64_decode platform).
#[local] Abbreviation fs_error := (Router.fs_error platform).

Lemma sendRaw_attached (method params : value) (s : CDPBridgeServer)
  (w : nat) (client : CDPClient) (others : list (nat * CDPClient)) :
  clients s = (w, client) :: others ->
  let id := commandId s + 1 in
  let p := fresh s in
  let s' := snd (sendRaw method params s) in
  fst (sendRaw method params s) = p /\
  outbox s' = outbox s ++ [(cl_ws client, mkCommand id method params)] /\
  pendingCommands s' = <[id := mkPendingCommand p p]> (pendingCommands s) /\
  promises s' = <[p := Pending]> (promises s) /\
  suspended s' = suspended s /\ files s' = files s /\
  commandId s' = id /\ clients s' = clients s /\ fresh s' = S (S p).
Proof.
  intros Hc. unfold Router.sendRaw. simpl. rewrite Hc. simpl. repeat split; done.
Qed.

(** C7.  Pass-through fidelity.  For an action name outside the
    translation table, [browser] is the one call
    [sendRaw(action, rest)], where [rest] is the command without its
    [action] property: with an extension attached, it sends exactly one
    message, whose [method] is the action and whose [params] is [rest];
    a command [{action, ...more}] has [rest = more]. *)
Theorem passthrough_fidelity (a : string) (params : list (string * value))
  (s : CDPBridgeServer) :
  field params "action" = VStr a ->
  ~ In a translation_table ->
  let rest := without "action" params in
  browser params s = sendRaw (VStr a) (VObj rest) s /\
  (forall w client others,
     clients s = (w, client) :: others ->
     outbox (snd (browser params s)) =
     outbox s ++ [(cl_ws client, mkCommand (commandId s + 1) (VStr a) (VObj rest))]) /\
  (forall more,
     lookup_prop "action" more = None -> params = ("action", VStr a) :: more ->
     rest = more).
Proof.
  intros Ha Hnot rest.
  assert (Heq : browser params s = sendRaw (VStr a) (VObj rest) s).
  { unfold Router.browser. rewrite Ha.
    repeat match goal with
    | |- context [one_of a ?ls] => rewrite (one_of_miss a ls eq_refl Hnot)
    end.
    reflexivity. }
  split; [exact Heq|]. split.
  - intros w client others Hc. rewrite Heq.
    by destruct (sendRaw_attached (VStr a) (VObj rest) s w client others Hc) as (_ & -> & _).
  - intros more Hmore ->. by apply without_cons_action.
Qed.

(** The state in which a screenshot call waits for its reply: the
    command [id] is pending on promise [p], and the call that returned
    promise [q] is suspended on [p] with the rest of its command. *)
Definition screenshot_in_flight (id : Z) (p q : nat) (rest : list (string * value))
  (s : CDPBridgeServer) : Prop :=
  pendingCommands s !! id = Some (mkPendingCommand p p) /\
  promises s !! p = Some Pending /\
  suspended s !! p = Some (KScreenshot rest q).

Lemma browser_screenshot_attached (params : list (string * value)) (s : CDPBridgeServer)
  (w : nat) (client : CDPClient) (others : list (nat * CDPClient)) :
  field params "action" = VStr "screenshot" ->
  clients s = (w, client) :: others ->
  let rest := without "action" params in
  let id := commandId s + 1 in
  exists p q s1,
    browser params s = (q, s1) /\ p <> q /\
    outbox s1 = outbox s ++
      [(cl_ws client,
        mkCommand id (VStr "hanzo.screenshot")
          (VObj [("format", or (field rest "format") (VStr "png"));
                 ("fullPage", field rest "fullPage")]))] /\
    files s1 = files s /\ promises s1 !! q = Some Pending /\
    screenshot_in_flight id p q rest s1.
Proof.
  intros Ha Hc rest id. unfold Router.browser. rewrite Ha. simpl.
  unfold Router.sendRaw. simpl. rewrite Hc. simpl.
  rewrite lookup_insert_eq. simpl.
  eexists (fresh s), _, _. split; [reflexivity|]. simpl.
  split; [lia|]. split; [done|]. split; [done|].
  split; [by rewrite lookup_insert_eq|].
  unfold screenshot_in_flight. simpl.
  rewrite !lookup_insert_eq. rewrite lookup_insert_ne by lia.
  by rewrite lookup_insert_eq.
Qed.

Lemma reply_settles (id : Z) (p q : nat) (rest : list (string * value))
  (w : nat) (screenshot : value) (r : result value) (s s' : CDPBridgeServer) :
  screenshot_in_flight id p q rest s -> p <> q ->
  after_screenshot platform rest screenshot s = (r, s') ->
  files (handleMessage w (MsgReply id None screenshot) s) = files s' /\
  promises (handleMessage w (MsgReply id None screenshot) s) !! q =
  Some (match r with Ok v => Fulfilled v | Throw e => Rejected e end).
Proof.
  intros (Hpend & Hp & Hk) Hpq Hafter. unfold Router.handleMessage. rewrite Hpend. simpl.
  unfold Router.settle. rewrite Hp. simpl. rewrite Hk.
  assert (Hafter' : after_screenshot platform rest screenshot
            (set_suspended (delete p (suspended s))
               (set_promises (<[p := Fulfilled screenshot]> (promises s)) s))
          = (r, set_suspended (delete p (suspended s))
               (set_promises (<[p := Fulfilled screenshot]> (promises s)) s'))).
  { revert Hafter. unfold after_screenshot, writeFileSync, Buffer_from.
    repeat case_match; intros; simplify_eq; reflexivity. }
  simpl in Hafter'. rewrite Hafter'. destruct r; simpl; by rewrite lookup_insert_eq.
Qed.

Lemma reply_error_settles (id : Z) (p q : nat) (rest : list (string * value))
  (w : nat) (message : string) (screenshot : value) (s : CDPBridgeServer) :
  screenshot_in_flight id p q rest s -> p <> q ->
  files (handleMessage w (MsgReply id (Some message) screenshot) s) = files s /\
  promises (handleMessage w (MsgReply id (Some message) screenshot) s) !! q =
  Some (Rejected (Error_new message)).
Proof.
  intros (Hpend & Hp & Hk) Hpq. unfold Router.handleMessage. rewrite Hpend. simpl.
  unfold Router.settle. rewrite Hp. simpl. rewrite Hk. simpl.
  by rewrite lookup_insert_eq.
Qed.

(** C8, as the code has it.  With an extension attached, a screenshot
    command sends one [hanzo.screenshot] call and writes nothing until
    the reply arrives.  On a successful reply with a non-empty
    [filename] and non-empty base64 [data] in the result, the data is
    decoded and [fs.writeFileSync] is called on that name: when the
    write is made, the file holds the decoded bytes and the call returns
    [{saved, bytes}]; when the file system refuses the write, nothing is
    written and the call is rejected with the error of the file system.
    Without a filename the call returns the result unchanged, whatever
    it is; with a filename and a result other than [null] or
    [undefined] whose [data] is absent or empty, the call returns the
    result unchanged.  On an error reply nothing is written and the call
    is rejected. *)
Theorem screenshot_side_effect (params : list (string * value)) (s : CDPBridgeServer)
  (w : nat) (client : CDPClient) (others : list (nat * CDPClient)) :
  field params "action" = VStr "screenshot" ->
  clients s = (w, client) :: others ->
  let rest := without "action" params in
  let id := commandId s + 1 in
  let reply error screenshot s1 := handleMessage w (MsgReply id error screenshot) s1 in
  exists q s1,
    browser params s = (q, s1) /\
    outbox s1 = outbox s ++
      [(cl_ws client,
        mkCommand id (VStr "hanzo.screenshot")
          (VObj [("format", or (field rest "format") (VStr "png"));
                 ("fullPage", field rest "fullPage")]))] /\
    files s1 = files s /\ promises s1 !! q = Some Pending /\
    (forall f b64 screenshot,
       field rest "filename" = VStr f -> f <> "" ->
       get screenshot "data" = Ok (VStr b64) -> b64 <> "" ->
       (fs_error (Named f) (base64_decode b64) = None ->
        files (reply None screenshot s1) = <[Named f := base64_decode b64]> (files s) /\
        promises (reply None screenshot s1) !! q =
        Some (Fulfilled (VObj [("saved", VStr f);
                               ("bytes", VNum (Z.of_nat (length (base64_decode b64))))]))) /\
       (forall e,
          fs_error (Named f) (base64_decode b64) = Some e ->
          files (reply None screenshot s1) = files s /\
          promises (reply None screenshot s1) !! q = Some (Rejected e))) /\
    (forall screenshot,
       truthy (field rest "filename") = false ->
       files (reply None screenshot s1) = files s /\
       promises (reply None screenshot s1) !! q = Some (Fulfilled screenshot)) /\
    (forall screenshot data,
       get screenshot "data" = Ok data -> truthy data = false ->
       files (reply None screenshot s1) = files s /\
       promises (reply None screenshot s1) !! q = Some (Fulfilled screenshot)) /\
    (forall message screenshot,
       files (reply (Some message) screenshot s1) = files s /\
       promises (reply (Some message) screenshot s1) !! q =
       Some (Rejected (Error_new message))).
Proof.
  intros Ha Hc rest id reply. subst reply. cbv beta.
  destruct (browser_screenshot_attached params s w client others Ha Hc)
    as (p & q & s1 & Hb & Hpq & Hout & Hfiles & Hq & Hfl).
  exists q, s1. split; [done|]. split; [done|]. split; [done|]. split; [done|].
  split; [|split; [|split]].
  - intros f b64 screenshot Hf Hne Hdata Hne'.
    assert (Htruthy : truthy (VStr f) = true /\ truthy (VStr b64) = true).
    { simpl. destruct (String.eqb_spec f ""); [done|].
      by destruct (String.eqb_spec b64 ""). }
    destruct Htruthy as [Htf Htd]. rewrite <- Hfiles. split.
    + intros Hfs.
      refine (reply_settles id p q rest w screenshot
               (Ok (VObj [("saved", VStr f);
                          ("bytes", VNum (Z.of_nat (length (base64_decode b64))))]))
               s1 (set_files (<[Named f := base64_decode b64]> (files s1)) s1) Hfl Hpq _).
      unfold after_screenshot. rewrite Hf, Hdata, Htf, Htd.
      unfold Buffer_from, writeFileSync. by rewrite Hfs.
    + intros e Hfs.
      refine (reply_settles id p q rest w screenshot (Throw e) s1 s1 Hfl Hpq _).
      unfold after_screenshot. rewrite Hf, Hdata, Htf, Htd.
      unfold Buffer_from, writeFileSync. by rewrite Hfs.
  - intros screenshot Hf. rewrite <- Hfiles.
    apply (reply_settles id p q rest w screenshot (Ok screenshot) s1 s1 Hfl Hpq).
    unfold after_screenshot. by rewrite Hf.
  - intros screenshot data Hdata Hfalsy. rewrite <- Hfiles.
    apply (reply_settles id p q rest w screenshot (Ok screenshot) s1 s1 Hfl Hpq).
    unfold after_screenshot. rewrite Hdata, Hfalsy.
    by destruct (truthy (field rest "filename")).
  - intros message screenshot. rewrite <- Hfiles.
    by apply (reply_error_settles id p q rest).
Qed.

(** With a filename, a successful reply whose result is [null] makes
    the call throw: reading [screenshot.data] is a [TypeError]. *)
Lemma screenshot_null_result (rest : list (string * value)) (s : CDPBridgeServer) :
  truthy (field rest "filename") = true ->
  after_screenshot platform rest VNull s =
  (Throw (TypeError "Cannot read properties of null or undefined"), s).
Proof. intros H. unfold after_screenshot. by rewrite H. Qed.

End Platform.

Abbreviation ref_browser := (browser RefPlatform.platform).
Abbreviation ref_handleMessage := (handleMessage RefPlatform.platform).
Abbreviation ref_run := (run RefPlatform.platform).

(** On the reference platform the conversion of the router is the one
    of the platform. *)
Lemma ref_ToNumber (v : value) :
  ToNumber RefPlatform.platform v = RefPlatform.ToNumber v.
Proof. by destruct v. Qed.

(** A server on port 9223 with one registered extension, on socket 7. *)
Definition attached : CDPBridgeServer :=
  ref_handleMessage 7 (MsgRegister (Some ["navigate"; "screenshot"])) (new_server 9223).

Lemma passthrough_fidelity_witness :
  let params := [("action", VStr "Emulation.setDeviceMetricsOverride"); ("foo", VNum 1)] in
  outbox (snd (ref_browser params attached)) =
  [(7%nat, mkCommand 1 (VStr "Emulation.setDeviceMetricsOverride") (VObj [("foo", VNum 1)]))].
Proof.
  intros params.
  destruct (passthrough_fidelity RefPlatform.platform
              "Emulation.setDeviceMetricsOverride" params attached eq_refl)
    as (_ & Hsend & _).
  - intros H%one_of_In. discriminate H.
  - exact (Hsend 7%nat _ [] eq_refl).
Defined.

(** The screenshot data [aGk=] is the two bytes of [hi]. *)
Definition screenshot_command : list (string * value) :=
  [("action", VStr "screenshot"); ("format", VStr "png"); ("filename", VStr "out.png")].

Lemma screenshot_side_effect_witness :
  exists q s1,
    ref_browser screenshot_command attached = (q, s1) /\
    files s1 = ∅ /\
    files (ref_handleMessage 7 (MsgReply 1 None (VObj [("data", VStr "aGk=")])) s1) =
      {[ Named "out.png" := [104; 105] ]} /\
    promises (ref_handleMessage 7 (MsgReply 1 None (VObj [("data", VStr "aGk=")])) s1) !! q =
      Some (Fulfilled (VObj [("saved", VStr "out.png"); ("bytes", VNum 2)])).
Proof.
  destruct (screenshot_side_effect RefPlatform.platform screenshot_command attached
              7%nat _ [] eq_refl eq_refl)
    as (q & s1 & Hb & _ & Hfiles & _ & Hsaved & _).
  exists q, s1. split; [exact Hb|]. split; [exact Hfiles|].
  exact (proj1 (Hsaved "out.png" "aGk=" (VObj [("data", VStr "aGk=")]) eq_refl
                  ltac:(discriminate) eq_refl ltac:(discriminate)) eq_refl).
Defined.

(** A screenshot whose filename is a directory: the file system refuses
    the write, the call is rejected with its error and nothing is
    written. *)
Example screenshot_write_refused :
  exists s e,
    ref_run [CallBrowser [("action", VStr "screenshot"); ("filename", VStr ".")];
             Receive 7 (MsgReply 1 None (VObj [("data", VStr "aGk=")]))] attached
      = Some s /\
    promises s !! 3%nat = Some (Rejected e) /\ err_code e = VStr "EISDIR" /\
    files s = ∅.
Proof. eexists _, _. split; [vm_compute; reflexivity|]. split; [|split]; vm_compute; reflexivity. Qed.

(** A numeric filename is a file descriptor: the bytes go to the
    descriptor, here the standard output. *)
Example screenshot_to_descriptor :
  exists s,
    ref_run [CallBrowser [("action", VStr "screenshot"); ("filename", VNum 1)];
             Receive 7 (MsgReply 1 None (VObj [("data", VStr "aGk=")]))] attached
      = Some s /\
    promises s !! 3%nat =
      Some (Fulfilled (VObj [("saved", VNum 1); ("bytes", VNum 2)])) /\
    files s = {[ Descriptor 1 := [104; 105] ]}.
Proof. eexists. split; [vm_compute; reflexivity|]. split; vm_compute; reflexivity. Qed.

(** C8, as stated, fails when a filename is given and the underlying
    call succeeds with the result [null]: the result has no data, and
    the call does not return it unchanged but is rejected with a
    [TypeError]; nothing is written. *)
Lemma screenshot_null_result_throws :
  exists s,
    ref_run [CallBrowser screenshot_command; Receive 7 (MsgReply 1 None VNull)] attached
      = Some s /\
    fst (ref_browser screenshot_command attached) = 3%nat /\
    promises s !! 3%nat =
      Some (Rejected (TypeError "Cannot read properties of null or undefined")) /\
    files s = ∅.
Proof. eexists. split; [vm_compute; reflexivity|]. split; [|split]; vm_compute; reflexivity. Qed.

(** Without a filename the same reply is returned unchanged. *)
Example screenshot_null_without_filename :
  exists s,
    ref_run [CallBrowser [("action", VStr "screenshot")];
             Receive 7 (MsgReply 1 None VNull)] attached = Some s /\
    promises s !! 3%nat = Some (Fulfilled VNull).
Proof. eexists. split; vm_compute; reflexivity. Qed.

(** *** The server as a whole *)

Section Server.
Variable platform : Platform.

#[local] Abbreviation browser := (browser platform).
#[local] Abbreviation sendRaw := (sendRaw platform).
#[local] Abbreviation handleMessage := (handleMessage platform).
#[local] Abbreviation settle := (settle platform).
#[local] Abbreviation run_timer := (run_timer platform).
#[local] Abbreviation step := (step platform).
#[local] Abbreviation run := (run platform).
#[local] Abbreviation ToNumber := (ToNumber platform).

(** The states a server reaches from its construction. *)
Inductive reachable : CDPBridgeServer -> Prop :=
| reach_new port : reachable (new_server port)
| reach_step e s s' : reachable s -> step e s = Some s' -> reachable s'.

Lemma router_run_reachable (es : list Event) (s s' : CDPBridgeServer) :
  reachable s -> run es s = Some s' -> reachable s'.
Proof.
  revert s. induction es as [|e es IH]; intros s Hr Hrun; simpl in Hrun.
  - by injection Hrun as <-.
  - destruct (Router.step platform e s) as [s1|] eqn:Hstep; [|discriminate].
    eapply IH; [|exact Hrun]. by eapply reach_step.
Qed.

(** Reduce the projections of the server record, and nothing else. *)
Ltac server_simpl :=
  cbn [clients pendingCommands commandId httpPort outbox promises suspended timers
       files clock fresh set_clients set_pendingCommands set_commandId set_outbox
       set_promises set_suspended set_timers set_files set_clock set_fresh
       new_promise setTimeout fst snd].

(** What [settle] leaves alone. *)
Lemma router_settle_frame (p : nat) (o : PromiseState) (s : CDPBridgeServer) :
  clients (settle p o s) = clients s /\
  pendingCommands (settle p o s) = pendingCommands s /\
  commandId (settle p o s) = commandId s /\ outbox (settle p o s) = outbox s /\
  timers (settle p o s) = timers s /\ fresh (settle p o s) = fresh s /\
  clock (settle p o s) = clock s /\ httpPort (settle p o s) = httpPort s /\
  (forall q x, suspended (settle p o s) !! q = Some x -> suspended s !! q = Some x) /\
  (forall q, is_Some (promises (settle p o s) !! q) ->
     is_Some (promises s !! q) \/
     exists rest, suspended s !! p = Some (KScreenshot rest q)).
Proof.
  unfold Router.settle.
  destruct (promises s !! p) as [[]|] eqn:Hp; try (repeat split; try done; by left).
  server_simpl.
  destruct (suspended s !! p) as [[rest q]|] eqn:Hk.
  2: { repeat split; try done. intros q. server_simpl. rewrite lookup_insert. case_decide; [|by left].
       subst. left. by eexists. }
  assert (Hafter : forall screenshot s0,
    let r := after_screenshot platform rest screenshot s0 in
    clients (snd r) = clients s0 /\ pendingCommands (snd r) = pendingCommands s0 /\
    commandId (snd r) = commandId s0 /\ outbox (snd r) = outbox s0 /\
    timers (snd r) = timers s0 /\ fresh (snd r) = fresh s0 /\
    clock (snd r) = clock s0 /\ httpPort (snd r) = httpPort s0 /\
    suspended (snd r) = suspended s0 /\ promises (snd r) = promises s0).
  { intros screenshot s0. unfold after_screenshot, writeFileSync, Buffer_from.
    repeat case_match; simplify_eq; simpl; done. }
  assert (Hq : forall q' x (m : gmap nat PromiseState),
    is_Some (<[q := x]> (<[p := o]> m) !! q') ->
    m = promises s ->
    is_Some (promises s !! q') \/ exists rest', Some (KScreenshot rest q) = Some (KScreenshot rest' q')).
  { intros q' x m H ->. rewrite lookup_insert in H. case_decide; [subst; right; by eexists|].
    rewrite lookup_insert in H. case_decide; [subst; left; by eexists|]. by left. }
  destruct o as [|screenshot|e]; server_simpl.
  - repeat split; try done.
    + intros q' x. rewrite lookup_delete. by case_decide.
    + intros q'. rewrite lookup_insert. case_decide; [subst; left; by eexists|by left].
  - match goal with |- context [after_screenshot _ _ _ ?s0] =>
      pose proof (Hafter screenshot s0) as (H1 & H2 & H3 & H4 & H5 & H6 & H7 & H8 & H9 & H10);
      destruct (after_screenshot platform rest screenshot s0) as [[v|e] s1]
    end; simpl in *; rewrite ?H1, ?H2, ?H3, ?H4, ?H5, ?H6, ?H7, ?H8, ?H9, ?H10.
    all: repeat split; try done.
    all: try (intros q' x; rewrite lookup_delete; by case_decide).
    all: intros q' Hs; by eapply Hq.
  - repeat split; try done.
    + intros q' x. rewrite lookup_delete. by case_decide.
    + intros q' Hs. by eapply Hq.
Qed.


(** The shapes of a call of [browser]: one call of [sendRaw]; the
    screenshot case, which awaits one; the two cases that call
    nothing. *)
Definition screenshot_call (ps : value) (rest : list (string * value))
  (s : CDPBridgeServer) : nat * CDPBridgeServer :=
  let (p, s) := sendRaw (VStr "hanzo.screenshot") ps s in
  match promises s !! p with
  | Some (Rejected e) => (p, s)
  | _ =>
      let (q, s) := new_promise s in
      (q, set_suspended (<[p := KScreenshot rest q]> (suspended s)) s)
  end.

Definition wait_call (waited : value) (s : CDPBridgeServer) : nat * CDPBridgeServer :=
  let (q, s) := new_promise s in
  match Router.ToNumber platform waited with
  | Ok n => (q, setTimeout (WaitDone q (VObj [("waited", waited)])) (times_1000 n) s)
  | Throw e => (q, settle q (Rejected e) s)
  end.

Definition status_call (s : CDPBridgeServer) : nat * CDPBridgeServer :=
  let (q, s) := new_promise s in
  (q, settle q (Fulfilled
         (VObj [("connected", VBool (0 <? Z.of_nat (length (clients s))));
                ("clients", VNum (Z.of_nat (length (clients s))));
                ("port", VNum (httpPort s))])) s).

Lemma browser_cases (params : list (string * value)) (s : CDPBridgeServer) :
  (exists method ps,
     browser params s = sendRaw method ps s /\
     field params "action" <> VStr "status" /\ field params "action" <> VStr "wait") \/
  (exists ps,
     browser params s = screenshot_call ps (without "action" params) s /\
     field params "action" = VStr "screenshot") \/
  (browser params s =
     wait_call (or (field (without "action" params) "timeout") (VNum 1)) s /\
   field params "action" = VStr "wait") \/
  (browser params s = status_call s /\ field params "action" = VStr "status").
Proof.
  unfold Router.browser.
  destruct (field params "action") as [| |b|n|a|items|props] eqn:Ha;
    try (left; eexists _, _; split; [reflexivity|]; split; discriminate).
  repeat match goal with
  | |- context [if one_of a ?ls then _ else _] =>
      let H := fresh "H" in
      destruct (one_of a ls) eqn:H;
      [ apply one_of_In in H; simpl in H | ]
  end.
  all: try (left; eexists _, _; split; [reflexivity|]; split; intros [= ->];
            first [ discriminate | intuition discriminate ]).
  - right. left. eexists. split; [reflexivity|]. intuition congruence.
  - right. right. left. split; [reflexivity|]. intuition congruence.
  - right. right. right. split; [reflexivity|]. intuition congruence.
Qed.

(** What holds of the server in every state it reaches. *)
Record router_inv (s : CDPBridgeServer) : Prop := {
  inv_commandId : 0 <= commandId s;
  inv_pending : forall id pc, pendingCommands s !! id = Some pc -> 0 < id <= commandId s;
  inv_outbox : Forall (fun m => 0 < cmd_id (snd m) <= commandId s) (outbox s);
  inv_outbox_ids : NoDup (map (fun m => cmd_id (snd m)) (outbox s));
  inv_clients : forall w c, In (w, c) (clients s) -> cl_ws c = w;
  inv_client_keys : NoDup (map fst (clients s));
  inv_suspended : forall p k, suspended s !! p = Some k -> (p < fresh s)%nat
}.

Lemma router_inv_settle (p : nat) (o : PromiseState) (s : CDPBridgeServer) :
  router_inv s -> router_inv (settle p o s).
Proof.
  intros [A B C D E F G].
  destruct (router_settle_frame p o s) as (H1 & H2 & H3 & H4 & H5 & H6 & H7 & H8 & H9 & H10).
  split; rewrite ?H1, ?H2, ?H3, ?H4, ?H6; try done.
  intros q k Hq. apply H9 in Hq. eauto.
Qed.

Lemma router_inv_sendRaw (method params : value) (s : CDPBridgeServer) :
  router_inv s -> router_inv (snd (sendRaw method params s)).
Proof.
  intros I. unfold Router.sendRaw. server_simpl.
  destruct (clients s) as [|[w client] others] eqn:Hc; server_simpl.
  - apply router_inv_settle. destruct I as [A B C D E F G].
    split; server_simpl; rewrite ?Hc; try done; try (by constructor).
    intros q k Hq. apply G in Hq. lia.
  - destruct I as [A B C D E F G]. split; server_simpl; try done.
    + lia.
    + intros id pc. rewrite lookup_insert. case_decide; [intros _; lia|].
      intros H'. apply B in H'. lia.
    + apply Forall_app. split.
      * eapply Forall_impl; [exact C|]. simpl. intros; lia.
      * apply Forall_singleton. simpl. lia.
    + rewrite map_app. apply NoDup_app. split; [done|]. split; [|apply NoDup_singleton].
      intros x Hx [Heq|[]]%list_elem_of_In. simpl in Heq. subst x.
      apply list_elem_of_In, in_map_iff in Hx as (m & Hm & Hin).
      apply list_elem_of_In in Hin. rewrite Forall_forall in C. apply C in Hin.
      simpl in Hm. lia.
    + intros q k Hq. apply G in Hq. lia.
Qed.

Lemma router_inv_browser (params : list (string * value)) (s : CDPBridgeServer) :
  router_inv s -> router_inv (snd (browser params s)).
Proof.
  intros I.
  destruct (browser_cases params s)
    as [(method & ps & -> & _)|[(ps & -> & _)|[[-> _]|[-> _]]]].
  - by apply router_inv_sendRaw.
  - unfold screenshot_call.
    pose proof (router_inv_sendRaw (VStr "hanzo.screenshot") ps s I) as J.
    assert (Hfresh : (fresh s < fresh (snd (sendRaw (VStr "hanzo.screenshot") ps s)))%nat /\
                     fst (sendRaw (VStr "hanzo.screenshot") ps s) = fresh s).
    { unfold Router.sendRaw. server_simpl. destruct (clients s) as [|[w c] o]; server_simpl.
      - destruct (router_settle_frame (fresh s) (Rejected (Error_new "No browser extension connected"))
                    (set_fresh (S (fresh s))
                       (set_promises (<[fresh s := Pending]> (promises s)) s)))
          as (_ & _ & _ & _ & _ & -> & _). server_simpl. split; [lia|done].
      - split; [lia|done]. }
    destruct (sendRaw (VStr "hanzo.screenshot") ps s) as [p s1]. simpl in J, Hfresh.
    destruct Hfresh as [Hlt ->].
    assert (K : router_inv (set_suspended
                  (<[fresh s := KScreenshot (without "action" params) (fresh s1)]> (suspended s1))
                  (set_fresh (S (fresh s1))
                     (set_promises (<[fresh s1 := Pending]> (promises s1)) s1)))).
    { destruct J as [A B C D E F G]. split; server_simpl; try done.
      intros q k. rewrite lookup_insert. case_decide; [intros _; lia|].
      intros Hq. apply G in Hq. lia. }
    destruct (promises s1 !! fresh s) as [[]|]; server_simpl; done.
  - unfold wait_call. server_simpl.
    assert (K : router_inv (set_fresh (S (fresh s))
                  (set_promises (<[fresh s := Pending]> (promises s)) s))).
    { destruct I as [A B C D E F G].
      split; server_simpl; try done. intros q k Hq. apply G in Hq. lia. }
    destruct (Router.ToNumber platform _) as [n|e]; server_simpl.
    + destruct K as [A B C D E F G].
      split; server_simpl; try done. intros q k Hq. apply G in Hq. simpl in Hq. lia.
    + by apply router_inv_settle.
  - unfold status_call. server_simpl. apply router_inv_settle.
    destruct I as [A B C D E F G].
    split; server_simpl; try done. intros q k Hq. apply G in Hq. lia.
Qed.

Lemma clients_set_spec (w : nat) (c : CDPClient) (l : list (nat * CDPClient)) :
  NoDup (map fst l) ->
  NoDup (map fst (clients_set w c l)) /\
  (forall w' c', In (w', c') (clients_set w c l) -> (w' = w /\ c' = c) \/ In (w', c') l) /\
  (forall w0 c0 rest, l = (w0, c0) :: rest ->
     exists c1 rest', clients_set w c l = (w0, c1) :: rest' /\ (w <> w0 -> c1 = c0)) /\
  (l = [] -> clients_set w c l = [(w, c)]).
Proof.
  induction l as [|[w1 c1] l IH]; simpl; intros Hnd.
  { split; [apply NoDup_singleton|]. split; [intros w' c' [[= <- <-]|[]]; by left|].
    split; [done|done]. }
  apply NoDup_cons in Hnd as [Hn Hnd]. destruct (IH Hnd) as (IH1 & IH2 & _).
  destruct (Nat.eqb_spec w w1) as [<-|Hne]; simpl.
  - split; [by apply NoDup_cons|]. split.
    + intros w' c' [[= <- <-]|Hin]; [by left|right; by right].
    + split; [|done]. intros w0 c0 rest [= <- <- <-]. eexists _, _. split; [done|]. done.
  - split.
    + apply NoDup_cons. split; [|done]. rewrite list_elem_of_In in *.
      intros ([w' c'] & Heq & Hin)%in_map_iff. simpl in Heq. subst w'.
      apply IH2 in Hin as [[-> _]|Hin]; [done|]. apply Hn. apply in_map_iff. by exists (w1, c').
    + split.
      * intros w' c' [[= <- <-]|Hin]; [right; by left|].
        apply IH2 in Hin as [?|?]; [by left|right; by right].
      * split; [|done]. intros w0 c0 rest [= <- <- <-]. eexists _, _. split; [done|]. done.
Qed.

Lemma router_inv_step (e : Event) (s s' : CDPBridgeServer) :
  router_inv s -> step e s = Some s' -> router_inv s'.
Proof.
  intros I Hstep. destruct e; simpl in Hstep.
  - injection Hstep as <-. by apply router_inv_browser.
  - injection Hstep as <-. destruct m; unfold Router.handleMessage; try done.
    + destruct I as [A B C D E F G].
      destruct (clients_set_spec w (mkCDPClient w (default [] capabilities)) (clients s) F)
        as (F' & Hin & _).
      split; server_simpl; try done.
      intros w' c' [[-> ->]|Hc]%Hin; [done|by apply E].
    + destruct (pendingCommands s !! id) as [pending|] eqn:Hp; [|done].
      assert (J : forall p o, router_inv
                    (set_pendingCommands (delete id (pendingCommands (settle p o s)))
                                         (settle p o s))).
      { intros p o. pose proof (router_inv_settle p o s I) as [A B C D E F G].
        split; server_simpl; try done.
        intros id' pc. rewrite lookup_delete. case_decide; [done|]. apply B. }
      destruct error; apply J.
  - injection Hstep as <-. destruct I as [A B C D E F G].
    split; server_simpl; try done.
    + intros w' c' Hin. apply filter_In in Hin as [Hin _]. by apply E.
    + eapply sublist_NoDup; [exact F|]. clear.
      induction (clients s) as [|[w' c'] l IH]; simpl; [constructor|].
      destruct (negb (w' =? w)%nat); simpl; [by constructor|by apply sublist_cons].
  - destruct (timers s !! t) as [tm|] eqn:Ht; [|done].
    destruct (deadline tm <=? clock s); [|done]. injection Hstep as <-.
    assert (J : router_inv (set_timers (delete t (timers s)) s)).
    { destruct I. by split. }
    unfold Router.run_timer. destruct (action tm) as [id p|q waited].
    + server_simpl. destruct (pendingCommands s !! id) as [pc|] eqn:Hp; [|done].
      apply router_inv_settle. destruct J as [A B C D E F G].
      split; server_simpl; try done.
      intros id' pc'. rewrite lookup_delete. case_decide; [done|]. apply B.
    + by apply router_inv_settle.
  - destruct (0 <=? dt); [|done]. injection Hstep as <-. destruct I. by split.
Qed.

Lemma reachable_router_inv (s : CDPBridgeServer) : reachable s -> router_inv s.
Proof.
  induction 1 as [port | e s s' _ IH Hstep].
  - split; simpl; try done; try constructor.
  - by eapply router_inv_step.
Qed.


Lemma sendRaw_none (method params : value) (s : CDPBridgeServer) :
  clients s = [] -> suspended s !! fresh s = None ->
  sendRaw method params s =
  (fresh s,
   set_promises (<[fresh s := Rejected (Error_new "No browser extension connected")]>
                   (promises s))
                (set_fresh (S (fresh s)) s)).
Proof.
  intros Hc Hk. unfold Router.sendRaw. server_simpl. rewrite Hc.
  unfold Router.settle. server_simpl. rewrite lookup_insert_eq, Hk. server_simpl.
  by rewrite insert_insert_eq.
Qed.

Lemma fresh_not_suspended (s : CDPBridgeServer) :
  reachable s -> suspended s !! fresh s = None.
Proof.
  intros Hr. destruct (suspended s !! fresh s) as [k|] eqn:Hk; [|done].
  apply (inv_suspended _ (reachable_router_inv s Hr)) in Hk. lia.
Qed.

(** X17.  No extension attached.  On a server with no registered
    extension, every command other than [status] and [wait] is rejected
    with 'No browser extension connected': nothing is sent, no command
    id is used, nothing is left pending, no timer is armed and no file
    is written. *)
Theorem no_extension_rejects (params : list (string * value)) (s : CDPBridgeServer) :
  reachable s -> clients s = [] ->
  field params "action" <> VStr "status" -> field params "action" <> VStr "wait" ->
  let p := fst (browser params s) in
  let s' := snd (browser params s) in
  promises s' !! p = Some (Rejected (Error_new "No browser extension connected")) /\
  outbox s' = outbox s /\ pendingCommands s' = pendingCommands s /\
  timers s' = timers s /\ commandId s' = commandId s /\ files s' = files s.
Proof.
  intros Hr Hc Hns Hnw. pose proof (fresh_not_suspended s Hr) as Hk. cbv zeta.
  destruct (browser_cases params s)
    as [(method & ps & -> & _)|[(ps & -> & _)|[[_ Ha]|[_ Ha]]]]; try done.
  - rewrite (sendRaw_none _ _ _ Hc Hk). server_simpl. by rewrite lookup_insert_eq.
  - unfold screenshot_call. rewrite (sendRaw_none _ _ _ Hc Hk). server_simpl.
    rewrite lookup_insert_eq. server_simpl. by rewrite lookup_insert_eq.
Qed.

(** X18.  Command ids are never reused.  In every state the server
    reaches, the id the next command will get is neither pending nor the
    id of any message sent before, and no two messages sent carry the
    same id: a reply can only settle the command it answers. *)
Theorem command_ids_never_reused (s : CDPBridgeServer) :
  reachable s ->
  pendingCommands s !! (commandId s + 1) = None /\
  (forall m, In m (outbox s) -> cmd_id (snd m) <> commandId s + 1) /\
  NoDup (map (fun m => cmd_id (snd m)) (outbox s)) /\
  (forall method params w client others,
     clients s = (w, client) :: others ->
     pendingCommands (snd (sendRaw method params s)) =
       <[commandId s + 1 := mkPendingCommand (fresh s) (fresh s)]> (pendingCommands s) /\
     forall id, id <> commandId s + 1 ->
       pendingCommands (snd (sendRaw method params s)) !! id = pendingCommands s !! id).
Proof.
  intros Hr. destruct (reachable_router_inv s Hr) as [A B C D E F G].
  split.
  { destruct (pendingCommands s !! (commandId s + 1)) as [pc|] eqn:Hp; [|done].
    apply B in Hp. lia. }
  split.
  { intros m Hm. rewrite Forall_forall in C. apply list_elem_of_In, C in Hm. lia. }
  split; [done|].
  intros method params w client others Hc.
  destruct (sendRaw_attached platform method params s w client others Hc)
    as (_ & _ & Hp & _).
  cbv zeta in Hp. rewrite Hp. split; [done|].
  intros id Hne. by rewrite lookup_insert_ne.
Qed.

(** X19.  The first settlement of a command wins.  For a command that
    is pending on a promise: a reply settles the promise (fulfilled
    with the result, or rejected with the error message of the reply)
    and removes the entry, and the command's timer, firing later,
    changes nothing; the timer, firing first, rejects the promise with
    'Command timeout' and removes the entry, and a reply arriving later
    changes nothing.  Neither sends anything. *)
Theorem first_settlement_wins (id : Z) (p : nat) (s : CDPBridgeServer) :
  pendingCommands s !! id = Some (mkPendingCommand p p) ->
  promises s !! p = Some Pending -> suspended s !! p = None ->
  (forall w error result,
     let s1 := handleMessage w (MsgReply id error result) s in
     promises s1 = <[p := match error with
                          | Some message => Rejected (Error_new message)
                          | None => Fulfilled result
                          end]> (promises s) /\
     pendingCommands s1 = delete id (pendingCommands s) /\ outbox s1 = outbox s /\
     run_timer (CommandTimeout id p) s1 = s1 /\
     (forall w' error' result', handleMessage w' (MsgReply id error' result') s1 = s1)) /\
  (let s2 := run_timer (CommandTimeout id p) s in
   promises s2 = <[p := Rejected (Error_new "Command timeout")]> (promises s) /\
   pendingCommands s2 = delete id (pendingCommands s) /\ outbox s2 = outbox s /\
   run_timer (CommandTimeout id p) s2 = s2 /\
   (forall w error result, handleMessage w (MsgReply id error result) s2 = s2)).
Proof.
  intros Hp Hpend Hk.
  assert (Hsettle : forall o s0,
    promises s0 !! p = Some Pending -> suspended s0 !! p = None ->
    settle p o s0 = set_promises (<[p := o]> (promises s0)) s0).
  { intros o s0 H1 H2. unfold Router.settle. rewrite H1. server_simpl. by rewrite H2. }
  split.
  - intros w error result s1. subst s1. unfold Router.handleMessage. rewrite Hp.
    server_simpl. destruct error as [message|]; rewrite Hsettle by done; server_simpl.
    all: split; [done|]; split; [done|]; split; [done|].
    all: unfold Router.run_timer; server_simpl;
      rewrite (lookup_delete_eq (pendingCommands s) id); done.
  - cbv zeta.
    assert (Hs2 : run_timer (CommandTimeout id p) s =
              set_promises (<[p := Rejected (Error_new "Command timeout")]> (promises s))
                           (set_pendingCommands (delete id (pendingCommands s)) s)).
    { unfold Router.run_timer. rewrite Hp. by rewrite Hsettle. }
    rewrite !Hs2. server_simpl.
    split; [done|]. split; [done|]. split; [done|].
    unfold Router.run_timer, Router.handleMessage. server_simpl.
    rewrite (lookup_delete_eq (pendingCommands s) id). done.
Qed.

(** X20.  Commands go to the extension that registered first.  While
    an extension is attached on socket [w], every command is sent on
    [w], whatever other sockets register later; a registration from [w]
    itself replaces its capabilities in place.  When [w] closes the
    extensions that registered after it remain, in their order, and a
    closing of another socket leaves [w] first. *)
Theorem commands_go_to_first_registered (s : CDPBridgeServer)
  (w : nat) (client : CDPClient) (others : list (nat * CDPClient)) :
  reachable s -> clients s = (w, client) :: others ->
  (forall method params,
     outbox (snd (sendRaw method params s)) =
     outbox s ++ [(w, mkCommand (commandId s + 1) method params)]) /\
  (forall w' capabilities,
     exists client' others',
       clients (handleMessage w' (MsgRegister capabilities) s) = (w, client') :: others' /\
       (w' <> w -> client' = client) /\
       (w' = w -> client' = mkCDPClient w (default [] capabilities) /\ others' = others)) /\
  (forall s', step (SocketClosed w) s = Some s' -> clients s' = others) /\
  (forall w' s', w' <> w -> step (SocketClosed w') s = Some s' ->
     exists others', clients s' = (w, client) :: others').
Proof.
  intros Hr Hc. destruct (reachable_router_inv s Hr) as [A B C D E F G].
  assert (Hw : cl_ws client = w) by (apply E; rewrite Hc; by left).
  split.
  { intros method params.
    destruct (sendRaw_attached platform method params s w client others Hc)
      as (_ & Ho & _). cbv zeta in Ho. by rewrite Ho, Hw. }
  split.
  { intros w' capabilities. unfold Router.handleMessage. server_simpl. rewrite Hc. simpl.
    destruct (Nat.eqb_spec w' w) as [->|Hne].
    - eexists _, _. split; [reflexivity|]. split; [done|]. done.
    - eexists _, _. split; [reflexivity|]. split; [done|]. done. }
  split.
  { intros s' [= <-]. server_simpl. rewrite Hc. simpl. rewrite Nat.eqb_refl. simpl.
    rewrite Hc in F. simpl in F. apply NoDup_cons in F as [Hn _].
    rewrite list_elem_of_In in Hn. clear -Hn.
    induction others as [|[w1 c1] l IH]; simpl; [done|].
    destruct (Nat.eqb_spec w1 w) as [->|Hne]; simpl.
    - exfalso. apply Hn. by left.
    - f_equal. apply IH. intros H. apply Hn. by right. }
  intros w' s' Hne [= <-]. server_simpl. rewrite Hc. simpl.
  destruct (Nat.eqb_spec w w'); [congruence|]. simpl. by eexists.
Qed.


(** Decide the tests of the [switch] for a given action name. *)
Ltac decide_labels :=
  repeat match goal with
  | |- context [one_of ?a ?ls] =>
      let b := eval vm_compute in (one_of a ls) in
      change (one_of a ls) with b
  end;
  cbv iota.

(** The labels of [browser]'s [switch] that share a case. *)
Definition action_aliases : list (string * string) :=
  [("navigate_back", "go_back"); ("navigate_forward", "go_forward");
   ("dblclick", "double_click"); ("press_key", "press"); ("tabs", "list_tabs");
   ("console_messages", "console")].

(** X21.  Alias actions.  Two commands that differ only in naming an
    action by one or the other label of the same case do the same:
    [navigate_back] and [go_back], [navigate_forward] and [go_forward],
    [dblclick] and [double_click], [press_key] and [press], [tabs] and
    [list_tabs], [console_messages] and [console]. *)
Theorem alias_actions (a1 a2 : string) (params1 params2 : list (string * value))
  (s : CDPBridgeServer) :
  In (a1, a2) action_aliases ->
  field params1 "action" = VStr a1 -> field params2 "action" = VStr a2 ->
  without "action" params1 = without "action" params2 ->
  browser params1 s = browser params2 s.
Proof.
  intros Hin H1 H2 Hrest. unfold Router.browser. rewrite H1, H2, Hrest.
  simpl in Hin.
  repeat (destruct Hin as [[= <- <-]|Hin]; [decide_labels; reflexivity|]). destruct Hin.
Qed.

Lemma lookup_prop_without (k : string) (more : list (string * value)) :
  k <> "action" -> lookup_prop k (without "action" more) = lookup_prop k more.
Proof.
  intros Hk. induction more as [|[k' x] more IH]; [done|].
  cbn [without lookup_prop].
  destruct (String.eqb_spec "action" k') as [<-|Hne]; cbn [lookup_prop].
  - destruct (String.eqb_spec k "action"); [done|]. exact IH.
  - destruct (String.eqb k k'); [done|exact IH].
Qed.

Lemma without_action_cons (v : value) (ps : list (string * value)) :
  without "action" (("action", v) :: ps) = without "action" ps.
Proof. reflexivity. Qed.

Lemma without_other (k : string) (x : value) (ps : list (string * value)) :
  k <> "action" -> without "action" ((k, x) :: ps) = (k, x) :: without "action" ps.
Proof. intros Hk. cbn [without]. by destruct (String.eqb_spec "action" k). Qed.

Lemma field_action (v : value) (ps : list (string * value)) :
  field (("action", v) :: ps) "action" = v.
Proof. reflexivity. Qed.

Lemma field_cons_eq (k : string) (x : value) (ps : list (string * value)) :
  field ((k, x) :: ps) k = x.
Proof. unfold field. cbn [lookup_prop]. by rewrite String.eqb_refl. Qed.

Lemma field_cons_ne (k k' : string) (x : value) (ps : list (string * value)) :
  k <> k' -> field ((k', x) :: ps) k = field ps k.
Proof. intros Hk. unfold field. cbn [lookup_prop]. by destruct (String.eqb_spec k k'). Qed.

(** The actions of [browser] that address an element. *)
Definition selector_actions : list string :=
  ["click"; "dblclick"; "double_click"; "hover"; "type"; "fill"; "clear";
   "select_option"; "check"; "uncheck"].

(** X22.  [ref] stands for [selector].  For the actions that address
    an element, a command that gives the element as a non-empty [ref]
    and has no [selector] does the same as the command that gives it as
    [selector]; and when a non-empty [selector] is given, a [ref]
    beside it is ignored. *)
Theorem ref_stands_for_selector (a : string) (r : value) (more : list (string * value))
  (s : CDPBridgeServer) :
  In a selector_actions -> truthy r = true ->
  lookup_prop "selector" more = None -> lookup_prop "ref" more = None ->
  browser (("action", VStr a) :: ("ref", r) :: more) s =
    browser (("action", VStr a) :: ("selector", r) :: more) s /\
  (forall r',
     browser (("action", VStr a) :: ("selector", r) :: ("ref", r') :: more) s =
     browser (("action", VStr a) :: ("selector", r) :: more) s).
Proof.
  intros Hin Hr Hsel Href.
  assert (Hmain : forall ps1 ps2,
    field ps1 "action" = VStr a -> field ps2 "action" = VStr a ->
    selector_of (without "action" ps1) = selector_of (without "action" ps2) ->
    field (without "action" ps1) "text" = field (without "action" ps2) "text" ->
    field (without "action" ps1) "value" = field (without "action" ps2) "value" ->
    browser ps1 s = browser ps2 s).
  { intros ps1 ps2 Ha1 Ha2 H1 H2 H3. unfold Router.browser. rewrite Ha1, Ha2.
    simpl in Hin.
    repeat (destruct Hin as [<-|Hin];
      [decide_labels; rewrite ?H1, ?H2, ?H3; reflexivity|]).
    destruct Hin. }
  assert (Hsel' : lookup_prop "selector" (without "action" more) = None)
    by (by rewrite lookup_prop_without).
  set (rest := without "action" more) in *.
  assert (Hs1 : selector_of (("ref", r) :: rest) = r).
  { unfold selector_of. rewrite (field_cons_ne "selector" "ref") by discriminate.
    rewrite field_cons_eq. unfold field. rewrite Hsel'. done. }
  assert (Hs2 : forall ps, selector_of (("selector", r) :: ps) = r).
  { intros ps. unfold selector_of. rewrite field_cons_eq. unfold or. by rewrite Hr. }
  split; [|intros r']; apply Hmain; try reflexivity;
    rewrite !without_action_cons, ?(without_other "ref"), ?(without_other "selector")
      by discriminate;
    fold rest; rewrite ?Hs1, ?Hs2; try reflexivity;
    by rewrite !field_cons_ne by discriminate.
Qed.


End Server.

Abbreviation ref_reachable := (reachable RefPlatform.platform).
Abbreviation ref_sendRaw := (sendRaw RefPlatform.platform).
Abbreviation ref_run_timer := (run_timer RefPlatform.platform).
Abbreviation ref_step := (step RefPlatform.platform).

Lemma attached_reachable : ref_reachable attached.
Proof.
  apply (reach_step RefPlatform.platform
           (Receive 7 (MsgRegister (Some ["navigate"; "screenshot"]))) (new_server 9223));
    [apply reach_new | reflexivity].
Qed.

Lemma no_extension_rejects_witness :
  let params := [("action", VStr "navigate"); ("url", VStr "https://example.org")] in
  promises (snd (ref_browser params (new_server 9223))) !! 1%nat =
    Some (Rejected (Error_new "No browser extension connected")) /\
  outbox (snd (ref_browser params (new_server 9223))) = [].
Proof.
  intros params.
  destruct (no_extension_rejects RefPlatform.platform params (new_server 9223)
              (reach_new _ 9223) eq_refl
              ltac:(discriminate) ltac:(discriminate))
    as (Hp & Ho & _).
  split; [exact Hp|exact Ho].
Defined.

(** An attached server with one command in flight. *)
Definition navigating : CDPBridgeServer :=
  snd (ref_browser [("action", VStr "navigate"); ("url", VStr "https://example.org")]
                   attached).

Lemma navigating_reachable : ref_reachable navigating.
Proof.
  apply (reach_step RefPlatform.platform
           (CallBrowser [("action", VStr "navigate"); ("url", VStr "https://example.org")])
           attached);
    [apply attached_reachable | reflexivity].
Qed.

Lemma command_ids_never_reused_witness :
  commandId navigating = 1 /\
  pendingCommands navigating !! 2 = None /\
  NoDup (map (fun m => cmd_id (snd m)) (outbox navigating)).
Proof.
  destruct (command_ids_never_reused RefPlatform.platform navigating
              navigating_reachable)
    as (Hp & _ & Hnd & _).
  split; [reflexivity|]. split; [exact Hp|exact Hnd].
Defined.

Lemma first_settlement_wins_witness :
  let late := ref_run_timer (CommandTimeout 1 1) navigating in
  promises late !! 1%nat = Some (Rejected (Error_new "Command timeout")) /\
  ref_handleMessage 7 (MsgReply 1 None (VStr "done")) late = late.
Proof.
  intros late. subst late.
  destruct (first_settlement_wins RefPlatform.platform 1 1 navigating
              ltac:(vm_compute; reflexivity) ltac:(vm_compute; reflexivity)
              ltac:(vm_compute; reflexivity))
    as (_ & Hp & _ & _ & _ & Hlate).
  split.
  - rewrite Hp. apply lookup_insert_eq.
  - apply Hlate.
Defined.

Lemma commands_go_to_first_registered_witness :
  exists client' others',
    clients (ref_handleMessage 8 (MsgRegister None) attached) = (7%nat, client') :: others' /\
    client' = mkCDPClient 7 ["navigate"; "screenshot"].
Proof.
  destruct (commands_go_to_first_registered RefPlatform.platform attached
              7%nat (mkCDPClient 7 ["navigate"; "screenshot"]) []
              attached_reachable eq_refl)
    as (_ & Hreg & _).
  destruct (Hreg 8%nat None) as (client' & others' & Hc & Hne & _).
  exists client', others'. split; [exact Hc|]. apply Hne. discriminate.
Defined.

Lemma alias_actions_witness :
  ref_browser [("action", VStr "navigate_back")] attached =
  ref_browser [("action", VStr "go_back")] attached.
Proof.
  apply (alias_actions RefPlatform.platform "navigate_back" "go_back");
    [by left | reflexivity | reflexivity | reflexivity].
Defined.

Lemma ref_stands_for_selector_witness :
  ref_browser [("action", VStr "fill"); ("ref", VStr "#q"); ("value", VStr "x")] attached =
  ref_browser [("action", VStr "fill"); ("selector", VStr "#q"); ("value", VStr "x")] attached.
Proof.
  apply (ref_stands_for_selector RefPlatform.platform "fill" (VStr "#q")
           [("value", VStr "x")] attached);
    [simpl; tauto | reflexivity | reflexivity | reflexivity].
Defined.


End RouterFacts.

(* ===================================================================== *)
(** ** Facts: the manager and its sessions *)
(* ===================================================================== *)

Module CompositionFacts.
Import Js.

(** X25.  [disconnectMcp] announces the disconnect twice.  [close()] on
    the session only starts the closing of its socket; when the socket
    then closes, the session, Disconnected by then, emits [disconnect]
    with [wasConnected: false] and schedules no reconnect.  The handler
    that [connectMcp] registered for that event is still in place and
    emits [mcp:disconnect] for the record a second time, after the one
    that [disconnectMcp] itself emitted; the record stays removed. *)
Theorem disconnectMcp_announces_twice :
  (forall (c : Session.ZapClient) (s : nat) (sock : Session.WebSocket),
     Session.ws c = Some s -> Session.sockets c !! s = Some sock ->
     Session.readyState sock <> Session.CLOSED ->
     exists c',
       Session.step (Session.SockClose s) (Session.close c) = Some c' /\
       Session.emitted c' = Session.emitted c ++ [Session.EvDisconnect false] /\
       Session.state c' = Session.disconnected /\
       Session.timers c' = Session.timers (Session.close c)) /\
  (forall (m : Manager.ZapExtensionClient) (mcpId : string) (h : nat)
          (c : Manager.McpConnection),
     Manager.map_get mcpId (Manager.mcpConnections m) = Some h ->
     Manager.objects m !! h = Some c ->
     let m' := Manager.on_disconnect h (Manager.disconnectMcp mcpId m) in
     Manager.emitted m' =
       Manager.emitted m ++ [Manager.mcp_disconnect h; Manager.mcp_disconnect h] /\
     Manager.mcpConnections m' = Manager.map_delete mcpId (Manager.mcpConnections m) /\
     Manager.objects m' !! h = Some (Manager.set_connected false c)).
Proof.
  split.
  - intros c s sock Hws Hs Hne.
    destruct (SessionFacts.close_shape c) as (c1 & Heq & _ & _ & Hem1 & _ & _ & Hsock1).
    pose proof (SessionFacts.fold_reject_frame
                  (Session.ConnectionError "Connection closed") (Session.pendingRequests c) c1)
      as (_ & _ & _ & Hem & Hso & _).
    cbv zeta in Hem, Hso.
    assert (Hsock : Session.sockets (Session.close c) !! s =
                    Some (Session.set_readyState Session.CLOSING sock)).
    { rewrite Heq. SessionFacts.proj_simpl. rewrite Hso. by apply Hsock1. }
    assert (Hst : Session.state (Session.close c) = Session.disconnected)
      by (by rewrite Heq).
    assert (Hemc : Session.emitted (Session.close c) = Session.emitted c)
      by (rewrite Heq; SessionFacts.proj_simpl; congruence).
    unfold Session.step. rewrite Hsock. simpl Session.readyState. cbv iota.
    eexists. split; [reflexivity|].
    rewrite SessionFacts.ws_onclose_not_connected
      by (SessionFacts.proj_simpl; rewrite Hst; discriminate).
    SessionFacts.proj_simpl. rewrite Hemc. done.
  - intros m mcpId h c Hg Hc m'. subst m'.
    unfold Manager.disconnectMcp. rewrite Hg, Hc.
    unfold Manager.on_disconnect. simpl. rewrite lookup_insert_eq. simpl.
    rewrite <- app_assoc. split; [done|]. split; [done|].
    rewrite insert_insert_eq, lookup_insert_eq. done.
Qed.

Lemma disconnectMcp_announces_twice_witness :
  Manager.emitted
    (Manager.on_disconnect 1 (Manager.disconnectMcp "mcp-a" ManagerFacts.two_mcps)) =
  [Manager.mcp_connect 1; Manager.mcp_connect 2;
   Manager.mcp_disconnect 1; Manager.mcp_disconnect 1].
Proof.
  destruct disconnectMcp_announces_twice as [_ H].
  destruct (H ManagerFacts.two_mcps "mcp-a" 1%nat _ eq_refl eq_refl) as (Hem & _).
  rewrite Hem. reflexivity.
Defined.

End CompositionFacts.
